(** * npx-import: the resolution and installation engine of [src/index.ts]

    A shallow embedding of [npxImport], [npxResolve] and the helpers they
    are built from, and what holds of them.

    JavaScript strings are read as their UTF-8 bytes.  The functions the
    file imports (the module loader and the resolver of [utils.js], [execa],
    [semver], [parse-package-name], [validate-npm-package-name], [path]) are
    the fields of a record, [Collaborators], that the engine and every
    general statement are parametric in; each call to one of them is written
    to a trace kept in the state, next to the world they act on and the
    cache.  Models of the libraries and a small machine instantiate the
    record, to run the engine on concrete input.

    The file goes: strings, JSON and objects; the data model, the errors,
    the state and its monad; the engine; the models of the libraries and
    the machine; the vocabulary of the statements; then the facts and the
    theorems, and the runs on the machine. *)

From Stdlib Require Import String Ascii List Bool Arith NArith Lia.
From stdpp Require Import base list strings.
Import ListNotations.

Set Default Proof Using "Type".

(** ** Strings *)

Module Str.

(** [hay.includes(needle)], also the meaning of a regular expression that
    is a plain sequence of characters, such as [/\/\.npm\/_npx\//]. *)
Fixpoint includes (needle hay : string) : bool :=
  if String.prefix needle hay then true
  else match hay with
       | EmptyString => false
       | String _ rest => includes needle rest
       end.

(** [s.startsWith(p)] *)
Definition startsWith (s p : string) : bool := String.prefix p s.

(** [s.endsWith(suffix)], and a regular expression [/suffix$/]. *)
Fixpoint endsWith (s suffix : string) : bool :=
  if String.eqb s suffix then true
  else match s with
       | EmptyString => false
       | String _ rest => endsWith rest suffix
       end.

(** [s.split(sep)] for a separator of one character: never empty, and the
    empty string gives one empty segment. *)
Fixpoint split (sep : ascii) (s : string) : list string :=
  match s with
  | EmptyString => [EmptyString]
  | String c rest =>
      if Ascii.eqb c sep then EmptyString :: split sep rest
      else match split sep rest with
           | seg :: segs => String c seg :: segs
           | [] => [String c EmptyString]
           end
  end.

(** [l.join(sep)] *)
Definition join (sep : string) (l : list string) : string := String.concat sep l.

(** Some character of [s] satisfies [f]: a regular expression that is one
    character class, such as [/[<>*]/]. *)
Fixpoint any_char (f : ascii -> bool) (s : string) : bool :=
  match s with
  | EmptyString => false
  | String c rest => f c || any_char f rest
  end.

(** [sub] occurs in [s]. *)
Definition Contains (sub s : string) : Prop :=
  exists before after, s = before +:+ sub +:+ after.

End Str.

(** ** JSON.stringify on an array of strings *)

Module JSON.

(** The double quote, code 34. *)
Definition dquote : ascii := ascii_of_N 34.

Definition hex_digit (n : N) : ascii :=
  ascii_of_N (if (n <? 10)%N then 48 + n else 87 + n)%N.

(** The escape of one code unit inside a JSON string. *)
Definition escape (c : ascii) : string :=
  let n := N_of_ascii c in
  if (n =? 34)%N then String "\" (String dquote EmptyString)
  else if (n =? 92)%N then "\\"
  else if (n =? 8)%N then "\b"
  else if (n =? 12)%N then "\f"
  else if (n =? 10)%N then "\n"
  else if (n =? 13)%N then "\r"
  else if (n =? 9)%N then "\t"
  else if (n <? 32)%N then
    "\u00" +:+ String (hex_digit (n / 16)) (String (hex_digit (n mod 16)) "")
  else String c "".

Fixpoint escape_all (s : string) : string :=
  match s with
  | EmptyString => EmptyString
  | String c rest => escape c +:+ escape_all rest
  end.

Definition quote (s : string) : string :=
  String dquote (escape_all s +:+ String dquote EmptyString).

Definition stringify (l : list string) : string :=
  "[" +:+ Str.join "," (map quote l) +:+ "]".

End JSON.

(** ** Plain JavaScript objects used as records

    [INSTALL_CACHE] and [packages] are both created by the literal [{}] and
    indexed by package names.  Three facts of the language decide what the
    code does with them:
    - a read [o[k]] of a key [o] does not own goes on to [Object.prototype],
      so [o["constructor"]] is a function (truthy) on an empty object;
    - an assignment [o["__proto__"] = v] is taken by the accessor of
      [Object.prototype] and creates no own property (it would replace the
      prototype when [v] is an object; the engine never gets there, since a
      name that reads as truthy in [packages] is refused before the
      assignment, and the cache holds strings and a symbol);
    - [Object.values] lists the properties whose key is an array index
      (the canonical decimal form of an integer below [2^32 - 1]) first, in
      ascending numeric order, and the others after them in creation order. *)

Module JsObject.

(** Own properties, in creation order; keys are distinct. *)
Definition t (V : Type) : Type := list (string * V).

Definition empty {V} : t V := [].

(** The properties every object inherits from [Object.prototype]. *)
Definition prototype_keys : list string :=
  [ "constructor"; "__defineGetter__"; "__defineSetter__"; "hasOwnProperty";
    "__lookupGetter__"; "__lookupSetter__"; "isPrototypeOf";
    "propertyIsEnumerable"; "toString"; "valueOf"; "__proto__";
    "toLocaleString" ].

Definition inherited (k : string) : bool :=
  existsb (String.eqb k) prototype_keys.

(** What a read [o[k]] evaluates to. *)
Inductive read (V : Type) : Type :=
| Undefined
| Own (v : V)
| Inherited (k : string).
Arguments Undefined {V}.
Arguments Own {V} v.
Arguments Inherited {V} k.

Fixpoint own {V} (o : t V) (k : string) : option V :=
  match o with
  | [] => None
  | (k', v) :: rest => if String.eqb k k' then Some v else own rest k
  end.

Definition get {V} (o : t V) (k : string) : read V :=
  match own o k with
  | Some v => Own v
  | None => if inherited k then Inherited k else Undefined
  end.

Fixpoint replace {V} (o : t V) (k : string) (v : V) : t V :=
  match o with
  | [] => []
  | (k', v') :: rest =>
      if String.eqb k k' then (k', v) :: rest else (k', v') :: replace rest k v
  end.

(** [o[k] = v] *)
Definition set {V} (o : t V) (k : string) (v : V) : t V :=
  if String.eqb k "__proto__" then o
  else match own o k with
       | Some _ => replace o k v
       | None => o ++ [(k, v)]
       end.

Definition digit (c : ascii) : option N :=
  let n := N_of_ascii c in
  if ((48 <=? n) && (n <=? 57))%N then Some (n - 48)%N else None.

Fixpoint decimal (s : string) (acc : N) : option N :=
  match s with
  | EmptyString => Some acc
  | String c rest =>
      match digit c with
      | Some d => decimal rest (acc * 10 + d)%N
      | None => None
      end
  end.

(** The array index a key denotes, if it is one: [0], or digits with no
    leading zero, below [2^32 - 1]. *)
Definition array_index (k : string) : option N :=
  match k with
  | EmptyString => None
  | String c rest =>
      if Ascii.eqb c "0" && negb (String.eqb rest EmptyString) then None
      else match decimal k 0 with
           | Some n => if (n <? 4294967295)%N then Some n else None
           | None => None
           end
  end.

Fixpoint insert_by_index {V} (e : N * V) (l : list (N * V)) : list (N * V) :=
  match l with
  | [] => [e]
  | e' :: rest =>
      if (fst e <? fst e')%N then e :: l else e' :: insert_by_index e rest
  end.

Fixpoint indexed {V} (o : t V) : list (N * V) :=
  match o with
  | [] => []
  | (k, v) :: rest =>
      match array_index k with
      | Some n => insert_by_index (n, v) (indexed rest)
      | None => indexed rest
      end
  end.

Fixpoint named {V} (o : t V) : list V :=
  match o with
  | [] => []
  | (k, v) :: rest =>
      match array_index k with
      | Some _ => named rest
      | None => v :: named rest
      end
  end.

(** [Object.values(o)] *)
Definition values {V} (o : t V) : list V := map snd (indexed o) ++ named o.

End JsObject.

(** ** Data model *)

(** [imported: typeof NOT_IMPORTABLE | any]: the private symbol, or what
    the loader returned. *)
Inductive importable (JsModule : Type) : Type :=
| NOT_IMPORTABLE
| Loaded (m : JsModule).
Arguments NOT_IMPORTABLE {JsModule}.
Arguments Loaded {JsModule} m.

Definition is_NOT_IMPORTABLE {JsModule} (i : importable JsModule) : bool :=
  match i with NOT_IMPORTABLE => true | Loaded _ => false end.

Record Package (JsModule : Type) : Type := {
  name : string;
  packageWithPath : string;
  version : string;
  path : string;
  imported : importable JsModule;
  local : bool
}.
Arguments name {JsModule} p.
Arguments packageWithPath {JsModule} p.
Arguments version {JsModule} p.
Arguments path {JsModule} p.
Arguments imported {JsModule} p.
Arguments local {JsModule} p.

(** [o.imported = v] on a Package object. *)
Definition set_imported {JsModule} (v : importable JsModule) (p : Package JsModule)
  : Package JsModule :=
  {| name := name p; packageWithPath := packageWithPath p; version := version p;
     path := path p; imported := v; local := local p |}.

#[export] Instance Package_inhabited {JsModule} : Inhabited (Package JsModule) :=
  populate {| name := EmptyString; packageWithPath := EmptyString;
              version := EmptyString; path := EmptyString;
              imported := NOT_IMPORTABLE; local := false |}.

(** A value of [INSTALL_CACHE]: the symbol [INSTALLED_LOCALLY] or the
    directory the package was installed at. *)
Inductive outcome : Type :=
| INSTALLED_LOCALLY
| InstalledAt (dir : string).

(** What [npxResolve] finds under a name and hands on as [cachedDir]. *)
Inductive cachedDir : Type :=
| Directory (dir : string)
| PrototypeMember (k : string).

(** The argument of [npxImport]: [string | string[]]. *)
Inductive specifiers : Type :=
| One (p : string)
| Many (ps : list string).

Definition isArray (pkg : specifiers) : bool :=
  match pkg with One _ => false | Many _ => true end.

(** What [npxImport] resolves to: [results], or [results[0]]. *)
Inductive returned (JsModule : Type) : Type :=
| Results (results : list (importable JsModule))
| First (result : option (importable JsModule)).
Arguments Results {JsModule} results.
Arguments First {JsModule} result.

(** ** Errors

    Every failure of the file is [new Error(message)]; the constructors
    keep what each message is built from, [message] builds it. *)

Inductive error : Type :=
| InvalidSpecifier (p : string)
| CoreModuleNotImportable (name p : string)
| InvalidPackageName (name p : string)
| DuplicatePackageRequest (p name : string)
| ToolUnavailable (versionCmd : string)
| ToolVersionTooOld (npmVersion versionCmd : string)
| InstallFailed (names : list string) (installPackage : string)
| TempDirNotFound (paths : list string)
| UnexpectedInstallLayout (tempPath : string)
| OrchestrationFailed (withPaths : list string) (cause : string)
    (names : list string) (instructions : string)
| ResolveBeforeImport (pkg : string)
| Thrown (msg : string).

(** A line feed. *)
Definition LF : string := String (ascii_of_N 10) EmptyString.

Definition message (e : error) : string :=
  match e with
  | InvalidSpecifier p =>
      "npx-import can only import packages, not relative paths: got " +:+ p
  | CoreModuleNotImportable name p =>
      "npx-import can only import NPM packages, got core module '" +:+ name
      +:+ "' from '" +:+ p +:+ "'"
  | InvalidPackageName name p =>
      "npx-import can't import invalid package name: parsed name '" +:+ name
      +:+ "' from '" +:+ p +:+ "'"
  | DuplicatePackageRequest p name =>
      "npx-import cannot import the same package twice! Got: '" +:+ p
      +:+ "' but already saw '" +:+ name +:+ "' earlier!"
  | ToolUnavailable versionCmd =>
      "Couldn't execute " +:+ versionCmd +:+ ". Is npm installed and up-to-date?"
  | ToolVersionTooOld npmVersion versionCmd =>
      "Require npm version 8+. Got '" +:+ npmVersion +:+ "' when running '"
      +:+ versionCmd +:+ "'"
  | InstallFailed names installPackage =>
      "Failed installing " +:+ Str.join "," names +:+ " using: " +:+ installPackage
      +:+ "."
  | TempDirNotFound paths =>
      "Failed to find temporary install directory. Looking for paths matching '/.npm/_npx/' in:"
      +:+ LF +:+ JSON.stringify paths
  | UnexpectedInstallLayout tempPath =>
      "Found NPX temporary path of '" +:+ tempPath
      +:+ "' but expected to be able to find a node_modules directory by looking in '..'."
  | OrchestrationFailed withPaths cause names instructions =>
      "npx-import failed for " +:+ Str.join "," withPaths +:+ " with message:" +:+ LF
      +:+ "    " +:+ cause +:+ LF +:+ LF
      +:+ "You should install " +:+ Str.join ", " names +:+ " locally: " +:+ LF
      +:+ "    " +:+ instructions +:+ LF +:+ LF
  | ResolveBeforeImport pkg =>
      "You must call npxImport for a package before calling npxResolve. Got: " +:+ pkg
  | Thrown msg => msg
  end.

(** ** Collaborators and the trace of their calls *)

Record exec_result : Type := { failed : bool; stdout : string }.

Record validation : Type := {
  validForNewPackages : bool;
  warnings : option (list string)
}.

(** What [getPackageManager] reads: [process.env.npm_config_user_agent],
    [process.env.npm_execpath], [process.mainModule?.path]. *)
Record ProcessEnv : Type := {
  npm_config_user_agent : option string;
  npm_execpath : option string;
  mainModule_path : option string
}.

(** The functions [index.ts] imports.  A call either returns or throws an
    error, of which the message is kept ([inl]); the loader, the resolver
    and the process runner act on the world outside. *)
Record Collaborators (World JsModule : Type) : Type := {
  parse : string -> string + (string * string * string);
  validateNpmName : string -> validation;
  semver_gte : string -> string -> string + bool;
  path_resolve : World -> string -> string -> string;
  process_env : World -> ProcessEnv;
  _import : string -> World -> (string + JsModule) * World;
  _importRelative : string -> string -> World -> (string + JsModule) * World;
  _resolve : string -> World -> (string + string) * World;
  _resolveRelative : cachedDir -> string -> World -> (string + string) * World;
  execaCommand : string -> bool -> World -> (string + exec_result) * World
}.
Arguments parse {World JsModule} c _.
Arguments validateNpmName {World JsModule} c _.
Arguments semver_gte {World JsModule} c _ _.
Arguments path_resolve {World JsModule} c _ _ _.
Arguments process_env {World JsModule} c _.
Arguments _import {World JsModule} c _ _.
Arguments _importRelative {World JsModule} c _ _ _.
Arguments _resolve {World JsModule} c _ _.
Arguments _resolveRelative {World JsModule} c _ _ _.
Arguments execaCommand {World JsModule} c _ _ _.

Inductive event : Type :=
| EvParse (input : string)
| EvValidateNpmName (name : string)
| EvImport (specifier : string)
| EvImportRelative (dir specifier : string)
| EvResolve (specifier : string)
| EvResolveRelative (dir : cachedDir) (specifier : string)
| EvExeca (command : string) (shell : bool)
| EvSemverGte (a b : string)
| EvPathResolve (from to : string)
| EvLog (line : string).

(** The specifiers the local loader was asked for. *)
Fixpoint probes (tr : list event) : list string :=
  match tr with
  | [] => []
  | EvImport s :: rest => s :: probes rest
  | _ :: rest => probes rest
  end.

(** The imports from an install directory. *)
Fixpoint relative_imports (tr : list event) : list (string * string) :=
  match tr with
  | [] => []
  | EvImportRelative d s :: rest => (d, s) :: relative_imports rest
  | _ :: rest => relative_imports rest
  end.

(** The commands handed to [execaCommand]. *)
Fixpoint commands (tr : list event) : list (string * bool) :=
  match tr with
  | [] => []
  | EvExeca c sh :: rest => (c, sh) :: commands rest
  | _ :: rest => commands rest
  end.

(** The names and specifiers that were parsed or validated. *)
Fixpoint validations (tr : list event) : list string :=
  match tr with
  | [] => []
  | EvParse s :: rest => s :: validations rest
  | EvValidateNpmName s :: rest => s :: validations rest
  | _ :: rest => validations rest
  end.

(** The lines handed to the logger. *)
Fixpoint logs (tr : list event) : list string :=
  match tr with
  | [] => []
  | EvLog line :: rest => line :: logs rest
  | _ :: rest => logs rest
  end.

(** ** The permanent-install suggestion *)

Inductive manager : Type := npm | pnpm | yarn.

Definition INSTRUCTIONS (m : manager) (packageName : string) : string :=
  match m with
  | npm => "npm install --save-dev " +:+ packageName
  | pnpm => "pnpm add -D " +:+ packageName
  | yarn => "yarn add -D " +:+ packageName
  end.

(** An absent variable and the empty string are both falsy. *)
Definition truthy (o : option string) : option string :=
  match o with
  | Some s => if String.eqb s EmptyString then None else Some s
  | None => None
  end.

Definition by_mainModule (env : ProcessEnv) : manager :=
  match truthy (mainModule_path env) with
  | Some mainModulePath =>
      if Str.includes "/pnpm/" mainModulePath || Str.includes "/.pnpm/" mainModulePath
      then pnpm
      else if Str.includes "/yarn/" mainModulePath || Str.includes "/.yarn/" mainModulePath
      then yarn
      else npm
  | None => npm
  end.

Definition by_execpath (env : ProcessEnv) : manager :=
  match truthy (npm_execpath env) with
  | Some execpath =>
      if Str.endsWith execpath "npx-cli.js" || Str.endsWith execpath "npm-cli.js"
      then npm
      else if Str.endsWith execpath "yarn" then yarn
      else by_mainModule env
  | None => by_mainModule env
  end.

Definition getPackageManager (env : ProcessEnv) : manager :=
  match truthy (npm_config_user_agent env) with
  | Some userAgent =>
      if Str.startsWith userAgent "pnpm" then pnpm
      else if Str.startsWith userAgent "yarn" then yarn
      else if Str.startsWith userAgent "npm" then npm
      else by_execpath env
  | None => by_execpath env
  end.

(** One of the characters of [/[<>*]/]. *)
Definition shell_special (c : ascii) : bool :=
  Ascii.eqb c "<" || Ascii.eqb c ">" || Ascii.eqb c "*".

Definition formatForCLI {JsModule} (p : Package JsModule) : string :=
  let unescaped := name p +:+ "@" +:+ version p in
  if Str.any_char shell_special unescaped then "'" +:+ unescaped +:+ "'"
  else unescaped.

Definition installInstructions {JsModule} (env : ProcessEnv)
    (packages : list (Package JsModule)) : string :=
  INSTRUCTIONS (getPackageManager env) (Str.join " " (map formatForCLI packages)).

(** ** State, and the monad the asynchronous code runs in *)

Record state (World : Type) : Type := {
  world : World;
  INSTALL_CACHE : JsObject.t outcome;
  trace : list event
}.
Arguments world {World} s.
Arguments INSTALL_CACHE {World} s.
Arguments trace {World} s.

Inductive result (A : Type) : Type :=
| Ok (a : A)
| Err (e : error).
Arguments Ok {A} a.
Arguments Err {A} e.

Definition M (World A : Type) : Type := state World -> result A * state World.

Definition ret {World A} (a : A) : M World A := fun s => (Ok a, s).

Definition bind {World A B} (m : M World A) (k : A -> M World B) : M World B :=
  fun s => match m s with
           | (Ok a, s') => k a s'
           | (Err e, s') => (Err e, s')
           end.

Definition throw {World A} (e : error) : M World A := fun s => (Err e, s).

(** [try { m } catch (e) { handler e }] *)
Definition try_catch {World A} (m : M World A) (handler : error -> M World A)
  : M World A :=
  fun s => match m s with
           | (Ok a, s') => (Ok a, s')
           | (Err e, s') => handler e s'
           end.

Declare Scope js_scope.
Delimit Scope js_scope with js.
Notation "x <- c1 ;; c2" := (bind c1 (fun x => c2))
  (at level 100, c1 at next level, right associativity) : js_scope.
Notation "c1 ;; c2" := (bind c1 (fun _ => c2))
  (at level 100, right associativity) : js_scope.

(** A call to a collaborator that acts on the world. *)
Definition call {World A} (ev : event) (f : World -> (string + A) * World) : M World A :=
  fun s =>
    let '(r, w) := f (world s) in
    let s' := {| world := w; INSTALL_CACHE := INSTALL_CACHE s;
                 trace := trace s ++ [ev] |} in
    match r with
    | inl msg => (Err (Thrown msg), s')
    | inr a => (Ok a, s')
    end.

(** A call to a pure collaborator. *)
Definition call_pure {World A} (ev : event) (r : string + A) : M World A :=
  call ev (fun w => (r, w)).

(** Reading the world. *)
Definition ask {World A} (f : World -> A) : M World A :=
  fun s => (Ok (f (world s)), s).

(** The logger, the default one or the caller's, is taken to return; the
    line it was given is kept in the trace. *)
Definition logger {World} (line : string) : M World unit :=
  fun s => (Ok tt, {| world := world s; INSTALL_CACHE := INSTALL_CACHE s;
                      trace := trace s ++ [EvLog line] |}).

(** [INSTALL_CACHE[k] = v] *)
Definition cache_set {World} (k : string) (v : outcome) : M World unit :=
  fun s => (Ok tt, {| world := world s;
                      INSTALL_CACHE := JsObject.set (INSTALL_CACHE s) k v;
                      trace := trace s |}).

Definition cache_get {World} (k : string) : M World (JsObject.read outcome) :=
  fun s => (Ok (JsObject.get (INSTALL_CACHE s) k), s).

(** ** The engine *)

Section Engine.

Context {World JsModule : Type} (C : Collaborators World JsModule).

Local Open Scope js_scope.

(** [p.match(/^[.\/]/)] *)
Definition relative (p : string) : bool :=
  match p with
  | EmptyString => false
  | String c _ => Ascii.eqb c "." || Ascii.eqb c "/"
  end.

(** [validation.warnings?.some((w) => w.match(/is a core module name/))] *)
Definition core_module_warning (v : validation) : bool :=
  match warnings v with
  | Some ws => existsb (Str.includes "is a core module name") ws
  | None => false
  end.

Definition parseAndValidate (p : string) : M World (string * string * string) :=
  if relative p then throw (InvalidSpecifier p)
  else
    parsed <- call_pure (EvParse p) (parse C p) ;;
    let '(name, version, path) := parsed in
    validation <- call_pure (EvValidateNpmName name) (inr (validateNpmName C name)) ;;
    if negb (validForNewPackages validation) then
      if core_module_warning validation then throw (CoreModuleNotImportable name p)
      else throw (InvalidPackageName name p)
    else ret (name, version, path).

Definition tryImport (packageWithPath : string) : M World (importable JsModule) :=
  try_catch
    (m <- call (EvImport packageWithPath) (_import C packageWithPath) ;;
     ret (Loaded m))
    (fun _ => ret NOT_IMPORTABLE).

(** The record [packages] of one call and the Package objects it refers to.
    An object is known by its address, its place in [objects]; the arrays
    [allPackages], [localPackages] and [missingPackages] hold addresses, so
    that the assignment to [packages[pkg.name].imported] is seen through
    each of them. *)
Record table : Type := {
  objects : list (Package JsModule);
  packages : JsObject.t nat
}.

(** [if (packages[name])]: an object, own or inherited, is truthy. *)
Definition seen (t : table) (name : string) : bool :=
  match JsObject.get (packages t) name with
  | JsObject.Undefined => false
  | JsObject.Own _ => true
  | JsObject.Inherited _ => true
  end.

(** The body of [for (const p of ...)] in [checkPackagesAvailableLocally]. *)
Fixpoint probe_each (ps : list string) (t : table) : M World table :=
  match ps with
  | [] => ret t
  | p :: rest =>
      parsed <- parseAndValidate p ;;
      let '(name, version, path) := parsed in
      if seen t name then throw (DuplicatePackageRequest p name)
      else
        let packageWithPath := name +:+ path in
        imported <- tryImport packageWithPath ;;
        let object := {| name := name; packageWithPath := packageWithPath;
                         version := version; path := path; imported := imported;
                         local := negb (is_NOT_IMPORTABLE imported) |} in
        probe_each rest
          {| objects := objects t ++ [object];
             packages := JsObject.set (packages t) name (length (objects t)) |}
  end.

Definition as_list (pkg : specifiers) : list string :=
  match pkg with One p => [p] | Many ps => ps end.

Definition checkPackagesAvailableLocally (pkg : specifiers) : M World table :=
  probe_each (as_list pkg) {| objects := []; packages := JsObject.empty |}.

Definition checkNpxVersion : M World unit :=
  let versionCmd := "npx --version" in
  r <- call (EvExeca versionCmd false) (execaCommand C versionCmd false) ;;
  let npmVersion := stdout r in
  if failed r then throw (ToolUnavailable versionCmd)
  else
    ok <- call_pure (EvSemverGte npmVersion "8.0.0") (semver_gte C npmVersion "8.0.0") ;;
    if negb ok then throw (ToolVersionTooOld npmVersion versionCmd)
    else ret tt.

Definition emitPath : string := "node -e 'console.log(process.env.PATH)'".

Definition installPackage_of (packages : list (Package JsModule)) : string :=
  "npx -y " +:+ Str.join " " (map (fun p => "-p " +:+ formatForCLI p) packages).

Definition installAndReturnDir (packages : list (Package JsModule)) : M World string :=
  let installPackage := installPackage_of packages in
  logger ("Installing... (" +:+ installPackage +:+ ")") ;;
  let fullCmd := installPackage +:+ " " +:+ emitPath in
  r <- call (EvExeca fullCmd true) (execaCommand C fullCmd true) ;;
  if failed r then throw (InstallFailed (map name packages) installPackage)
  else
    let paths := Str.split ":" (stdout r) in
    match truthy (List.find (Str.includes "/.npm/_npx/") paths) with
    | None => throw (TempDirNotFound paths)
    | Some tempPath =>
        nodeModulesPath <-
          call (EvPathResolve tempPath "..")
               (fun w => (inr (path_resolve C w tempPath ".."), w)) ;;
        if negb (Str.endsWith nodeModulesPath "node_modules")
        then throw (UnexpectedInstallLayout tempPath)
        else
          logger ("Installed into " +:+ nodeModulesPath +:+ ".") ;;
          env <- ask (process_env C) ;;
          logger ("To skip this step in future, run: "
                  +:+ installInstructions env packages) ;;
          ret nodeModulesPath
    end.

(** [for (const pkg of missingPackages)]: import from the install
    directory, assign to the object [packages] holds under the name, write
    the cache. *)
Fixpoint import_each (installDir : string) (t : table) (missing : list nat)
  : M World table :=
  match missing with
  | [] => ret t
  | pkg :: rest =>
      m <- call (EvImportRelative installDir (packageWithPath (objects t !!! pkg)))
                (_importRelative C installDir (packageWithPath (objects t !!! pkg))) ;;
      t' <- match JsObject.get (packages t) (name (objects t !!! pkg)) with
            | JsObject.Own target =>
                ret {| objects :=
                         <[target := set_imported (Loaded m) (objects t !!! target)]>
                           (objects t);
                       packages := packages t |}
            | JsObject.Inherited _ => ret t
            | JsObject.Undefined =>
                throw (Thrown "Cannot set properties of undefined (setting 'imported')")
            end ;;
      cache_set (name (objects t' !!! pkg)) (InstalledAt installDir) ;;
      import_each installDir t' rest
  end.

(** [for (const pkg of localPackages)] *)
Fixpoint record_local (objs : list (Package JsModule)) (locals : list nat) : M World unit :=
  match locals with
  | [] => ret tt
  | pkg :: rest =>
      cache_set (name (objs !!! pkg)) INSTALLED_LOCALLY ;;
      record_local objs rest
  end.

(** The body of the [try] block.  [installAndReturnDir] reads [name] and
    [version] of the objects it is given and assigns to none, so it gets
    the objects as they are at the call. *)
Definition install_phase (t : table) (missingPackages localPackages : list nat)
  : M World table :=
  checkNpxVersion ;;
  installDir <- installAndReturnDir (map (fun a => objects t !!! a) missingPackages) ;;
  t' <- import_each installDir t missingPackages ;;
  record_local (objects t') localPackages ;;
  ret t'.

(** The line logged before the installation is attempted; [missing] is not
    empty where [npxImport] builds it. *)
Definition not_available (missing : list (Package JsModule)) : string :=
  (if 1 <? length missing
   then "Packages " +:+ Str.join ", " (map packageWithPath missing)
   else match missing with
        | p :: _ => packageWithPath p
        | [] => "undefined"
        end)
  +:+ " not available locally. Attempting to use npx to install temporarily.".

(** The error the [catch] block throws.  It reads [name], [version] and
    [packageWithPath] of the missing packages, which no assignment changes. *)
Definition failure (env : ProcessEnv) (missing : list (Package JsModule)) (e : error) : error :=
  OrchestrationFailed (map packageWithPath missing) (message e) (map name missing)
    (installInstructions env missing).

Definition npxImport (pkg : specifiers) : M World (returned JsModule) :=
  t <- checkPackagesAvailableLocally pkg ;;
  let allPackages := JsObject.values (packages t) in
  let localPackages :=
    List.filter (fun a => negb (is_NOT_IMPORTABLE (imported (objects t !!! a))))
      allPackages in
  let missingPackages :=
    List.filter (fun a => is_NOT_IMPORTABLE (imported (objects t !!! a)))
      allPackages in
  t' <- (if 0 <? length missingPackages then
           let missing := map (fun a => objects t !!! a) missingPackages in
           logger (not_available missing) ;;
           try_catch (install_phase t missingPackages localPackages)
             (fun e => env <- ask (process_env C) ;; throw (failure env missing e))
         else ret t) ;;
  let results := map (fun a => imported (objects t' !!! a)) allPackages in
  ret (if isArray pkg then Results results else First (head results)).

Definition npxResolve (pkg : string) : M World string :=
  parsed <- call_pure (EvParse pkg) (parse C pkg) ;;
  let '(name, _, path) := parsed in
  let packageWithPath := name +:+ path in
  found <- cache_get name ;;
  match found with
  | JsObject.Undefined => throw (ResolveBeforeImport pkg)
  | JsObject.Own INSTALLED_LOCALLY =>
      call (EvResolve packageWithPath) (_resolve C packageWithPath)
  | JsObject.Own (InstalledAt dir) =>
      if String.eqb dir EmptyString then throw (ResolveBeforeImport pkg)
      else call (EvResolveRelative (Directory dir) packageWithPath)
                (_resolveRelative C (Directory dir) packageWithPath)
  | JsObject.Inherited k =>
      call (EvResolveRelative (PrototypeMember k) packageWithPath)
           (_resolveRelative C (PrototypeMember k) packageWithPath)
  end.

End Engine.

(** ** Models of the libraries, for running the engine on concrete input *)

(** [parse-package-name]: a name, scoped (an at sign, characters other than
    a slash, a slash, characters other than an at sign or a slash) or not
    (characters other than an at sign or a slash); then optionally an at
    sign and a version of characters other than a slash; then optionally a
    slash and the rest of the line; then the end of the input. *)
Module ParsePackageName.

Fixpoint span (f : ascii -> bool) (s : string) : string * string :=
  match s with
  | EmptyString => (EmptyString, EmptyString)
  | String c rest =>
      if f c then let '(run, after) := span f rest in (String c run, after)
      else (EmptyString, s)
  end.

Definition not_slash (c : ascii) : bool := negb (Ascii.eqb c "/").
Definition not_at_or_slash (c : ascii) : bool :=
  negb (Ascii.eqb c "@") && negb (Ascii.eqb c "/").

(** [.] matches no line terminator: LF, CR, U+2028, U+2029. *)
Definition line_terminator (c : ascii) : bool :=
  (N_of_ascii c =? 10)%N || (N_of_ascii c =? 13)%N.
Definition separator_2028 : string :=
  String (ascii_of_N 226) (String (ascii_of_N 128) (String (ascii_of_N 168) EmptyString)).
Definition separator_2029 : string :=
  String (ascii_of_N 226) (String (ascii_of_N 128) (String (ascii_of_N 169) EmptyString)).
Definition one_line (s : string) : bool :=
  negb (Str.any_char line_terminator s)
  && negb (Str.includes separator_2028 s) && negb (Str.includes separator_2029 s).

(** What follows the name: version and path. *)
Definition tail (rest : string) : option (string * string) :=
  let '(version, rest) :=
    match rest with
    | String "@" after =>
        let '(v, after') := span not_slash after in
        if String.eqb v EmptyString then ("latest", rest) else (v, after')
    | _ => ("latest", rest)
    end in
  match rest with
  | EmptyString => Some (version, EmptyString)
  | String "/" _ => if one_line rest then Some (version, rest) else None
  | _ => None
  end.

Definition invalid (input : string) : string :=
  "[parse-package-name] invalid package name: " +:+ input.

Definition parse (input : string) : string + (string * string * string) :=
  match input with
  | String "@" after =>
      let '(scope, after) := span not_slash after in
      match after with
      | String "/" after =>
          let '(pkg, after) := span not_at_or_slash after in
          if String.eqb scope EmptyString || String.eqb pkg EmptyString
          then inl (invalid input)
          else match tail after with
               | Some (version, path) =>
                   inr ("@" +:+ scope +:+ "/" +:+ pkg, version, path)
               | None => inl (invalid input)
               end
      | _ => inl (invalid input)
      end
  | _ =>
      let '(name, after) := span not_at_or_slash input in
      if String.eqb name EmptyString then inl (invalid input)
      else match tail after with
           | Some (version, path) => inr (name, version, path)
           | None => inl (invalid input)
           end
  end.

End ParsePackageName.

(** [validate-npm-package-name], on names of ASCII characters. *)
Module ValidateNpmName.

Definition lower (c : ascii) : ascii :=
  let n := N_of_ascii c in
  if ((65 <=? n) && (n <=? 90))%N then ascii_of_N (n + 32) else c.

Fixpoint toLowerCase (s : string) : string :=
  match s with
  | EmptyString => EmptyString
  | String c rest => String (lower c) (toLowerCase rest)
  end.

(** The characters [encodeURIComponent] leaves as they are. *)
Definition url_friendly (c : ascii) : bool :=
  let n := N_of_ascii c in
  ((48 <=? n) && (n <=? 57))%N || ((65 <=? n) && (n <=? 90))%N
  || ((97 <=? n) && (n <=? 122))%N
  || existsb (Ascii.eqb c) ["-"; "_"; "."; "!"; "~"; "*"; "'"; "("; ")"]%char.

Definition all_url_friendly (s : string) : bool :=
  negb (Str.any_char (fun c => negb (url_friendly c)) s).

Definition special (c : ascii) : bool :=
  existsb (Ascii.eqb c) ["~"; "'"; "!"; "("; ")"; "*"]%char.

Definition blacklist : list string := ["node_modules"; "favicon.ico"].

(** [builtinModules] of Node 20, which the library reads. *)
Definition builtins : list string :=
  [ "_http_agent"; "_http_client"; "_http_common"; "_http_incoming";
    "_http_outgoing"; "_http_server"; "_stream_duplex"; "_stream_passthrough";
    "_stream_readable"; "_stream_transform"; "_stream_wrap"; "_stream_writable";
    "_tls_common"; "_tls_wrap"; "assert"; "assert/strict"; "async_hooks";
    "buffer"; "child_process"; "cluster"; "console"; "constants"; "crypto";
    "dgram"; "diagnostics_channel"; "dns"; "dns/promises"; "domain"; "events";
    "fs"; "fs/promises"; "http"; "http2"; "https"; "inspector";
    "inspector/promises"; "module"; "net"; "os"; "path"; "path/posix";
    "path/win32"; "perf_hooks"; "process"; "punycode"; "querystring";
    "readline"; "readline/promises"; "repl"; "stream"; "stream/consumers";
    "stream/promises"; "stream/web"; "string_decoder"; "sys"; "timers";
    "timers/promises"; "tls"; "trace_events"; "tty"; "url"; "util";
    "util/types"; "v8"; "vm"; "wasi"; "worker_threads"; "zlib" ].

Definition space (c : ascii) : bool := (N_of_ascii c <=? 32)%N.

Definition first_char (f : ascii -> bool) (s : string) : bool :=
  match s with EmptyString => false | String c _ => f c end.

Fixpoint last_char (f : ascii -> bool) (s : string) : bool :=
  match s with
  | EmptyString => false
  | String c EmptyString => f c
  | String _ rest => last_char f rest
  end.

(** A scope and a name with no further slash, both URL-friendly. *)
Definition scoped_friendly (s : string) : bool :=
  match s with
  | String "@" after =>
      let '(user, after) := ParsePackageName.span ParsePackageName.not_slash after in
      match after with
      | String "/" pkg =>
          negb (String.eqb user EmptyString) && negb (String.eqb pkg EmptyString)
          && negb (Str.includes "/" pkg)
          && all_url_friendly user && all_url_friendly pkg
      | _ => false
      end
  | _ => false
  end.

Definition errors (name : string) : list string :=
  (if String.eqb name EmptyString then ["name length must be greater than zero"] else [])
  ++ (if first_char (Ascii.eqb ".") name then ["name cannot start with a period"] else [])
  ++ (if first_char (Ascii.eqb "_") name then ["name cannot start with an underscore"] else [])
  ++ (if first_char space name || last_char space name
      then ["name cannot contain leading or trailing spaces"] else [])
  ++ map (fun b => b +:+ " is a blacklisted name")
       (List.filter (String.eqb (toLowerCase name)) blacklist)
  ++ (if all_url_friendly name || scoped_friendly name then []
      else ["name can only contain URL-friendly characters"]).

Definition last_segment (name : string) : string :=
  List.last (Str.split "/" name) EmptyString.

Definition all_warnings (name : string) : list string :=
  map (fun b => b +:+ " is a core module name")
    (List.filter (String.eqb (toLowerCase name)) builtins)
  ++ (if 214 <? String.length name
      then ["name can no longer contain more than 214 characters"] else [])
  ++ (if String.eqb (toLowerCase name) name then []
      else ["name can no longer contain capital letters"])
  ++ (if Str.any_char special (last_segment name)
      then ["name can no longer contain special characters"] else []).

Definition validate (name : string) : validation :=
  let ws := all_warnings name in
  {| validForNewPackages :=
       match errors name, ws with [], [] => true | _, _ => false end;
     warnings := match ws with [] => None | _ => Some ws end |}.

End ValidateNpmName.

(** [path.resolve] of Node on POSIX. *)
Module PosixPath.

Definition step (allowAboveRoot : bool) (stack : list string) (seg : string)
  : list string :=
  if String.eqb seg EmptyString || String.eqb seg "." then stack
  else if String.eqb seg ".." then
    match stack with
    | top :: below =>
        if String.eqb top ".." then (if allowAboveRoot then ".." :: stack else stack)
        else below
    | [] => if allowAboveRoot then [".."] else []
    end
  else seg :: stack.

Definition normalizeString (p : string) (allowAboveRoot : bool) : string :=
  Str.join "/" (rev (fold_left (step allowAboveRoot) (Str.split "/" p) [])).

(** From the last argument to the first, then the working directory,
    until an absolute path is met. *)
Fixpoint gather (right_to_left : list string) (resolvedPath : string) : string * bool :=
  match right_to_left with
  | [] => (resolvedPath, false)
  | p :: rest =>
      if String.eqb p EmptyString then gather rest resolvedPath
      else
        let resolvedPath := p +:+ "/" +:+ resolvedPath in
        if ValidateNpmName.first_char (Ascii.eqb "/") p then (resolvedPath, true)
        else gather rest resolvedPath
  end.

Definition resolve (cwd : string) (args : list string) : string :=
  let '(resolvedPath, resolvedAbsolute) := gather (rev args ++ [cwd]) EmptyString in
  let normalized := normalizeString resolvedPath (negb resolvedAbsolute) in
  if resolvedAbsolute then "/" +:+ normalized
  else if String.eqb normalized EmptyString then "." else normalized.

(** The last component of a path. *)
Definition basename (p : string) : string :=
  List.last (Str.split "/" p) EmptyString.

End PosixPath.

(** [semver.gte] of semver 7, in strict mode: [new SemVer] parses each of
    the two versions, and throws on what is not one; then the main versions
    are compared, and the prereleases when those are equal. *)
Module Semver.

Definition MAX_LENGTH : nat := 256.
Definition MAX_SAFE_INTEGER : N := 9007199254740991.

(** The length of a string in UTF-16 code units, from its UTF-8 bytes: a
    continuation byte counts for nothing, the first byte of a character
    outside the basic plane for two, any other byte for one. *)
Fixpoint code_units (s : string) : nat :=
  match s with
  | EmptyString => 0
  | String c rest =>
      let n := N_of_ascii c in
      (if ((128 <=? n) && (n <? 192))%N then 0
       else if (240 <=? n)%N then 2 else 1) + code_units rest
  end.

Definition bytes (l : list N) : string :=
  fold_right (fun n s => String (ascii_of_N n) s) EmptyString l.

(** The white space and the line terminators of [String.prototype.trim]:
    TAB, LF, VT, FF, CR, SP, U+00A0, U+1680, U+2000 to U+200A, U+2028,
    U+2029, U+202F, U+205F, U+3000 and U+FEFF. *)
Definition white_space : list string :=
  map bytes
    [ [9]; [10]; [11]; [12]; [13]; [32]; [194; 160]; [225; 154; 128];
      [226; 128; 128]; [226; 128; 129]; [226; 128; 130]; [226; 128; 131];
      [226; 128; 132]; [226; 128; 133]; [226; 128; 134]; [226; 128; 135];
      [226; 128; 136]; [226; 128; 137]; [226; 128; 138]; [226; 128; 168];
      [226; 128; 169]; [226; 128; 175]; [226; 129; 159]; [227; 128; 128];
      [239; 187; 191] ]%N.

Fixpoint drop_prefix (p s : string) : option string :=
  match p, s with
  | EmptyString, _ => Some s
  | String a p', String b s' => if Ascii.eqb a b then drop_prefix p' s' else None
  | String _ _, EmptyString => None
  end.

(** The string without the one of [patterns] it starts with, if any. *)
Definition strip_one (patterns : list string) (s : string) : option string :=
  fold_right (fun p found => match drop_prefix p s with
                             | Some rest => Some rest
                             | None => found
                             end) None patterns.

Fixpoint strip_all (patterns : list string) (fuel : nat) (s : string) : string :=
  match fuel with
  | 0 => s
  | S fuel' =>
      match strip_one patterns s with
      | Some rest => strip_all patterns fuel' rest
      | None => s
      end
  end.

Definition reverse (s : string) : string :=
  string_of_list_ascii (rev (list_ascii_of_string s)).

(** [s.trim()] *)
Definition trim (s : string) : string :=
  let from_start := strip_all white_space (String.length s) s in
  reverse (strip_all (map reverse white_space) (String.length from_start)
             (reverse from_start)).

Definition is_digit (c : ascii) : bool :=
  let n := N_of_ascii c in ((48 <=? n) && (n <=? 57))%N.

(** One of the characters of [[0-9A-Za-z-]]. *)
Definition is_identifier_char (c : ascii) : bool :=
  let n := N_of_ascii c in
  is_digit c || ((65 <=? n) && (n <=? 90))%N || ((97 <=? n) && (n <=? 122))%N
  || Ascii.eqb c "-".

Definition all_chars (f : ascii -> bool) (s : string) : bool :=
  negb (Str.any_char (fun c => negb (f c)) s).

(** A numeric identifier: [0], or digits with no leading zero. *)
Definition numeric (s : string) : option N :=
  match s with
  | EmptyString => None
  | String c rest =>
      if Ascii.eqb c "0" && negb (String.eqb rest EmptyString) then None
      else JsObject.decimal s 0
  end.

Inductive identifier : Type :=
| Numeric (n : N)
| Alphanumeric (s : string).

(** An identifier of a prerelease: numeric, or of identifier characters
    with one that is not a digit. *)
Definition prerelease_identifier (s : string) : option identifier :=
  if String.eqb s EmptyString then None
  else if all_chars is_digit s then option_map Numeric (numeric s)
  else if all_chars is_identifier_char s then Some (Alphanumeric s)
  else None.

Definition build_identifier (s : string) : bool :=
  negb (String.eqb s EmptyString) && all_chars is_identifier_char s.

Fixpoint all_some {A} (l : list (option A)) : option (list A) :=
  match l with
  | [] => Some []
  | Some x :: rest => option_map (cons x) (all_some rest)
  | None :: _ => None
  end.

Record version : Type := {
  major : N;
  minor : N;
  patch : N;
  prerelease : list identifier
}.

Definition is_not (x : ascii) (c : ascii) : bool := negb (Ascii.eqb c x).

(** [new SemVer(v)]: an optional [v], three numeric identifiers, then an
    optional prerelease after [-] and an optional build after [+], each a
    list of identifiers separated by periods. *)
Definition parse (v : string) : string + version :=
  if MAX_LENGTH <? code_units v then inl "version is longer than 256 characters"
  else
    let trimmed := trim v in
    let plain := match trimmed with
                 | String "v" rest => rest
                 | _ => trimmed
                 end in
    let '(front, build) := ParsePackageName.span (is_not "+") plain in
    let build_ok := match build with
                    | EmptyString => true
                    | String _ ids => forallb build_identifier (Str.split "." ids)
                    end in
    let '(main, pre) := ParsePackageName.span (is_not "-") front in
    let identifiers :=
      match pre with
      | EmptyString => Some []
      | String _ ids => all_some (map prerelease_identifier (Str.split "." ids))
      end in
    match map numeric (Str.split "." main), identifiers, build_ok with
    | [Some a; Some b; Some c], Some ids, true =>
        if (MAX_SAFE_INTEGER <? a)%N then inl "Invalid major version"
        else if (MAX_SAFE_INTEGER <? b)%N then inl "Invalid minor version"
        else if (MAX_SAFE_INTEGER <? c)%N then inl "Invalid patch version"
        else inr {| major := a; minor := b; patch := c; prerelease := ids |}
    | _, _, _ => inl ("Invalid Version: " +:+ v)
    end.

(** The double nearest to a natural number, ties to even: what [+id]
    makes of the digits of a numeric identifier. *)
Definition to_double (n : N) : N :=
  let size := N.size n in
  if (size <=? 53)%N then n
  else
    let k := (size - 53)%N in
    let q := N.shiftr n k in
    let r := N.land n (N.ones k) in
    let half := N.shiftl 1 (k - 1) in
    let q' := if (half <? r)%N || ((r =? half)%N && N.odd q) then (q + 1)%N else q in
    N.shiftl q' k.

(** [a === b] on identifiers. *)
Definition same_identifier (a b : identifier) : bool :=
  match a, b with
  | Numeric x, Numeric y => (x =? y)%N
  | Alphanumeric x, Alphanumeric y => String.eqb x y
  | _, _ => false
  end.

Definition compareIdentifiers (a b : identifier) : comparison :=
  match a, b with
  | Numeric x, Numeric y => (to_double x ?= to_double y)%N
  | Numeric _, Alphanumeric _ => Lt
  | Alphanumeric _, Numeric _ => Gt
  | Alphanumeric x, Alphanumeric y => String.compare x y
  end.

Fixpoint compare_identifiers (a b : list identifier) : comparison :=
  match a, b with
  | [], [] => Eq
  | _ :: _, [] => Gt
  | [], _ :: _ => Lt
  | x :: a', y :: b' =>
      if same_identifier x y then compare_identifiers a' b'
      else compareIdentifiers x y
  end.

(** A version with no prerelease is above the same version with one. *)
Definition comparePre (a b : version) : comparison :=
  match prerelease a, prerelease b with
  | _ :: _, [] => Lt
  | [], _ :: _ => Gt
  | [], [] => Eq
  | x, y => compare_identifiers x y
  end.

Definition compareMain (a b : version) : comparison :=
  match (major a ?= major b)%N with
  | Eq => match (minor a ?= minor b)%N with
          | Eq => (patch a ?= patch b)%N
          | c => c
          end
  | c => c
  end.

Definition compare (a b : version) : comparison :=
  match compareMain a b with
  | Eq => comparePre a b
  | c => c
  end.

Definition gte (a b : string) : string + bool :=
  match parse a with
  | inl thrown => inl thrown
  | inr x =>
      match parse b with
      | inl thrown => inl thrown
      | inr y => inr (match compare x y with Lt => false | _ => true end)
      end
  end.

End Semver.

(** ** A machine to run the engine on

    A world that does not change: the specifiers the local loader finds,
    what the two commands print, the specifiers that can be loaded from an
    install directory.  A module is known by the place it was loaded from. *)
Module Machine.

Record World : Type := {
  installed : list string;
  npx_version : string + exec_result;
  npx_install : string + exec_result;
  installable : list string;
  cwd : string;
  env : ProcessEnv
}.

Definition member (s : string) (l : list string) : bool := existsb (String.eqb s) l.

(** Modelled from the spec: the module loader [_import] and the resolver
    [_resolve] of [utils.js], which is not among the sources; the spec has
    them as [import(specifierString) -> module | throws] and
    [resolve(specifierString) -> absoluteFilePath | throws]. *)
Definition load (w : World) (specifier : string) : string + string :=
  if member specifier (installed w) then inr ("./node_modules/" +:+ specifier)
  else inl ("Cannot find package '" +:+ specifier +:+ "'").

(** Modelled from the spec: [_importRelative] of [utils.js], the variant of
    the loader relative to a directory. *)
Definition load_from (w : World) (dir specifier : string) : string + string :=
  if member specifier (installable w) then inr (dir +:+ "/" +:+ specifier)
  else inl ("Cannot find module '" +:+ dir +:+ "/" +:+ specifier +:+ "'").

(** Modelled from the spec: [_resolveRelative] of [utils.js], the variant of
    the resolver relative to a directory; it throws when it is given
    something else than a directory. *)
Definition locate_from (w : World) (dir : cachedDir) (specifier : string)
  : string + string :=
  match dir with
  | Directory d => load_from w d specifier
  | PrototypeMember _ => inl "The path argument must be of type string"
  end.

(** [execaCommand]: the version query, or the installation. *)
Definition run_command (w : World) (command : string) : string + exec_result :=
  if String.eqb command "npx --version" then npx_version w else npx_install w.

Definition collaborators : Collaborators World string := {|
  parse := ParsePackageName.parse;
  validateNpmName := ValidateNpmName.validate;
  semver_gte := Semver.gte;
  path_resolve := fun w from to => PosixPath.resolve (cwd w) [from; to];
  process_env := env;
  _import := fun specifier w => (load w specifier, w);
  _importRelative := fun dir specifier w => (load_from w dir specifier, w);
  _resolve := fun specifier w => (load w specifier, w);
  _resolveRelative := fun dir specifier w => (locate_from w dir specifier, w);
  execaCommand := fun command _ w => (run_command w command, w)
|}.

Definition printed (out : string) : string + exec_result :=
  inr {| failed := false; stdout := out |}.

(** A process started by pnpm, with npm 8.1.2, whose npx cache is under
    [/Users/glen/.npm/_npx/]. *)
Definition host (installed installable : list string) : World := {|
  installed := installed;
  npx_version := printed "8.1.2";
  npx_install :=
    printed "/Users/glen/.npm/_npx/0123456789ab/node_modules/.bin:/usr/local/bin:/usr/bin:/bin";
  installable := installable;
  cwd := "/project";
  env := {| npm_config_user_agent := Some "pnpm/7.1.0 npm/? node/v16.14.0 darwin arm64";
            npm_execpath := None;
            mainModule_path := None |}
|}.

(** The state of a process that has not called [npxImport] yet. *)
Definition fresh (w : World) : state World :=
  {| world := w; INSTALL_CACHE := JsObject.empty; trace := [] |}.

Definition npx_bin : string := "/Users/glen/.npm/_npx/0123456789ab/node_modules/.bin".
Definition npx_dir : string := "/Users/glen/.npm/_npx/0123456789ab/node_modules".

(** The object made for a specifier that is not installed. *)
Definition absent (name version path : string) : Package string :=
  {| name := name; packageWithPath := name +:+ path; version := version;
     path := path; imported := NOT_IMPORTABLE; local := false |}.

(** A host on which the install command prints [out]. *)
Definition printing (out : string) : World := {|
  installed := []; npx_version := printed "8.1.2"; npx_install := printed out;
  installable := ["left-pad"]; cwd := "/project"; env := env (host [] [])
|}.


(** The second of three segments is the one of npx; and a search path
    with no such segment. *)

End Machine.

(** ** The vocabulary of the statements *)

Section Vocabulary.

Context {World JsModule : Type} (C : Collaborators World JsModule).

(** The state [s] after the events [tr]. *)
Definition after (s : state World) (w : World) (tr : list event) : state World :=
  {| world := w; INSTALL_CACHE := INSTALL_CACHE s; trace := trace s ++ tr |}.

(** The specifier [q] passes [parseAndValidate], with this name, version
    and path. *)
Definition accepts (q n v pa : string) : Prop :=
  forall s0 : state World, fst (parseAndValidate C q s0) = Ok (n, v, pa).

(** The specifier [q] is refused by [parseAndValidate], with this error. *)
Definition rejects (q : string) (e : error) : Prop :=
  forall s0 : state World, fst (parseAndValidate C q s0) = Err e.

(** The object [checkPackagesAvailableLocally] makes for the specifier [q]. *)
Definition built (q : string) (o : Package JsModule) : Prop :=
  accepts q (name o) (version o) (path o)
  /\ packageWithPath o = name o +:+ path o
  /\ local o = negb (is_NOT_IMPORTABLE (imported o)).

(** The record [packages] holds each object under its name, in the order
    the objects were made; names are distinct and none is inherited from
    [Object.prototype]. *)
Definition linked (t : @table JsModule) : Prop :=
  packages t = combine (map name (objects t)) (seq 0 (length (objects t)))
  /\ NoDup (map name (objects t))
  /\ Forall (fun o => JsObject.inherited (name o) = false) (objects t).

(** The cache after the packages at [addresses] were written as installed
    at [installDir]. *)
Definition written (installDir : string) (objs : list (Package JsModule))
    (addresses : list nat) (cache : JsObject.t outcome) : JsObject.t outcome :=
  fold_left (fun c a => JsObject.set c (name (objs !!! a)) (InstalledAt installDir))
    addresses cache.

(** Two tables with the same record and the same objects but for what was
    imported. *)
Definition same_identity (t t' : @table JsModule) : Prop :=
  packages t' = packages t
  /\ map name (objects t') = map name (objects t)
  /\ map packageWithPath (objects t') = map packageWithPath (objects t)
  /\ map version (objects t') = map version (objects t)
  /\ map path (objects t') = map path (objects t).

(** Two specifiers that pass validation with the same name and the same
    path: they differ by the version or tag at most. *)
Definition same_target (q1 q2 : string) : Prop :=
  exists n v1 v2 pa, accepts q1 n v1 pa /\ accepts q2 n v2 pa.

(** Two Package objects that agree on all but [version]. *)
Definition same_probe (o1 o2 : Package JsModule) : Prop :=
  name o1 = name o2 /\ packageWithPath o1 = packageWithPath o2
  /\ path o1 = path o2 /\ imported o1 = imported o2 /\ local o1 = local o2.

(** The outcomes of two runs of [checkPackagesAvailableLocally] agree. *)
Definition same_outcome (r1 r2 : result (@table JsModule)) : Prop :=
  match r1, r2 with
  | Ok t1, Ok t2 =>
      packages t1 = packages t2 /\ Forall2 same_probe (objects t1) (objects t2)
  | Err (DuplicatePackageRequest _ n1), Err (DuplicatePackageRequest _ n2) => n1 = n2
  | _, _ => False
  end.

(** The cache after the packages at [addresses] were written as installed
    locally. *)
Definition recorded (objs : list (Package JsModule))
    (addresses : list nat) (cache : JsObject.t outcome) : JsObject.t outcome :=
  fold_left (fun c a => JsObject.set c (name (objs !!! a)) INSTALLED_LOCALLY)
    addresses cache.

(** The cache [c'] owns every name the cache [c] owns. *)
Definition keeps (c c' : JsObject.t outcome) : Prop :=
  forall k, JsObject.own c k <> None -> JsObject.own c' k <> None.

(** What a call to a resolver comes to: the path, or the error thrown. *)
Definition settled {A} (x : string + A) : result A :=
  match x with
  | inl thrown => Err (Thrown thrown)
  | inr a => Ok a
  end.

(** Two states that differ by the cache at most. *)
Definition same_but_cache (s s' : state World) : Prop :=
  world s = world s' /\ trace s = trace s'.

(** A computation whose outcome, calls and effects on the world do not
    depend on the cache. *)
Definition cache_blind {A} (m : M World A) : Prop :=
  forall s s', same_but_cache s s' ->
    fst (m s) = fst (m s') /\ same_but_cache (snd (m s)) (snd (m s')).



End Vocabulary.

(** * Facts about strings *)

#[local] Arguments String.append !s1 s2 : simpl nomatch.

Module StrFacts.
Import Str.

Lemma append_assoc (a b c : string) : (a +:+ b) +:+ c = a +:+ (b +:+ c).
Proof. induction a as [|x a IH]; simpl; [reflexivity | now rewrite IH]. Qed.

Lemma append_empty_r (a : string) : a +:+ EmptyString = a.
Proof. induction a as [|x a IH]; simpl; [reflexivity | now rewrite IH]. Qed.

Lemma prefix_spec (p s : string) :
  String.prefix p s = true <-> exists rest, s = p +:+ rest.
Proof.
  revert p; induction s as [|c s IH]; intros [|d p]; simpl.
  - split; [exists EmptyString; reflexivity | reflexivity].
  - split; [discriminate | intros [r Hr]; discriminate].
  - split; [eexists; reflexivity | reflexivity].
  - destruct (ascii_dec d c) as [->|Hne].
    + rewrite IH. split; intros [r Hr]; exists r; congruence.
    + split; [discriminate | intros [r Hr]; congruence].
Qed.

Lemma Contains_refl (s : string) : Contains s s.
Proof. exists EmptyString, EmptyString. now rewrite append_empty_r. Qed.

Lemma Contains_prepend (sub s x : string) : Contains sub s -> Contains sub (x +:+ s).
Proof.
  intros (a & b & ->). exists (x +:+ a), b. now rewrite append_assoc.
Qed.

Lemma Contains_append (sub s x : string) : Contains sub s -> Contains sub (s +:+ x).
Proof.
  intros (a & b & ->). exists a, (b +:+ x). now rewrite !append_assoc.
Qed.

Lemma includes_unfold (needle hay : string) :
  includes needle hay =
  if String.prefix needle hay then true
  else match hay with
       | EmptyString => false
       | String _ rest => includes needle rest
       end.
Proof. destruct hay; reflexivity. Qed.

Lemma includes_spec (needle hay : string) :
  includes needle hay = true <-> Contains needle hay.
Proof.
  induction hay as [|c hay IH]; rewrite includes_unfold;
    destruct (String.prefix needle _) eqn:E.
  - split; [intros _ | reflexivity].
    apply prefix_spec in E as [r Hr]. exists EmptyString, r. exact Hr.
  - split; [discriminate |].
    intros (a & b & H). destruct a; [|discriminate]. simpl in H.
    assert (String.prefix needle EmptyString = true) by (apply prefix_spec; eauto).
    congruence.
  - split; [intros _ | reflexivity].
    apply prefix_spec in E as [r Hr]. exists EmptyString, r. exact Hr.
  - rewrite IH. split.
    + intros (a & b & ->). exists (String c a), b. reflexivity.
    + intros (a & b & H). destruct a as [|x a]; simpl in H.
      * assert (String.prefix needle (String c hay) = true)
          by (apply prefix_spec; eauto).
        congruence.
      * injection H as _ ->. exists a, b. reflexivity.
Qed.

Lemma endsWith_unfold (s suffix : string) :
  endsWith s suffix =
  if String.eqb s suffix then true
  else match s with
       | EmptyString => false
       | String _ rest => endsWith rest suffix
       end.
Proof. destruct s; reflexivity. Qed.

Lemma endsWith_spec (s suffix : string) :
  endsWith s suffix = true <-> exists before, s = before +:+ suffix.
Proof.
  induction s as [|c s IH]; rewrite endsWith_unfold;
    match goal with |- context [String.eqb ?x suffix] =>
      destruct (String.eqb_spec x suffix) as [<-|Hne] end.
  - split; [exists EmptyString; reflexivity | reflexivity].
  - split; [discriminate |]. intros [b Hb]. destruct b; simpl in Hb; congruence.
  - split; [exists EmptyString; reflexivity | reflexivity].
  - rewrite IH. split.
    + intros [b ->]. exists (String c b). reflexivity.
    + intros [b Hb]. destruct b as [|x b]; simpl in Hb; [congruence|].
      injection Hb as _ ->. eauto.
Qed.

Lemma any_char_spec (f : ascii -> bool) (s : string) :
  any_char f s = true <->
  exists c, f c = true /\ Contains (String c EmptyString) s.
Proof.
  induction s as [|x s IH]; simpl.
  - split; [discriminate |]. intros (c & _ & a & b & H). destruct a; discriminate.
  - rewrite orb_true_iff, IH. split.
    + intros [Hx | (c & Hc & a & b & ->)].
      * exists x. split; [exact Hx |]. exists EmptyString, s. reflexivity.
      * exists c. split; [exact Hc |]. exists (String x a), b. reflexivity.
    + intros (c & Hc & a & b & H). destruct a as [|y a]; simpl in H.
      * injection H as -> _. now left.
      * injection H as _ ->. right. exists c. split; [exact Hc |]. now exists a, b.
Qed.

(** Every element of a joined list occurs in the result. *)
Lemma join_Contains (sep x : string) (l : list string) :
  In x l -> Contains x (join sep l).
Proof.
  unfold join. induction l as [|y l IH]; [intros [] |].
  intros [-> | Hin].
  - destruct l; simpl; [apply Contains_refl | apply Contains_append, Contains_refl].
  - destruct l as [|z l]; [destruct Hin |].
    change (String.concat sep (y :: z :: l))
      with (y +:+ sep +:+ String.concat sep (z :: l)).
    now apply Contains_prepend, Contains_prepend, IH.
Qed.

End StrFacts.

(** * Facts about traces *)

Lemma probes_app (a b : list event) : probes (a ++ b) = probes a ++ probes b.
Proof.
  induction a as [|ev a IH]; [reflexivity |].
  destruct ev; simpl; rewrite ?IH; reflexivity.
Qed.

Lemma relative_imports_app (a b : list event) :
  relative_imports (a ++ b) = relative_imports a ++ relative_imports b.
Proof.
  induction a as [|ev a IH]; [reflexivity |].
  destruct ev; simpl; rewrite ?IH; reflexivity.
Qed.

Lemma commands_app (a b : list event) : commands (a ++ b) = commands a ++ commands b.
Proof.
  induction a as [|ev a IH]; [reflexivity |].
  destruct ev; simpl; rewrite ?IH; reflexivity.
Qed.

Section Steps.

Context {World JsModule : Type} (C : Collaborators World JsModule).

(** [parseAndValidate] reads nothing of the state, and only adds the calls
    to the parser and the validator to the trace. *)
Lemma parseAndValidate_run (p : string) (s : state World) :
  exists r tr,
    parseAndValidate C p s = (r, after s (world s) tr)
    /\ probes tr = [] /\ relative_imports tr = [] /\ commands tr = []
    /\ forall s0, fst (parseAndValidate C p s0) = r.
Proof.
  unfold parseAndValidate.
  destruct (relative p).
  { exists (Err (InvalidSpecifier p)), []. unfold throw, after.
    rewrite app_nil_r. destruct s; simpl. repeat split. }
  unfold bind, call_pure, call, throw, ret. simpl.
  destruct (parse C p) as [msg | [[n v] pa]].
  { exists (Err (Thrown msg)), [EvParse p]. repeat split. }
  simpl. rewrite <- app_assoc. simpl.
  destruct (validForNewPackages (validateNpmName C n)); simpl.
  - exists (Ok (n, v, pa)), [EvParse p; EvValidateNpmName n]. repeat split.
  - destruct (core_module_warning (validateNpmName C n)).
    + exists (Err (CoreModuleNotImportable n p)), [EvParse p; EvValidateNpmName n].
      repeat split.
    + exists (Err (InvalidPackageName n p)), [EvParse p; EvValidateNpmName n].
      repeat split.
Qed.

(** A probe never fails: it asks the loader once and keeps what it got. *)
Lemma tryImport_run (x : string) (s : state World) :
  tryImport C x s =
  (Ok (match fst (_import C x (world s)) with
       | inl _ => NOT_IMPORTABLE
       | inr m => Loaded m
       end),
   after s (snd (_import C x (world s))) [EvImport x]).
Proof.
  unfold tryImport, try_catch, bind, call, ret, after.
  destruct (_import C x (world s)) as [[msg | m] w]; reflexivity.
Qed.

End Steps.

(** * Facts about objects used as records *)

Module JsObjectFacts.
Import JsObject.

Lemma own_app {V} (o : t V) (k : string) (v : V) (k' : string) :
  own (o ++ [(k, v)]) k' =
  match own o k' with
  | Some x => Some x
  | None => if String.eqb k' k then Some v else None
  end.
Proof.
  induction o as [|[k0 v0] o IH]; simpl; [reflexivity |].
  destruct (String.eqb k' k0); [reflexivity | exact IH].
Qed.

Lemma own_In {V} (o : t V) (k : string) (v : V) :
  own o k = Some v -> In (k, v) o.
Proof.
  induction o as [|[k0 v0] o IH]; simpl; [discriminate |].
  destruct (String.eqb_spec k k0) as [->|Hne].
  - intros [= ->]. now left.
  - intros H. right. now apply IH.
Qed.

Lemma own_None {V} (o : t V) (k : string) :
  own o k = None <-> ~ In k (map fst o).
Proof.
  induction o as [|[k0 v0] o IH]; simpl; [tauto |].
  destruct (String.eqb_spec k k0) as [->|Hne].
  - split; [discriminate | intros H; exfalso; apply H; now left].
  - rewrite IH. split; [intros H [E | Hin]; [congruence | contradiction] | tauto].
Qed.

Lemma not_inherited_not_proto (k : string) :
  inherited k = false -> String.eqb k "__proto__" = false.
Proof.
  intros H. destruct (String.eqb_spec k "__proto__") as [->|]; [|reflexivity].
  discriminate H.
Qed.

(** Assigning under a name that read as undefined adds a property at the
    end. *)
Lemma set_fresh {V} (o : t V) (k : string) (v : V) :
  own o k = None -> inherited k = false -> set o k v = o ++ [(k, v)].
Proof.
  intros Hown Hinh. unfold set. rewrite (not_inherited_not_proto k Hinh), Hown.
  reflexivity.
Qed.

Lemma own_replace {V} (o : t V) (k : string) (v : V) (k' : string) :
  own (replace o k v) k' =
  if String.eqb k' k then match own o k with Some _ => Some v | None => None end
  else own o k'.
Proof.
  induction o as [|[k0 v0] o IH]; simpl.
  - now destruct (String.eqb k' k).
  - destruct (String.eqb_spec k k0) as [->|Hne]; simpl.
    + destruct (String.eqb_spec k' k0); reflexivity.
    + destruct (String.eqb_spec k' k0) as [->|Hne'].
      * destruct (String.eqb_spec k0 k); [congruence | reflexivity].
      * exact IH.
Qed.

(** What a read of own properties finds after an assignment. *)
Lemma own_set {V} (o : t V) (k : string) (v : V) (k' : string) :
  String.eqb k "__proto__" = false ->
  own (set o k v) k' = if String.eqb k' k then Some v else own o k'.
Proof.
  intros Hk. unfold set. rewrite Hk.
  destruct (own o k) eqn:E.
  - rewrite own_replace, E. reflexivity.
  - rewrite own_app. destruct (String.eqb_spec k' k) as [->|Hne].
    + now rewrite E.
    + now destruct (own o k').
Qed.

Lemma In_insert_by_index {V} (e x : N * V) (l : list (N * V)) :
  In x (insert_by_index e l) <-> x = e \/ In x l.
Proof.
  induction l as [|y l IH]; simpl; [intuition |].
  destruct (fst e <? fst y)%N; simpl; [intuition | rewrite IH; intuition].
Qed.

Lemma In_indexed {V} (o : t V) (n : N) (v : V) :
  In (n, v) (indexed o) -> In v (map snd o).
Proof.
  induction o as [|[k0 v0] o IH]; simpl; [tauto |].
  destruct (array_index k0).
  - rewrite In_insert_by_index. intros [[= _ ->] | H]; [now left | right; auto].
  - intros H; right; auto.
Qed.

Lemma In_named {V} (o : t V) (v : V) : In v (named o) -> In v (map snd o).
Proof.
  induction o as [|[k0 v0] o IH]; simpl; [tauto |].
  destruct (array_index k0); simpl; [intros H; right; auto |].
  intros [-> | H]; [now left | right; auto].
Qed.

(** [Object.values] lists values of the object, whatever the order. *)
Lemma In_values {V} (o : t V) (v : V) : In v (values o) -> In v (map snd o).
Proof.
  unfold values. rewrite in_app_iff, in_map_iff.
  intros [([n v'] & <- & H) | H]; [eapply In_indexed; exact H | now apply In_named].
Qed.

(** With no array index among the keys, [Object.values] follows the
    creation order. *)
Lemma values_creation_order {V} (o : t V) :
  Forall (fun k => array_index k = None) (map fst o) -> values o = map snd o.
Proof.
  unfold values. induction o as [|[k0 v0] o IH]; [reflexivity |].
  intros H. inversion H as [|? ? Hk Ho]; subst. simpl in *.
  rewrite Hk. simpl. specialize (IH Ho).
  assert (Hnone : indexed o = []).
  { clear IH. induction o as [|[k1 v1] o IHo]; [reflexivity |].
    inversion Ho as [|? ? Hk1 Ho']; subst. simpl in *. rewrite Hk1. auto. }
  rewrite Hnone in *. simpl in *. now rewrite IH.
Qed.

End JsObjectFacts.

Section Probing.

Context {World JsModule : Type} (C : Collaborators World JsModule).

Lemma linked_empty :
  @linked JsModule {| objects := []; packages := JsObject.empty |}.
Proof. repeat split; constructor. Qed.

Lemma map_fst_combine {A B} (a : list A) (b : list B) :
  length a = length b -> map fst (combine a b) = a.
Proof.
  revert b; induction a as [|x a IH]; intros [|y b]; simpl; try discriminate.
  - reflexivity.
  - intros [= H]. now rewrite IH.
Qed.

Lemma map_snd_combine {A B} (a : list A) (b : list B) :
  length a = length b -> map snd (combine a b) = b.
Proof.
  revert b; induction a as [|x a IH]; intros [|y b]; simpl; try discriminate.
  - reflexivity.
  - intros [= H]. now rewrite IH.
Qed.

Lemma combine_snoc {A B} (a : list A) (b : list B) (x : A) (y : B) :
  length a = length b -> combine (a ++ [x]) (b ++ [y]) = combine a b ++ [(x, y)].
Proof.
  revert b; induction a as [|x0 a IH]; intros [|y0 b]; simpl; try discriminate.
  - reflexivity.
  - intros [= H]. now rewrite IH.
Qed.

Lemma linked_keys (t : @table JsModule) :
  linked t -> map fst (packages t) = map name (objects t).
Proof.
  intros (-> & _ & _). apply map_fst_combine. now rewrite length_map, length_seq.
Qed.

Lemma linked_addresses (t : @table JsModule) :
  linked t -> map snd (packages t) = seq 0 (length (objects t)).
Proof.
  intros (-> & _ & _). apply map_snd_combine. now rewrite length_map, length_seq.
Qed.

Lemma seen_spec (t : @table JsModule) (n : string) :
  linked t ->
  seen t n = true <-> In n (map name (objects t)) \/ JsObject.inherited n = true.
Proof.
  intros Hl. unfold seen, JsObject.get.
  destruct (JsObject.own (packages t) n) eqn:E.
  - split; [intros _ | reflexivity]. left. rewrite <- (linked_keys t Hl).
    apply in_map_iff. exists (n, n0). split; [reflexivity |].
    now apply JsObjectFacts.own_In.
  - apply JsObjectFacts.own_None in E. rewrite (linked_keys t Hl) in E.
    destruct (JsObject.inherited n); split; auto; intros [H | H]; [contradiction | discriminate].
Qed.


Lemma linked_grow (t : @table JsModule) (o : Package JsModule) :
  linked t -> seen t (name o) = false ->
  linked {| objects := objects t ++ [o];
            packages := JsObject.set (packages t) (name o) (length (objects t)) |}.
Proof.
  intros Hl Hseen.
  assert (Hfresh : ~ In (name o) (map name (objects t))
                   /\ JsObject.inherited (name o) = false).
  { destruct (JsObject.inherited (name o)) eqn:Ei.
    - assert (seen t (name o) = true) by (apply seen_spec; auto). congruence.
    - split; [|reflexivity]. intros Hin.
      assert (seen t (name o) = true) by (apply seen_spec; auto). congruence. }
  destruct Hfresh as [Hnew Hinh].
  assert (Hown : JsObject.own (packages t) (name o) = None).
  { apply JsObjectFacts.own_None. now rewrite (linked_keys t Hl). }
  destruct Hl as (Hp & Hnd & Hall). unfold linked; simpl. repeat split.
  - rewrite (JsObjectFacts.set_fresh _ _ _ Hown Hinh), Hp.
    rewrite map_app, length_app, Nat.add_1_r, seq_S. simpl.
    rewrite combine_snoc; [reflexivity |]. now rewrite length_map, length_seq.
  - rewrite map_app. simpl. apply NoDup_app. split; [exact Hnd |]. split.
    + intros x Hx Hx'. apply list_elem_of_In in Hx. apply list_elem_of_In in Hx'.
      destruct Hx' as [<- | []]. contradiction.
    + apply NoDup_singleton.
  - apply Forall_app. split; [exact Hall | now constructor].
Qed.

(** What [checkPackagesAvailableLocally] comes to, from any table: either
    one object per specifier, each probed once and in order, or the
    specifiers before the first refused one probed and no other. *)
Lemma probe_each_run (ps : list string) :
  forall (t : @table JsModule) (s : state World), linked t ->
  exists r s',
    probe_each C ps t s = (r, s')
    /\ INSTALL_CACHE s' = INSTALL_CACHE s
    /\ commands (trace s') = commands (trace s)
    /\ relative_imports (trace s') = relative_imports (trace s)
    /\ match r with
       | Ok t' =>
           exists new,
             objects t' = objects t ++ new /\ Forall2 (built C) ps new /\ linked t'
             /\ probes (trace s') = probes (trace s) ++ map packageWithPath new
       | Err e =>
           exists before new p rest,
             ps = before ++ p :: rest /\ Forall2 (built C) before new
             /\ probes (trace s') = probes (trace s) ++ map packageWithPath new
             /\ (rejects C p e
                 \/ exists n v pa,
                      accepts C p n v pa /\ e = DuplicatePackageRequest p n
                      /\ (In n (map name (objects t ++ new))
                          \/ JsObject.inherited n = true))
       end.
Proof.
  induction ps as [|p ps IH]; intros t s Hl.
  { exists (Ok t), s. repeat split. exists []. rewrite !app_nil_r.
    repeat split; try apply Hl. constructor. }
  destruct (parseAndValidate_run C p s) as (r0 & tr & Hrun & Hp & Hr & Hc & Hfst).
  cbn [probe_each]. unfold bind at 1. rewrite Hrun.
  destruct r0 as [[[n v] pa] | e].
  2:{ exists (Err e), (after s (world s) tr). unfold after; simpl.
      rewrite commands_app, relative_imports_app, probes_app, Hc, Hr, Hp, !app_nil_r.
      repeat split. exists [], [], p, ps.
      repeat split; [constructor | simpl; now rewrite app_nil_r | now left]. }
  destruct (seen t n) eqn:Eseen.
  { exists (Err (DuplicatePackageRequest p n)), (after s (world s) tr).
    unfold throw, after; simpl.
    rewrite commands_app, relative_imports_app, probes_app, Hc, Hr, Hp, !app_nil_r.
    repeat split. exists [], [], p, ps.
    repeat split; [constructor | simpl; now rewrite app_nil_r |].
    right. exists n, v, pa. repeat split; [exact Hfst |].
    rewrite app_nil_r. now apply seen_spec. }
  unfold bind at 1. rewrite tryImport_run.
  set (i := match fst (_import C (n +:+ pa) (world (after s (world s) tr))) with
            | inl _ => NOT_IMPORTABLE
            | inr m => Loaded m
            end).
  set (o := {| name := n; packageWithPath := n +:+ pa; version := v; path := pa;
               imported := i; local := negb (is_NOT_IMPORTABLE i) |}).
  set (s2 := after (after s (world s) tr) _ [EvImport (n +:+ pa)]).
  assert (Hl2 : linked {| objects := objects t ++ [o];
                          packages := JsObject.set (packages t) n (length (objects t)) |})
    by (apply (linked_grow t o Hl Eseen)).
  assert (Hbuilt : built C p o) by (repeat split; exact Hfst).
  destruct (IH _ s2 Hl2) as (r & s' & Hrest & Hcache & Hcmd & Hrel & Hshape).
  exists r, s'. rewrite Hrest, Hcache, Hcmd, Hrel. unfold s2, after; simpl.
  rewrite !commands_app, !relative_imports_app, Hc, Hr, !app_nil_r.
  repeat split. destruct r as [t' | e].
  - destruct Hshape as (new & Hobj & Hall & Hl' & Hprobes).
    exists (o :: new). simpl in Hobj. rewrite <- app_assoc in Hobj.
    repeat split; try apply Hl'; [exact Hobj | now constructor |].
    rewrite Hprobes. unfold s2, after; simpl.
    rewrite !probes_app, Hp, app_nil_r, <- app_assoc. reflexivity.
  - destruct Hshape as (before & new & q & rest & -> & Hall & Hprobes & Hwhy).
    exists (p :: before), (o :: new), q, rest. simpl in Hwhy.
    rewrite <- app_assoc in Hwhy. repeat split; [now constructor | | exact Hwhy].
    rewrite Hprobes. unfold s2, after; simpl.
    rewrite !probes_app, Hp, app_nil_r, <- app_assoc. reflexivity.
Qed.

End Probing.

(** * The steps of the install phase *)

Section Heap.

Context {JsModule : Type}.

(** What is read at an address depends on the list position by position. *)
Lemma lookup_total_map {B} (f : Package JsModule -> B)
    (l1 l2 : list (Package JsModule)) (a : nat) :
  map f l1 = map f l2 -> f (l1 !!! a) = f (l2 !!! a).
Proof.
  revert l2 a; induction l1 as [|x l1 IH]; intros [|y l2] a; simpl;
    try discriminate; [reflexivity |].
  intros [= Hxy Hrest]. destruct a as [|a]; [exact Hxy |].
  change (f (l1 !!! a) = f (l2 !!! a)). now apply IH.
Qed.

(** An assignment to [imported] changes no other field of any object. *)
Lemma map_set_imported {B} (f : Package JsModule -> B)
    (l : list (Package JsModule)) (i : nat) (v : importable JsModule) :
  (forall o, f (set_imported v o) = f o) ->
  map f (<[i := set_imported v (l !!! i)]> l) = map f l.
Proof.
  intros Hf. revert i; induction l as [|x l IH]; intros i; [reflexivity |].
  destruct i as [|i]; simpl.
  - now rewrite Hf.
  - f_equal. apply IH.
Qed.

End Heap.

Section InstallSteps.

Context {World JsModule : Type} (C : Collaborators World JsModule).

Lemma same_identity_refl (t : @table JsModule) : same_identity t t.
Proof. repeat split. Qed.

Lemma same_identity_trans (t1 t2 t3 : @table JsModule) :
  same_identity t1 t2 -> same_identity t2 t3 -> same_identity t1 t3.
Proof.
  intros (A1 & A2 & A3 & A4 & A5) (B1 & B2 & B3 & B4 & B5).
  repeat split; congruence.
Qed.

Lemma written_identity (installDir : string) (l1 l2 : list (Package JsModule))
    (addresses : list nat) (cache : JsObject.t outcome) :
  map name l1 = map name l2 ->
  written installDir l1 addresses cache = written installDir l2 addresses cache.
Proof.
  intros H. unfold written. revert cache.
  induction addresses as [|a l IH]; intros cache; [reflexivity |].
  simpl. rewrite (lookup_total_map name l1 l2 a H). apply IH.
Qed.

Lemma checkNpxVersion_run (s : state World) :
  exists r s',
    checkNpxVersion C s = (r, s')
    /\ INSTALL_CACHE s' = INSTALL_CACHE s
    /\ probes (trace s') = probes (trace s)
    /\ relative_imports (trace s') = relative_imports (trace s).
Proof.
  unfold checkNpxVersion, bind, call_pure, call, throw, ret. simpl.
  destruct (execaCommand C _ false (world s)) as [[msg | r] w]; simpl.
  { eexists _, _. split; [reflexivity |]. simpl.
    now rewrite probes_app, relative_imports_app, !app_nil_r. }
  destruct (failed r); simpl.
  { eexists _, _. split; [reflexivity |]. simpl.
    now rewrite probes_app, relative_imports_app, !app_nil_r. }
  destruct (semver_gte C (stdout r) "8.0.0") as [msg | [|]]; simpl;
    eexists _, _; (split; [reflexivity |]); simpl;
    now rewrite !probes_app, !relative_imports_app, !app_nil_r.
Qed.

Lemma installAndReturnDir_run (packages : list (Package JsModule)) (s : state World) :
  exists r s',
    installAndReturnDir C packages s = (r, s')
    /\ INSTALL_CACHE s' = INSTALL_CACHE s
    /\ probes (trace s') = probes (trace s)
    /\ relative_imports (trace s') = relative_imports (trace s)
    /\ forall installDir, r = Ok installDir ->
         Str.endsWith installDir "node_modules" = true.
Proof.
  unfold installAndReturnDir, bind, logger, call, throw, ret, ask.
  cbv zeta. cbn [world INSTALL_CACHE trace].
  destruct (execaCommand C _ true (world s)) as [[msg | r] w].
  { eexists _, _. split; [reflexivity |]. cbn [world INSTALL_CACHE trace].
    rewrite !probes_app, !relative_imports_app. simpl. rewrite !app_nil_r.
    repeat split. discriminate. }
  destruct (failed r).
  { eexists _, _. split; [reflexivity |]. cbn [world INSTALL_CACHE trace].
    rewrite !probes_app, !relative_imports_app. simpl. rewrite !app_nil_r.
    repeat split. discriminate. }
  destruct (truthy _) as [tempPath|].
  2:{ eexists _, _. split; [reflexivity |]. cbn [world INSTALL_CACHE trace].
      rewrite !probes_app, !relative_imports_app. simpl. rewrite !app_nil_r.
      repeat split. discriminate. }
  cbn [world INSTALL_CACHE trace].
  destruct (Str.endsWith (path_resolve C w tempPath "..") "node_modules") eqn:E;
    cbn [negb];
    eexists _, _; (split; [reflexivity |]); cbn [world INSTALL_CACHE trace];
    rewrite !probes_app, !relative_imports_app; simpl; rewrite !app_nil_r;
    repeat split; try discriminate.
  intros installDir [= <-]. exact E.
Qed.

Lemma record_local_run (objs : list (Package JsModule)) (locals : list nat)
    (s : state World) :
  exists s',
    record_local objs locals s = (Ok tt, s')
    /\ world s' = world s /\ trace s' = trace s.
Proof.
  revert s; induction locals as [|a l IH]; intros s.
  - exists s. repeat split.
  - cbn [record_local]. unfold bind, cache_set.
    destruct (IH {| world := world s;
                    INSTALL_CACHE := JsObject.set (INSTALL_CACHE s) (name (objs !!! a))
                                       INSTALLED_LOCALLY;
                    trace := trace s |}) as (s' & H & Hw & Ht).
    exists s'. rewrite H. repeat split; assumption.
Qed.

(** The loop over the missing packages, from any table: the packages
    [visited] were imported from the install directory, in order; the cache
    was written for each of them but the one whose import failed. *)
Lemma import_each_run (installDir : string) (missing : list nat) :
  forall (t : @table JsModule) (s : state World),
  exists r s' visited rest,
    import_each C installDir t missing s = (r, s')
    /\ missing = visited ++ rest
    /\ probes (trace s') = probes (trace s)
    /\ relative_imports (trace s') =
         relative_imports (trace s)
         ++ map (fun a => (installDir, packageWithPath (objects t !!! a))) visited
    /\ match r with
       | Ok t' =>
           rest = [] /\ same_identity t t'
           /\ INSTALL_CACHE s' = written installDir (objects t) missing (INSTALL_CACHE s)
       | Err e =>
           exists done a,
             visited = done ++ [a]
             /\ INSTALL_CACHE s' = written installDir (objects t) done (INSTALL_CACHE s)
       end.
Proof.
  induction missing as [|a missing IH]; intros t s.
  { exists (Ok t), s, [], []. simpl. rewrite !app_nil_r.
    repeat split. }
  cbn [import_each]. unfold bind at 1. unfold call at 1.
  destruct (_importRelative C installDir _ (world s)) as [[msg | m] w].
  { eexists _, _, [a], missing. split; [reflexivity |].
    cbn [world INSTALL_CACHE trace].
    rewrite probes_app, relative_imports_app. simpl. rewrite !app_nil_r.
    repeat split. exists [], a. repeat split. }
  unfold bind at 1.
  set (s1 := {| world := w; INSTALL_CACHE := INSTALL_CACHE s;
                trace := trace s ++ [EvImportRelative installDir
                                       (packageWithPath (objects t !!! a))] |}).
  destruct (JsObject.get (packages t) (name (objects t !!! a))) as [| target | k] eqn:Eget.
  { eexists _, _, [a], missing. unfold throw. split; [reflexivity |].
    unfold s1; cbn [world INSTALL_CACHE trace].
    rewrite probes_app, relative_imports_app. simpl. rewrite !app_nil_r.
    repeat split. exists [], a. repeat split. }
  - (* the object is assigned to *)
    unfold ret at 1. unfold bind at 1. unfold cache_set at 1.
    cbn [world INSTALL_CACHE trace objects packages].
    set (t1 := {| objects := <[target := set_imported (Loaded m) (objects t !!! target)]>
                               (objects t);
                  packages := packages t |}).
    assert (Hid : same_identity t t1).
    { unfold t1. repeat split; cbn [objects packages];
        apply map_set_imported; reflexivity. }
    match goal with |- context [import_each C installDir t1 missing ?s2] =>
      destruct (IH t1 s2) as (r & s' & visited & rest & Hrun & Hsplit & Hp & Hrel & Hshape)
    end.
    exists r, s', (a :: visited), rest. rewrite Hrun. split; [reflexivity |].
    split; [now rewrite Hsplit |]. cbn [world INSTALL_CACHE trace] in *.
    rewrite Hp, Hrel. unfold s1; cbn [world INSTALL_CACHE trace].
    rewrite probes_app, relative_imports_app. simpl. rewrite !app_nil_r.
    destruct Hid as (Hid1 & Hid2 & Hid3 & Hid4 & Hid5).
    split; [reflexivity |]. split.
    { rewrite <- app_assoc. simpl. do 2 f_equal.
      apply map_ext. intros b. f_equal.
      apply (lookup_total_map packageWithPath _ _ b Hid3). }
    destruct r as [t' | e].
    + destruct Hshape as (-> & Hid' & Hcache). split; [reflexivity |].
      split; [eapply same_identity_trans; [| exact Hid']; repeat split; assumption |].
      rewrite Hcache. cbn [written fold_left].
      pose proof (lookup_total_map name _ _ a Hid2) as Hn.
      unfold t1 in Hn; cbn [objects] in Hn. rewrite Hn.
      apply written_identity. exact Hid2.
    + destruct Hshape as (done & b & -> & Hcache). exists (a :: done), b.
      split; [reflexivity |]. rewrite Hcache. cbn [written fold_left].
      pose proof (lookup_total_map name _ _ a Hid2) as Hn.
      unfold t1 in Hn; cbn [objects] in Hn. rewrite Hn.
      apply written_identity. exact Hid2.
  - (* the name is inherited: the table is the same *)
    unfold ret at 1. unfold bind at 1. unfold cache_set at 1.
    cbn [world INSTALL_CACHE trace objects packages].
    match goal with |- context [import_each C installDir t missing ?s2] =>
      destruct (IH t s2) as (r & s' & visited & rest & Hrun & Hsplit & Hp & Hrel & Hshape)
    end.
    exists r, s', (a :: visited), rest. rewrite Hrun. split; [reflexivity |].
    split; [now rewrite Hsplit |]. cbn [world INSTALL_CACHE trace] in *.
    rewrite Hp, Hrel. unfold s1; cbn [world INSTALL_CACHE trace].
    rewrite probes_app, relative_imports_app. simpl. rewrite !app_nil_r.
    split; [reflexivity |]. split; [now rewrite <- app_assoc |].
    destruct r as [t' | e].
    + destruct Hshape as (-> & Hid' & Hcache). repeat split; try apply Hid'.
      exact Hcache.
    + destruct Hshape as (done & b & -> & Hcache). exists (a :: done), b.
      split; [reflexivity | exact Hcache].
Qed.

End InstallSteps.

Section Installer.

Context {World JsModule : Type} (C : Collaborators World JsModule).

(** A segment that matches is not empty, so [!tempPath] is false for it. *)
Lemma truthy_find (paths : list string) :
  truthy (List.find (Str.includes "/.npm/_npx/") paths)
  = List.find (Str.includes "/.npm/_npx/") paths.
Proof.
  destruct (List.find _ paths) as [seg|] eqn:E; [|reflexivity].
  apply List.find_some in E as [_ E]. destruct seg; [discriminate E | reflexivity].
Qed.

Lemma find_first (f : string -> bool) (before : list string) (x : string)
    (rest : list string) :
  (forall seg, In seg before -> f seg = false) -> f x = true ->
  List.find f (before ++ x :: rest) = Some x.
Proof.
  intros Hb Hx. induction before as [|y before IH]; simpl.
  - now rewrite Hx.
  - rewrite (Hb y) by now left. apply IH. intros; apply Hb; now right.
Qed.

Lemma find_none (f : string -> bool) (l : list string) :
  (forall seg, In seg l -> f seg = false) -> List.find f l = None.
Proof.
  intros H. destruct (List.find f l) eqn:E; [|reflexivity].
  apply List.find_some in E as [Hin E]. rewrite (H _ Hin) in E. discriminate.
Qed.

Lemma not_Contains_includes (needle hay : string) :
  ~ Str.Contains needle hay -> Str.includes needle hay = false.
Proof.
  intros H. destruct (Str.includes needle hay) eqn:E; [|reflexivity].
  now apply StrFacts.includes_spec in E.
Qed.

(** [installAndReturnDir] once the command has printed [out]. *)
Lemma installAndReturnDir_printed (packages : list (Package JsModule))
    (s : state World) (r : exec_result) (w : World) :
  execaCommand C (installPackage_of packages +:+ " " +:+ emitPath) true (world s)
    = (inr r, w) ->
  failed r = false ->
  fst (installAndReturnDir C packages s) =
  match List.find (Str.includes "/.npm/_npx/") (Str.split ":" (stdout r)) with
  | None => Err (TempDirNotFound (Str.split ":" (stdout r)))
  | Some tempPath =>
      if Str.endsWith (path_resolve C w tempPath "..") "node_modules"
      then Ok (path_resolve C w tempPath "..")
      else Err (UnexpectedInstallLayout tempPath)
  end.
Proof.
  intros Hrun Hok. unfold installAndReturnDir, bind, logger, call.
  cbv zeta. cbn [world INSTALL_CACHE trace]. rewrite Hrun, Hok, truthy_find.
  destruct (List.find _ _) as [tempPath|]; [|reflexivity].
  simpl. destruct (Str.endsWith _ _); reflexivity.
Qed.

(** The directory that is returned is [path.resolve(tempPath, '..')], and
    it is returned exactly when that string ends with the characters
    [node_modules]. *)
Lemma installAndReturnDir_parent_suffix (packages : list (Package JsModule))
    (s : state World) (r : exec_result) (w : World) (tempPath : string) :
  execaCommand C (installPackage_of packages +:+ " " +:+ emitPath) true (world s)
    = (inr r, w) ->
  failed r = false ->
  List.find (Str.includes "/.npm/_npx/") (Str.split ":" (stdout r)) = Some tempPath ->
  let parent := path_resolve C w tempPath ".." in
  ((exists before, parent = before +:+ "node_modules") ->
     fst (installAndReturnDir C packages s) = Ok parent)
  /\ (~ (exists before, parent = before +:+ "node_modules") ->
     fst (installAndReturnDir C packages s) = Err (UnexpectedInstallLayout tempPath)).
Proof.
  intros Hrun Hok Hfind parent.
  rewrite (installAndReturnDir_printed packages s r w Hrun Hok), Hfind.
  fold parent. destruct (Str.endsWith parent "node_modules") eqn:E.
  - split; [reflexivity |]. intros Hn. apply StrFacts.endsWith_spec in E. contradiction.
  - split; [| reflexivity]. intros Hs. apply StrFacts.endsWith_spec in Hs. congruence.
Qed.

(** C3: after the install command succeeded, its output is split on the
    colon, the path-list separator; the first segment containing
    [/.npm/_npx/] is the one the install directory is computed from, and
    when no segment contains it the call fails with the error whose message
    ends with the JSON array of all the segments. *)
Theorem installAndReturnDir_first_npx_segment
    (packages : list (Package JsModule)) (s : state World)
    (r : exec_result) (w : World) :
  execaCommand C (installPackage_of packages +:+ " " +:+ emitPath) true (world s)
    = (inr r, w) ->
  failed r = false ->
  let paths := Str.split ":" (stdout r) in
  let outcome := fst (installAndReturnDir C packages s) in
  (forall before tempPath rest,
      paths = before ++ tempPath :: rest ->
      (forall seg, In seg before -> ~ Str.Contains "/.npm/_npx/" seg) ->
      Str.Contains "/.npm/_npx/" tempPath ->
      outcome =
        if Str.endsWith (path_resolve C w tempPath "..") "node_modules"
        then Ok (path_resolve C w tempPath "..")
        else Err (UnexpectedInstallLayout tempPath))
  /\ ((forall seg, In seg paths -> ~ Str.Contains "/.npm/_npx/" seg) ->
      outcome = Err (TempDirNotFound paths)
      /\ message (TempDirNotFound paths) =
           "Failed to find temporary install directory. Looking for paths matching '/.npm/_npx/' in:"
           +:+ LF +:+ JSON.stringify paths
      /\ forall seg, In seg paths ->
           Str.Contains (JSON.quote seg) (message (TempDirNotFound paths))).
Proof.
  intros Hrun Hok paths outcome.
  assert (Hout := installAndReturnDir_printed packages s r w Hrun Hok).
  fold paths outcome in Hout. split.
  - intros before tempPath rest Hsplit Hbefore Hhere.
    rewrite Hsplit, (find_first _ before tempPath rest) in Hout.
    + exact Hout.
    + intros seg Hin. now apply not_Contains_includes, Hbefore.
    + now apply StrFacts.includes_spec.
  - intros Hnone. rewrite find_none in Hout.
    + split; [exact Hout |].
      match goal with |- ?m = ?text /\ _ =>
        assert (Hm : m = text) by reflexivity end.
      split; [exact Hm |].
      intros seg Hin. rewrite Hm. unfold JSON.stringify.
      do 3 apply StrFacts.Contains_prepend. apply StrFacts.Contains_append.
      apply StrFacts.join_Contains. now apply in_map.
    + intros seg Hin. now apply not_Contains_includes, Hnone.
Qed.

(** The characters the shell would read. *)
Lemma shell_special_spec (u : string) :
  Str.any_char shell_special u = true <->
  Str.Contains "<" u \/ Str.Contains ">" u \/ Str.Contains "*" u.
Proof.
  rewrite StrFacts.any_char_spec. unfold shell_special. split.
  - intros (c & Hc & Hin).
    rewrite !orb_true_iff in Hc.
    destruct Hc as [[Hc | Hc] | Hc]; apply Ascii.eqb_eq in Hc; subst c; auto.
  - intros [H | [H | H]]; eexists; (split; [|exact H]); reflexivity.
Qed.

(** C6: whatever the list of missing packages, [installAndReturnDir] hands
    exactly one command to the process runner, through the shell: [npx -y],
    then [-p name@version] for each package in the order of the list, then
    the command that prints the search path; [name@version] is put between
    single quotes exactly when one of its characters is [<], [>] or [*]. *)
Theorem installAndReturnDir_one_batch_command
    (packages : list (Package JsModule)) (s : state World) :
  commands (trace (snd (installAndReturnDir C packages s))) =
    commands (trace s)
    ++ [("npx -y " +:+ Str.join " " (map (fun p => "-p " +:+ formatForCLI p) packages)
         +:+ " node -e 'console.log(process.env.PATH)'", true)]
  /\ forall p : Package JsModule,
      let spec := name p +:+ "@" +:+ version p in
      let special :=
        Str.Contains "<" spec \/ Str.Contains ">" spec \/ Str.Contains "*" spec in
      (special -> formatForCLI p = "'" +:+ spec +:+ "'")
      /\ (~ special -> formatForCLI p = spec).
Proof.
  split.
  - unfold installAndReturnDir, bind, logger, call, throw, ret, ask. simpl.
    destruct (execaCommand C _ true (world s)) as [[msg | r] w]; simpl;
      rewrite ?commands_app; simpl; [now rewrite app_nil_r | ].
    destruct (failed r); simpl; rewrite ?commands_app; simpl;
      [now rewrite app_nil_r |].
    destruct (truthy _) as [tempPath|]; simpl; rewrite ?commands_app; simpl;
      [| now rewrite app_nil_r].
    destruct (Str.endsWith _ _); simpl; rewrite ?commands_app; simpl;
      now rewrite ?app_nil_r.
  - intros p spec special. unfold formatForCLI. fold spec.
    destruct (Str.any_char shell_special spec) eqn:E.
    + split; [reflexivity |]. intros Hn. apply shell_special_spec in E. contradiction.
    + split; [| reflexivity]. intros Hs. apply shell_special_spec in Hs. congruence.
Qed.

End Installer.

Section Orchestrator.

Context {World JsModule : Type} (C : Collaborators World JsModule).

(** C10: given the empty array, [npxImport] returns the empty array and
    leaves the state as it found it: the trace gets no call to the parser or
    the validator, no probe, no command (neither the version query nor an
    installation), and the cache is the one of before. *)
Theorem npxImport_empty_array (s : state World) :
  let s' := snd (npxImport C (Many []) s) in
  fst (npxImport C (Many []) s) = Ok (Results [])
  /\ s' = s
  /\ validations (trace s') = validations (trace s)
  /\ probes (trace s') = probes (trace s)
  /\ commands (trace s') = commands (trace s)
  /\ INSTALL_CACHE s' = INSTALL_CACHE s.
Proof. repeat split. Qed.

End Orchestrator.

Section Validation.

Context {World JsModule : Type} (C : Collaborators World JsModule).

Lemma Forall2_In_r {A B} (R : A -> B -> Prop) (l1 : list A) (l2 : list B) (y : B) :
  Forall2 R l1 l2 -> In y l2 -> exists x, In x l1 /\ R x y.
Proof.
  induction 1 as [|x y' l1 l2 HR _ IH]; [intros [] |].
  intros [<- | Hin].
  - exists x. split; [now left | exact HR].
  - destruct (IH Hin) as (x' & Hx' & HR'). exists x'. split; [now right | exact HR'].
Qed.

Lemma Forall2_map_r {A B B'} (R : A -> B' -> Prop) (f : B -> B')
    (l1 : list A) (l2 : list B) :
  Forall2 (fun x y => R x (f y)) l1 l2 -> Forall2 R l1 (map f l2).
Proof. induction 1; simpl; constructor; assumption. Qed.

(** What an accepted specifier went through. *)
Lemma accepts_parse (s : state World) (q n v pa : string) :
  fst (parseAndValidate C q s) = Ok (n, v, pa) ->
  relative q = false /\ parse C q = inr (n, v, pa)
  /\ validForNewPackages (validateNpmName C n) = true.
Proof.
  unfold parseAndValidate. destruct (relative q); [discriminate |].
  unfold bind, call_pure, call, throw, ret. simpl.
  destruct (parse C q) as [msg | [[n' v'] pa']]; [discriminate |]. simpl.
  destruct (validForNewPackages (validateNpmName C n')) eqn:E; simpl.
  - intros [= -> -> ->]. repeat split. exact E.
  - destruct (core_module_warning _); discriminate.
Qed.

(** The errors [parseAndValidate] refuses a specifier with. *)
Lemma rejects_kinds (s : state World) (p : string) (e : error) :
  fst (parseAndValidate C p s) = Err e ->
  e = InvalidSpecifier p
  \/ (exists thrown, parse C p = inl thrown /\ e = Thrown thrown)
  \/ (exists n, e = CoreModuleNotImportable n p)
  \/ (exists n, e = InvalidPackageName n p).
Proof.
  unfold parseAndValidate. destruct (relative p); [intros [= <-]; now left |].
  unfold bind, call_pure, call, throw, ret. simpl.
  destruct (parse C p) as [thrown | [[n v] pa]]; simpl.
  { intros [= <-]. right; left. now exists thrown. }
  destruct (validForNewPackages (validateNpmName C n)); simpl; [discriminate |].
  destruct (core_module_warning _); intros [= <-]; right; right; [left | right];
    now exists n.
Qed.

(** C2, as amended: when a specifier is refused (the four validation
    errors, or an error thrown by the parser), [npxImport] fails with that
    error at the first such specifier; the specifiers before it have each
    been probed, once and in order, with name and path; neither the refused
    specifier nor any later one is probed.  A specifier is refused by
    [parseAndValidate], or because its name was met before in the list or is
    one every object inherits. *)
Theorem rejected_specifier_stops_probing
    (pkg : specifiers) (s : state World) (e : error) (s' : state World) :
  checkPackagesAvailableLocally C pkg s = (Err e, s') ->
  npxImport C pkg s = (Err e, s')
  /\ exists before targets p rest,
      as_list pkg = before ++ p :: rest
      /\ Forall2 (fun q x => exists n v pa, accepts C q n v pa /\ x = n +:+ pa)
           before targets
      /\ probes (trace s') = probes (trace s) ++ targets
      /\ (rejects C p e
          \/ exists n v pa,
               accepts C p n v pa /\ e = DuplicatePackageRequest p n
               /\ ((exists q v' pa', In q before /\ accepts C q n v' pa')
                   \/ JsObject.inherited n = true)).
Proof.
  intros Hcheck. split.
  { unfold npxImport, bind. now rewrite Hcheck. }
  unfold checkPackagesAvailableLocally in Hcheck.
  destruct (probe_each_run C (as_list pkg) _ s linked_empty)
    as (r & s1 & Hrun & _ & _ & _ & Hshape).
  rewrite Hcheck in Hrun. injection Hrun as <- <-.
  destruct Hshape as (before & new & p & rest & Hsplit & Hbuilt & Hprobes & Hwhy).
  exists before, (map packageWithPath new), p, rest.
  split; [exact Hsplit |]. split.
  { apply Forall2_map_r. eapply Forall2_impl; [exact Hbuilt |].
    intros q o (Hacc & Hpwp & _). eauto. }
  split; [exact Hprobes |].
  destruct Hwhy as [Hrej | (n & v & pa & Hacc & -> & Hdup)]; [now left | right].
  exists n, v, pa. repeat split; [exact Hacc |].
  destruct Hdup as [Hin | Hinh]; [left | now right].
  simpl in Hin. apply in_map_iff in Hin as (o & <- & Ho).
  destruct (Forall2_In_r _ _ _ _ Hbuilt Ho) as (q & Hq & Hacc' & _).
  exists q, (version o), (path o). split; assumption.
Qed.

End Validation.

(** C2 as stated fails, validation does not precede all probing: the
    second specifier is a relative path, and the first one has been probed
    by the time it is refused. *)
Lemma probe_precedes_later_validation :
  let run := npxImport Machine.collaborators (Many ["pkg-a"; "./rel"])
               (Machine.fresh (Machine.host ["pkg-a"] [])) in
  fst run = Err (InvalidSpecifier "./rel")
  /\ probes (trace (snd run)) = ["pkg-a"].
Proof. vm_compute. split; reflexivity. Qed.

Section Versions.

Context {World JsModule : Type} (C : Collaborators World JsModule).

Lemma probe_each_same_targets (ps1 ps2 : list string) :
  Forall2 (same_target C) ps1 ps2 ->
  forall (t1 t2 : @table JsModule) (s1 s2 : state World),
    packages t1 = packages t2 ->
    Forall2 same_probe (objects t1) (objects t2) ->
    world s1 = world s2 ->
    probes (trace s1) = probes (trace s2) ->
    let run1 := probe_each C ps1 t1 s1 in
    let run2 := probe_each C ps2 t2 s2 in
    world (snd run1) = world (snd run2)
    /\ probes (trace (snd run1)) = probes (trace (snd run2))
    /\ same_outcome (fst run1) (fst run2).
Proof.
  induction 1 as [|q1 q2 ps1 ps2 (n & v1 & v2 & pa & A1 & A2) _ IH];
    intros t1 t2 s1 s2 Hpk Hobj Hw Hp; cbv zeta.
  { simpl. repeat split; assumption. }
  cbn [probe_each]. unfold bind.
  destruct (parseAndValidate_run C q1 s1) as (r1 & tr1 & R1 & P1 & _ & _ & F1).
  destruct (parseAndValidate_run C q2 s2) as (r2 & tr2 & R2 & P2 & _ & _ & F2).
  rewrite R1, R2. rewrite <- (F1 s1), (A1 s1). rewrite <- (F2 s2), (A2 s2).
  assert (Hseen : seen t1 n = seen t2 n) by (unfold seen; now rewrite Hpk).
  rewrite <- Hseen. destruct (seen t1 n).
  { unfold throw, after; simpl. rewrite !probes_app, P1, P2, !app_nil_r.
    repeat split; assumption. }
  rewrite !tryImport_run.
  cbn [after world INSTALL_CACHE trace]. rewrite <- Hw.
  apply IH; cbn [objects packages after world INSTALL_CACHE trace].
  - rewrite Hpk. f_equal. apply (Forall2_length _ _ _ Hobj).
  - apply Forall2_app; [exact Hobj |]. repeat constructor.
  - reflexivity.
  - rewrite !probes_app, P1, P2, !app_nil_r, Hp. reflexivity.
Qed.

End Versions.

Section Subpaths.

Context {World JsModule : Type} (C : Collaborators World JsModule).

Lemma lookup_total_In (l : list (Package JsModule)) (a : nat) :
  a < length l -> In (l !!! a) l.
Proof.
  revert a; induction l as [|x l IH]; intros a; simpl; [lia |].
  destruct a as [|a]; [now left |]. intros H. right.
  change (In (l !!! a) l). apply IH. lia.
Qed.

(** The addresses [Object.values] gives are addresses of objects. *)
Lemma values_in_range (t : @table JsModule) (a : nat) :
  linked t -> In a (JsObject.values (packages t)) -> a < length (objects t).
Proof.
  intros Hl Hin. apply JsObjectFacts.In_values in Hin.
  rewrite (linked_addresses t Hl) in Hin. apply in_seq in Hin. lia.
Qed.

End Subpaths.

Section Failure.

Context {World JsModule : Type} (C : Collaborators World JsModule).

(** The three places the body of the [try] block can fail at: the version
    gate, the installation, an import from the install directory. *)
Lemma install_phase_failure_origin (t : @table JsModule)
    (missingPackages localPackages : list nat) (s s' : state World) (e : error) :
  install_phase C t missingPackages localPackages s = (Err e, s') ->
  checkNpxVersion C s = (Err e, s')
  \/ (exists s0,
        checkNpxVersion C s = (Ok tt, s0)
        /\ installAndReturnDir C (map (fun a => objects t !!! a) missingPackages) s0
           = (Err e, s'))
  \/ (exists s0 installDir s1,
        checkNpxVersion C s = (Ok tt, s0)
        /\ installAndReturnDir C (map (fun a => objects t !!! a) missingPackages) s0
           = (Ok installDir, s1)
        /\ import_each C installDir t missingPackages s1 = (Err e, s')).
Proof.
  unfold install_phase. unfold bind at 1.
  destruct (checkNpxVersion C s) as [[[] | e0] s0] eqn:E0;
    [| intros [= <- <-]; now left].
  unfold bind at 1.
  destruct (installAndReturnDir C _ s0) as [[installDir | e1] s1] eqn:E1.
  2:{ intros [= <- <-]. right; left. exists s0.
      split; first [reflexivity | assumption]. }
  unfold bind at 1.
  destruct (import_each C installDir t missingPackages s1) as [[t1 | e2] s2] eqn:E2.
  - unfold bind at 1.
    destruct (record_local_run (objects t1) localPackages s2) as (s3 & H3 & _).
    rewrite H3. discriminate.
  - intros [= <- <-]. right; right. exists s0, installDir, s1.
    repeat split; first [reflexivity | assumption].
Qed.




End Failure.

Section PartialCache.

Context {World JsModule : Type} (C : Collaborators World JsModule).

Lemma import_each_app (installDir : string) (l1 l2 : list nat) :
  forall (t : @table JsModule) (s : state World),
    import_each C installDir t (l1 ++ l2) s =
    match import_each C installDir t l1 s with
    | (Ok t', s') => import_each C installDir t' l2 s'
    | (Err e, s') => (Err e, s')
    end.
Proof.
  induction l1 as [|a l1 IH]; intros t s.
  { cbn [import_each app]. unfold ret. reflexivity. }
  cbn [import_each app]. unfold bind, call.
  destruct (_importRelative C installDir _ (world s)) as [[thrown | m] w];
    [reflexivity |].
  destruct (JsObject.get (packages t) (name (objects t !!! a))) as [| target | k];
    unfold throw, ret, cache_set; [reflexivity | apply IH | apply IH].
Qed.

(** What the cache holds under a name after the writes of the first loop. *)
Lemma own_written (installDir : string) (objs : list (Package JsModule))
    (done : list nat) (k : string) :
  (forall a, In a done -> String.eqb (name (objs !!! a)) "__proto__" = false) ->
  forall cache,
    JsObject.own (written installDir objs done cache) k =
    if existsb (fun a => String.eqb k (name (objs !!! a))) done
    then Some (InstalledAt installDir)
    else JsObject.own cache k.
Proof.
  induction done as [|a done IH]; intros Hok cache; [reflexivity |].
  cbn [written fold_left existsb].
  change (fold_left _ done ?c) with (written installDir objs done c).
  rewrite IH by (intros b Hb; apply Hok; now right).
  rewrite JsObjectFacts.own_set by (apply Hok; now left).
  destruct (String.eqb k (name (objs !!! a))); simpl;
    now destruct (existsb _ done).
Qed.

Lemma map_lookup_total {B} (f : Package JsModule -> B)
    (l : list (Package JsModule)) (a : nat) :
  a < length l -> map f l !! a = Some (f (l !!! a)).
Proof.
  revert a; induction l as [|x l IH]; intros a; simpl; [lia |].
  destruct a as [|a]; [reflexivity |]. intros H.
  change (map f l !! a = Some (f (l !!! a))). apply IH. lia.
Qed.

(** Distinct objects of a table have distinct names. *)
Lemma linked_names_apart (t : @table JsModule) (a b : nat) :
  linked t -> a < length (objects t) -> b < length (objects t) ->
  name (objects t !!! a) = name (objects t !!! b) -> a = b.
Proof.
  intros (_ & Hnd & _) Ha Hb Heq.
  apply (NoDup_lookup (map name (objects t)) a b (name (objects t !!! a))); auto.
  - now apply map_lookup_total.
  - rewrite Heq. now apply map_lookup_total.
Qed.

Lemma linked_not_inherited (t : @table JsModule) (a : nat) :
  linked t -> a < length (objects t) ->
  JsObject.inherited (name (objects t !!! a)) = false.
Proof.
  intros (_ & _ & Hall) Ha.
  apply (proj1 (List.Forall_forall _ _) Hall). now apply lookup_total_In.
Qed.

Lemma endsWith_nonempty (dir : string) :
  Str.endsWith dir "node_modules" = true -> String.eqb dir EmptyString = false.
Proof. destruct dir; [discriminate | reflexivity]. Qed.

(** C9: a failed call leaves its first writes in the cache.  The packages
    are all probed, the version gate and the installation succeed, the
    missing packages [done] are imported from the install directory and the
    import of the next one, [a], throws.  Then [npxImport] fails with the
    composite error; the cache is the one of before the call with the
    packages [done] written as installed at the install directory, one
    after the other; nothing was written for the local packages; and
    [npxResolve] for a specifier with the name of a package of [done] goes
    to the resolver of the install directory, returning what it returns. *)
Theorem failed_call_leaves_cache_entries
    (pkg : specifiers) (s s1 s2 s3 : state World) (t t3 : @table JsModule)
    (installDir : string) (done : list nat) (a : nat) (rest : list nat)
    (msg : string) (w4 : World) :
  checkPackagesAvailableLocally C pkg s = (Ok t, s1) ->
  let allPackages := JsObject.values (packages t) in
  let missingPackages :=
    List.filter (fun a => is_NOT_IMPORTABLE (imported (objects t !!! a))) allPackages in
  let localPackages :=
    List.filter (fun a => negb (is_NOT_IMPORTABLE (imported (objects t !!! a))))
      allPackages in
  let missing := map (fun a => objects t !!! a) missingPackages in
  missingPackages = done ++ a :: rest ->
  (logger (not_available missing) ;; checkNpxVersion C ;;
   installAndReturnDir C missing)%js s1 = (Ok installDir, s2) ->
  import_each C installDir t done s2 = (Ok t3, s3) ->
  _importRelative C installDir (packageWithPath (objects t !!! a)) (world s3)
    = (inl msg, w4) ->
  let s4 := {| world := w4; INSTALL_CACHE := INSTALL_CACHE s3;
               trace := trace s3 ++ [EvImportRelative installDir
                                       (packageWithPath (objects t !!! a))] |} in
  npxImport C pkg s = (Err (failure (process_env C w4) missing (Thrown msg)), s4)
  /\ INSTALL_CACHE s4 = written installDir (objects t) done (INSTALL_CACHE s)
  /\ (forall b, In b done ->
        JsObject.own (INSTALL_CACHE s4) (name (objects t !!! b))
        = Some (InstalledAt installDir))
  /\ (forall b, In b localPackages ->
        JsObject.own (INSTALL_CACHE s4) (name (objects t !!! b))
        = JsObject.own (INSTALL_CACHE s) (name (objects t !!! b)))
  /\ (forall b q n v pa, In b done ->
        parse C q = inr (n, v, pa) -> n = name (objects t !!! b) ->
        fst (npxResolve C q s4) =
        match fst (_resolveRelative C (Directory installDir) (n +:+ pa) w4) with
        | inl thrown => Err (Thrown thrown)
        | inr file => Ok file
        end).
Proof.
  intros Hcheck allPackages missingPackages localPackages missing Hsplit Hinstall
    Hdone Hfail s4.
  (* the table that was probed *)
  unfold checkPackagesAvailableLocally in Hcheck.
  destruct (probe_each_run C (as_list pkg) _ s linked_empty)
    as (r & s1' & Hrun & Hcache1 & _ & _ & Hshape).
  rewrite Hcheck in Hrun. injection Hrun as <- <-.
  destruct Hshape as (new & _ & _ & Hl & _).
  (* the gate and the installer *)
  unfold bind at 1 in Hinstall. unfold logger at 1 in Hinstall.
  set (s1a := {| world := world s1; INSTALL_CACHE := INSTALL_CACHE s1;
                 trace := trace s1 ++ [EvLog (not_available missing)] |}) in *.
  unfold bind at 1 in Hinstall.
  destruct (checkNpxVersion_run C s1a) as (r0 & s1b & H0 & Hcache0 & _ & _).
  rewrite H0 in Hinstall. destruct r0 as [[] | e0]; [| discriminate].
  destruct (installAndReturnDir_run C missing s1b) as (r1 & s2' & H1 & Hcache2 & _ & _ & Hends).
  rewrite H1 in Hinstall. injection Hinstall as -> ->.
  specialize (Hends installDir eq_refl).
  (* the imports that succeeded *)
  destruct (import_each_run C installDir done t s2)
    as (r2 & s3' & visited & rest' & H2 & _ & _ & _ & Hshape).
  rewrite Hdone in H2. injection H2 as <- <-.
  destruct Hshape as (_ & (Hid1 & Hid2 & Hid3 & Hid4 & Hid5) & Hcache3).
  assert (Hcache : INSTALL_CACHE s4 = written installDir (objects t) done (INSTALL_CACHE s)).
  { unfold s4; cbn [INSTALL_CACHE]. rewrite Hcache3, Hcache2, Hcache0.
    unfold s1a; cbn [INSTALL_CACHE]. now rewrite Hcache1. }
  assert (Hrange : forall b, In b missingPackages -> b < length (objects t)).
  { intros b Hb. apply filter_In in Hb as [Hb _]. now apply (values_in_range t b Hl). }
  assert (Hproto : forall b, In b done ->
            String.eqb (name (objects t !!! b)) "__proto__" = false).
  { intros b Hb. apply JsObjectFacts.not_inherited_not_proto.
    apply (linked_not_inherited t b Hl). apply Hrange. rewrite Hsplit.
    apply in_or_app. now left. }
  assert (Hown : forall b, In b done ->
            JsObject.own (INSTALL_CACHE s4) (name (objects t !!! b))
            = Some (InstalledAt installDir)).
  { intros b Hb. rewrite Hcache, (own_written _ _ _ _ Hproto).
    replace (existsb _ done) with true; [reflexivity |].
    symmetry. apply existsb_exists. exists b. split; [exact Hb | apply String.eqb_refl]. }
  split; [| split; [exact Hcache | split; [exact Hown | split]]].
  - (* the call *)
    unfold npxImport, checkPackagesAvailableLocally. unfold bind at 1. rewrite Hcheck.
    fold allPackages. fold missingPackages. fold localPackages. fold missing.
    replace (0 <? length missingPackages) with true
      by (rewrite Hsplit, length_app; simpl; symmetry; apply Nat.ltb_lt; lia).
    unfold bind at 1. unfold bind at 1. unfold logger at 1. fold s1a.
    unfold try_catch, install_phase. unfold bind at 1. rewrite H0.
    unfold bind at 1. fold missing. rewrite H1.
    unfold bind at 1. rewrite Hsplit, import_each_app, Hdone.
    cbn [import_each]. unfold bind at 1. unfold call at 1.
    rewrite (lookup_total_map packageWithPath _ _ a Hid3), Hfail.
    reflexivity.
  - (* the local packages *)
    intros b Hb. rewrite Hcache, (own_written _ _ _ _ Hproto).
    replace (existsb _ done) with false; [reflexivity |].
    symmetry. apply not_true_is_false. intros Hex.
    apply existsb_exists in Hex as (d & Hd & Heq). apply String.eqb_eq in Heq.
    assert (Hdm : In d missingPackages) by (rewrite Hsplit; apply in_or_app; now left).
    apply filter_In in Hb as [Hb Hloaded].
    assert (b = d).
    { apply (linked_names_apart t b d Hl); auto.
      now apply (values_in_range t b Hl). }
    subst d. apply filter_In in Hdm as [_ Hmiss]. rewrite Hmiss in Hloaded. discriminate.
  - (* the resolution afterwards *)
    intros b q n v pa Hb Hparse ->.
    unfold npxResolve, bind, call_pure, call, cache_get.
    rewrite Hparse. cbn [world INSTALL_CACHE trace].
    unfold JsObject.get. change (INSTALL_CACHE s3) with (INSTALL_CACHE s4).
    rewrite (Hown b Hb), (endsWith_nonempty _ Hends). cbn [s4 world].
    destruct (_resolveRelative C _ _ w4) as [[thrown | file] w5]; reflexivity.
Qed.

End PartialCache.

(** * The results of a call that succeeds *)

Section Results.

Context {World JsModule : Type} (C : Collaborators World JsModule).

Lemma In_indexed_complete {V} (o : JsObject.t V) (k : string) (v : V) (n : N) :
  In (k, v) o -> JsObject.array_index k = Some n -> In (n, v) (JsObject.indexed o).
Proof.
  induction o as [|[k0 v0] o IH]; simpl; [tauto |].
  intros [[= -> ->] | Hin] Hk.
  - rewrite Hk. apply JsObjectFacts.In_insert_by_index. now left.
  - destruct (JsObject.array_index k0); [| now apply IH].
    apply JsObjectFacts.In_insert_by_index. right. now apply IH.
Qed.

Lemma In_named_complete {V} (o : JsObject.t V) (k : string) (v : V) :
  In (k, v) o -> JsObject.array_index k = None -> In v (JsObject.named o).
Proof.
  induction o as [|[k0 v0] o IH]; simpl; [tauto |].
  intros [[= -> ->] | Hin] Hk.
  - rewrite Hk. now left.
  - destruct (JsObject.array_index k0); [now apply IH | right; now apply IH].
Qed.

(** [Object.values] leaves no value out. *)
Lemma values_complete {V} (o : JsObject.t V) (v : V) :
  In v (map snd o) -> In v (JsObject.values o).
Proof.
  intros Hin. apply in_map_iff in Hin as ([k v'] & <- & Hin). simpl.
  unfold JsObject.values. apply in_or_app.
  destruct (JsObject.array_index k) as [n|] eqn:Hk.
  - left. apply in_map_iff. exists (n, v'). split; [reflexivity |].
    now apply (In_indexed_complete o k v' n).
  - right. now apply (In_named_complete o k v').
Qed.

Lemma own_combine_seq (l : list string) :
  forall (k a : nat), NoDup l -> a < length l ->
  JsObject.own (combine l (seq k (length l))) (l !!! a) = Some (k + a).
Proof.
  induction l as [|x l IH]; intros k a Hnd Ha; simpl in *; [lia |].
  apply NoDup_cons in Hnd as [Hx Hnd].
  destruct a as [|a].
  - change ((x :: l) !!! 0) with x. rewrite String.eqb_refl. f_equal. lia.
  - change ((x :: l) !!! S a) with (l !!! a).
    destruct (String.eqb_spec (l !!! a) x) as [E | _].
    + exfalso. apply Hx. rewrite <- E. apply list_elem_of_lookup_total_2. lia.
    + rewrite IH by (auto; lia). f_equal. lia.
Qed.

Lemma map_lookup_total_name (l : list (Package JsModule)) (a : nat) :
  a < length l -> map name l !!! a = name (l !!! a).
Proof.
  revert a; induction l as [|x l IH]; intros a; simpl; [lia |].
  destruct a as [|a]; [reflexivity |]. intros H.
  change (map name l !!! a = name (l !!! a)). apply IH. lia.
Qed.

(** Under its name, the record holds the address of the object. *)
Lemma linked_own (t : @table JsModule) (a : nat) :
  linked t -> a < length (objects t) ->
  JsObject.get (packages t) (name (objects t !!! a)) = JsObject.Own a.
Proof.
  intros (Hp & Hnd & _) Ha. unfold JsObject.get.
  rewrite Hp, <- (map_lookup_total_name _ a Ha).
  rewrite <- (length_map name (objects t)).
  rewrite own_combine_seq; [reflexivity | exact Hnd | now rewrite length_map].
Qed.

Lemma linked_same_identity (t t' : @table JsModule) :
  linked t -> same_identity t t' -> linked t'.
Proof.
  intros (Hp & Hnd & Hall) (Hid1 & Hid2 & _).
  assert (Hlen : length (objects t') = length (objects t)).
  { rewrite <- (length_map name (objects t')), Hid2. apply length_map. }
  repeat split.
  - now rewrite Hid1, Hid2, Hlen.
  - now rewrite Hid2.
  - apply List.Forall_forall. intros o Ho.
    assert (Hin : In (name o) (map name (objects t))) by (rewrite <- Hid2; now apply in_map).
    apply in_map_iff in Hin as (o0 & <- & Ho0).
    now apply (proj1 (List.Forall_forall _ _) Hall).
Qed.

(** After the loop over the missing packages, each of them holds the
    module that was imported for it, and the other objects hold what they
    held. *)
Lemma import_each_imported (installDir : string) (missing : list nat) :
  forall (t t' : @table JsModule) (s s' : state World),
    linked t ->
    (forall a, In a missing -> a < length (objects t)) ->
    import_each C installDir t missing s = (Ok t', s') ->
    forall a, a < length (objects t) ->
      (In a missing -> is_NOT_IMPORTABLE (imported (objects t' !!! a)) = false)
      /\ (~ In a missing -> imported (objects t' !!! a) = imported (objects t !!! a)).
Proof.
  induction missing as [|a0 missing IH]; intros t t' s s' Hl Hrange Hrun a Ha.
  { injection Hrun as <- <-. split; [intros [] | reflexivity]. }
  cbn [import_each] in Hrun. unfold bind, call in Hrun.
  destruct (_importRelative C installDir _ (world s)) as [[thrown | m] w];
    [discriminate |].
  rewrite (linked_own t a0 Hl) in Hrun by (apply Hrange; now left).
  unfold ret, cache_set in Hrun. cbn [world INSTALL_CACHE trace objects packages] in Hrun.
  set (t1 := {| objects := <[a0 := set_imported (Loaded m) (objects t !!! a0)]> (objects t);
                packages := packages t |}) in *.
  assert (Hid : same_identity t t1).
  { unfold t1. repeat split; cbn [objects packages];
      apply map_set_imported; reflexivity. }
  assert (Hl1 : linked t1) by (apply (linked_same_identity t t1 Hl Hid)).
  assert (Hlen : length (objects t1) = length (objects t))
    by (unfold t1; cbn [objects]; apply length_insert).
  assert (Hrange1 : forall b, In b missing -> b < length (objects t1))
    by (intros b Hb; rewrite Hlen; apply Hrange; now right).
  assert (Ha1 : a < length (objects t1)) by lia.
  destruct (IH t1 t' _ s' Hl1 Hrange1 Hrun a Ha1) as [Hin Hout].
  assert (Hhere : imported (objects t1 !!! a0) = Loaded m).
  { unfold t1; cbn [objects]. rewrite list_lookup_total_insert_eq; [reflexivity |].
    apply Hrange. now left. }
  split.
  - intros [<- | Hrest].
    + destruct (in_dec Nat.eq_dec a0 missing) as [Hyes | Hno]; [now apply Hin |].
      now rewrite (Hout Hno), Hhere.
    + now apply Hin.
  - intros Hnot. rewrite Hout by (intros H; apply Hnot; now right).
    unfold t1; cbn [objects]. rewrite list_lookup_total_insert_ne; [reflexivity |].
    intros ->. apply Hnot. now left.
Qed.


Lemma install_phase_Ok (t t' : @table JsModule) (missing locals : list nat)
    (s s' : state World) :
  install_phase C t missing locals s = (Ok t', s') ->
  exists installDir s2 s3, import_each C installDir t missing s2 = (Ok t', s3).
Proof.
  unfold install_phase. unfold bind at 1.
  destruct (checkNpxVersion C s) as [[[] | e] s0]; [| discriminate].
  unfold bind at 1.
  destruct (installAndReturnDir C _ s0) as [[installDir | e] s1]; [| discriminate].
  unfold bind at 1.
  destruct (import_each C installDir t missing s1) as [[t1 | e] s2] eqn:E;
    [| discriminate].
  unfold bind at 1.
  destruct (record_local_run (objects t1) locals s2) as (s3 & H3 & _). rewrite H3.
  unfold ret. intros [= <- <-]. eauto.
Qed.

Lemma map_lookup_seq {B} (f : Package JsModule -> B) (l : list (Package JsModule)) :
  map (fun a => f (l !!! a)) (seq 0 (length l)) = map f l.
Proof.
  induction l as [|x l IH]; [reflexivity |].
  simpl. f_equal. rewrite <- seq_shift, map_map. exact IH.
Qed.

Lemma Forall2_same_fields (qs : list string) (l l' : list (Package JsModule)) :
  Forall2 (built C) qs l ->
  map name l' = map name l -> map version l' = map version l ->
  map path l' = map path l -> map packageWithPath l' = map packageWithPath l ->
  Forall2 (fun q o => accepts C q (name o) (version o) (path o)
                      /\ packageWithPath o = name o +:+ path o) qs l'.
Proof.
  intros Hb. revert l'. induction Hb as [|q o qs l (Hacc & Hpwp & _) _ IH];
    intros [|o' l'] Hn Hv Hp Hw; try discriminate; [constructor |].
  injection Hn as Hn1 Hn. injection Hv as Hv1 Hv. injection Hp as Hp1 Hp.
  injection Hw as Hw1 Hw. constructor; [| now apply IH].
  rewrite Hn1, Hv1, Hp1, Hw1. split; assumption.
Qed.

(** What a call that succeeds returns: one object per specifier, in the
    order of the input, each holding a module; the results are read off
    these objects in the order [Object.values] gives, which is the order of
    the input when no name is an array index. *)
Lemma successful_call_returns_every_module
    (pkg : specifiers) (s : state World) (r : returned JsModule) (s' : state World) :
  npxImport C pkg s = (Ok r, s') ->
  exists objs : list (Package JsModule),
    Forall2 (fun q o => accepts C q (name o) (version o) (path o)
                        /\ packageWithPath o = name o +:+ path o)
      (as_list pkg) objs
    /\ Forall (fun o => is_NOT_IMPORTABLE (imported o) = false) objs
    /\ (let results :=
          map (fun a => imported (objs !!! a))
            (JsObject.values (combine (map name objs) (seq 0 (length objs)))) in
        r = if isArray pkg then Results results else First (head results))
    /\ (Forall (fun o => JsObject.array_index (name o) = None) objs ->
        r = if isArray pkg then Results (map imported objs)
            else First (head (map imported objs))).
Proof.
  intros Hrun. unfold npxImport, checkPackagesAvailableLocally in Hrun.
  unfold bind at 1 in Hrun.
  destruct (probe_each_run C (as_list pkg) _ s linked_empty)
    as (r0 & s1 & Hcheck & _ & _ & _ & Hshape).
  rewrite Hcheck in Hrun. destruct r0 as [t | e]; [| discriminate].
  destruct Hshape as (new & Hobj & Hbuilt & Hl & _). simpl in Hobj. subst new.
  set (missing := List.filter (fun a => is_NOT_IMPORTABLE (imported (objects t !!! a)))
                    (JsObject.values (packages t))) in *.
  set (locals := List.filter
                   (fun a => negb (is_NOT_IMPORTABLE (imported (objects t !!! a))))
                   (JsObject.values (packages t))) in *.
  assert (Hrange : forall a, In a missing -> a < length (objects t)).
  { intros a Ha. apply filter_In in Ha as [Ha _]. now apply (values_in_range t a Hl). }
  assert (Hlocal : forall a, a < length (objects t) -> ~ In a missing ->
            is_NOT_IMPORTABLE (imported (objects t !!! a)) = false).
  { intros a Ha Hnot. apply not_true_is_false. intros Hmiss. apply Hnot.
    apply filter_In. split; [| exact Hmiss]. apply values_complete.
    rewrite (linked_addresses t Hl). apply in_seq. lia. }
  (* the table at the end *)
  assert (Hend : exists t', same_identity t t'
            /\ (forall a, a < length (objects t) ->
                  is_NOT_IMPORTABLE (imported (objects t' !!! a)) = false)
            /\ r = if isArray pkg
                   then Results (map (fun a => imported (objects t' !!! a))
                                   (JsObject.values (packages t)))
                   else First (head (map (fun a => imported (objects t' !!! a))
                                       (JsObject.values (packages t))))).
  { unfold bind at 1 in Hrun. destruct (0 <? length missing) eqn:Elen.
    - unfold bind at 1 in Hrun. unfold logger at 1 in Hrun. unfold try_catch in Hrun.
      match type of Hrun with context [install_phase C t missing locals ?s2] =>
        destruct (install_phase C t missing locals s2) as [[t' | e] s3] eqn:Ephase
      end.
      2:{ unfold bind, ask, throw in Hrun. discriminate. }
      unfold ret in Hrun. injection Hrun as <- <-.
      destruct (install_phase_Ok _ _ _ _ _ _ Ephase) as (installDir & s2 & s3' & Himp).
      exists t'. split; [| split; [| reflexivity]].
      + destruct (import_each_run C installDir missing t s2)
          as (r2 & s3'' & visited & rest & H2 & _ & _ & _ & Hshape).
        rewrite Himp in H2. injection H2 as <- <-. apply Hshape.
      + intros a Ha.
        destruct (import_each_imported installDir missing t t' s2 s3' Hl Hrange Himp a Ha)
          as [Hin Hout].
        destruct (in_dec Nat.eq_dec a missing) as [Hyes | Hno]; [now apply Hin |].
        rewrite (Hout Hno). now apply Hlocal.
    - unfold ret in Hrun. injection Hrun as <- <-.
      exists t. split; [apply same_identity_refl |]. split; [| reflexivity].
      intros a Ha. apply Hlocal; [exact Ha |].
      destruct missing; [intros [] | discriminate Elen]. }
  destruct Hend as (t' & (Hid1 & Hid2 & Hid3 & Hid4 & Hid5) & Hloaded & Hr).
  assert (Hlen : length (objects t') = length (objects t)).
  { rewrite <- (length_map name (objects t')), Hid2. apply length_map. }
  exists (objects t'). split; [| split; [| split]].
  - now apply (Forall2_same_fields (as_list pkg) (objects t) (objects t')).
  - apply List.Forall_forall. intros o Ho.
    apply list_elem_of_In, list_elem_of_lookup_total in Ho as (a & Ha & <-).
    apply Hloaded. lia.
  - cbv zeta. rewrite Hid2, Hlen. destruct Hl as (Hp & _). rewrite <- Hp. exact Hr.
  - intros Hnames. rewrite Hr. destruct Hl as (Hp & _).
    rewrite JsObjectFacts.values_creation_order.
    + rewrite Hp, map_snd_combine by (now rewrite length_map, length_seq).
      rewrite <- Hlen, map_lookup_seq. reflexivity.
    + rewrite Hp, map_fst_combine by (now rewrite length_map, length_seq).
      rewrite <- Hid2. apply Forall_map. exact Hnames.
Qed.

(** For one specifier given as a string, the result is the module of its
    package, whatever its name. *)
Lemma single_specifier_returns_its_module
    (p : string) (s : state World) (r : returned JsModule) (s' : state World) :
  npxImport C (One p) s = (Ok r, s') ->
  exists m n v pa, accepts C p n v pa /\ r = First (Some (Loaded m)).
Proof.
  intros Hrun.
  destruct (successful_call_returns_every_module (One p) s r s' Hrun)
    as (objs & Hall & Hloaded & Hr & _).
  simpl in Hall. inversion Hall as [|q o qs l [Hacc _] Hrest]; subst.
  inversion Hrest; subst. inversion Hloaded as [|? ? Ho _]; subst.
  destruct (imported o) as [|m] eqn:Ei; [discriminate Ho |].
  exists m, (name o), (version o), (path o). split; [exact Hacc |].
  rewrite Hr. cbv zeta. cbn [isArray map length seq combine].
  unfold JsObject.values. cbn [JsObject.indexed JsObject.named].
  destruct (JsObject.array_index (name o)); simpl; now rewrite Ei.
Qed.

End Results.

(** * The tests of the repository, replayed on the machine *)

Module Replay.
Import Machine.

(** [should work with versions and paths] *)
Example already_installed_version_and_path :
  let run := npxImport collaborators (One "@fake/library@1.2.3/lib/utils.js")
               (fresh (host ["@fake/library/lib/utils.js"] [])) in
  fst run = Ok (First (Some (Loaded "./node_modules/@fake/library/lib/utils.js")))
  /\ trace (snd run) =
       [EvParse "@fake/library@1.2.3/lib/utils.js"; EvValidateNpmName "@fake/library";
        EvImport "@fake/library/lib/utils.js"].
Proof. vm_compute. split; reflexivity. Qed.

(** [Should fail if NPX is old] *)
Example npx_too_old :
  let w := {| installed := []; npx_version := printed "7.1.2";
              npx_install := printed EmptyString; installable := [];
              cwd := "/project"; env := env (host [] []) |} in
  fst (npxImport collaborators (One "npm-too-old") (fresh w)) =
  Err (OrchestrationFailed ["npm-too-old"]
         "Require npm version 8+. Got '7.1.2' when running 'npx --version'"
         ["npm-too-old"] "pnpm add -D npm-too-old@latest").
Proof. vm_compute. reflexivity. Qed.

(** [Should not include path in error instructions] *)
Example no_path_in_instructions :
  fst (npxImport collaborators (One "@org/pkg@my-tag/weird-path.js")
         (fresh (host [] []))) =
  Err (OrchestrationFailed ["@org/pkg/weird-path.js"]
         ("Cannot find module '" +:+ npx_dir +:+ "/@org/pkg/weird-path.js'")
         ["@org/pkg"] "pnpm add -D @org/pkg@my-tag").
Proof. vm_compute. reflexivity. Qed.

(** [Should install two packages] *)
Example install_two_packages :
  let run := npxImport collaborators (Many ["pkg-a"; "pkg-b"])
               (fresh (host [] ["pkg-a"; "pkg-b"])) in
  fst run = Ok (Results [Loaded (npx_dir +:+ "/pkg-a"); Loaded (npx_dir +:+ "/pkg-b")])
  /\ trace (snd run) =
       [EvParse "pkg-a"; EvValidateNpmName "pkg-a"; EvImport "pkg-a";
        EvParse "pkg-b"; EvValidateNpmName "pkg-b"; EvImport "pkg-b";
        EvLog "Packages pkg-a, pkg-b not available locally. Attempting to use npx to install temporarily.";
        EvExeca "npx --version" false; EvSemverGte "8.1.2" "8.0.0";
        EvLog "Installing... (npx -y -p pkg-a@latest -p pkg-b@latest)";
        EvExeca "npx -y -p pkg-a@latest -p pkg-b@latest node -e 'console.log(process.env.PATH)'"
          true;
        EvPathResolve npx_bin "..";
        EvLog ("Installed into " +:+ npx_dir +:+ ".");
        EvLog "To skip this step in future, run: pnpm add -D pkg-a@latest pkg-b@latest";
        EvImportRelative npx_dir "pkg-a"; EvImportRelative npx_dir "pkg-b"]
  /\ INSTALL_CACHE (snd run) =
       [("pkg-a", InstalledAt npx_dir); ("pkg-b", InstalledAt npx_dir)].
Proof. vm_compute. repeat split. Qed.

(** [Should install one package if the other is already present] *)
Example install_the_missing_one :
  let run := npxImport collaborators (Many ["pkg-a"; "pkg-b"])
               (fresh (host ["pkg-a"] ["pkg-b"])) in
  fst run = Ok (Results [Loaded "./node_modules/pkg-a"; Loaded (npx_dir +:+ "/pkg-b")])
  /\ commands (trace (snd run)) =
       [("npx --version", false);
        ("npx -y -p pkg-b@latest node -e 'console.log(process.env.PATH)'", true)]
  /\ INSTALL_CACHE (snd run) =
       [("pkg-b", InstalledAt npx_dir); ("pkg-a", INSTALLED_LOCALLY)].
Proof. vm_compute. repeat split. Qed.

End Replay.

Section Cache.

Context {World JsModule : Type} (C : Collaborators World JsModule).

(** Probing writes nothing to the cache. *)
Lemma checkPackagesAvailableLocally_cache (pkg : specifiers) (s : state World) :
  INSTALL_CACHE (snd (checkPackagesAvailableLocally C pkg s)) = INSTALL_CACHE s.
Proof.
  unfold checkPackagesAvailableLocally.
  destruct (probe_each_run C (as_list pkg) _ s linked_empty)
    as (r & s1 & Hrun & Hcache & _).
  now rewrite Hrun.
Qed.

(** A call that finds every package locally skips the branch that writes
    the cache: the cache after the call is the cache before it. *)
Lemma all_local_call_writes_nothing
    (pkg : specifiers) (s s1 : state World) (t : @table JsModule) :
  checkPackagesAvailableLocally C pkg s = (Ok t, s1) ->
  List.filter (fun a => is_NOT_IMPORTABLE (imported (objects t !!! a)))
    (JsObject.values (packages t)) = [] ->
  snd (npxImport C pkg s) = s1
  /\ INSTALL_CACHE (snd (npxImport C pkg s)) = INSTALL_CACHE s.
Proof.
  intros Hcheck Hnone.
  assert (Hrun : snd (npxImport C pkg s) = s1).
  { unfold npxImport. unfold bind at 1. rewrite Hcheck, Hnone. reflexivity. }
  split; [exact Hrun |]. rewrite Hrun.
  pose proof (checkPackagesAvailableLocally_cache pkg s) as H.
  now rewrite Hcheck in H.
Qed.

(** A name the cache does not own and no object inherits is refused. *)
Lemma npxResolve_before_import (q n v pa : string) (s : state World) :
  parse C q = inr (n, v, pa) ->
  JsObject.own (INSTALL_CACHE s) n = None ->
  JsObject.inherited n = false ->
  fst (npxResolve C q s) = Err (ResolveBeforeImport q).
Proof.
  intros Hparse Hown Hinh.
  unfold npxResolve, bind, call_pure, call, cache_get. rewrite Hparse.
  cbn [world INSTALL_CACHE trace]. unfold JsObject.get. now rewrite Hown, Hinh.
Qed.

(** A name every object inherits is read from [Object.prototype], and the
    resolver is called with what was found there. *)
Lemma npxResolve_inherited (q n v pa : string) (s : state World) :
  parse C q = inr (n, v, pa) ->
  JsObject.own (INSTALL_CACHE s) n = None ->
  JsObject.inherited n = true ->
  fst (npxResolve C q s) =
  match fst (_resolveRelative C (PrototypeMember n) (n +:+ pa) (world s)) with
  | inl thrown => Err (Thrown thrown)
  | inr file => Ok file
  end.
Proof.
  intros Hparse Hown Hinh.
  unfold npxResolve, bind, call_pure, call, cache_get. rewrite Hparse.
  cbn [world INSTALL_CACHE trace]. unfold JsObject.get. rewrite Hown, Hinh.
  cbn [world INSTALL_CACHE trace].
  destruct (_resolveRelative C _ _ (world s)) as [[thrown | file] w]; reflexivity.
Qed.

End Cache.

Module Defects.
Import Machine.

(** C1, where the code departs from it: [constructor] is a package name
    [npxImport] never saw, the cache is empty, and [npxResolve] does not
    throw the error that asks for [npxImport] first: it reads
    [Object.prototype.constructor] from the cache object and calls the
    resolver with it. *)
Theorem npxResolve_reads_inherited_member :
  let run := npxResolve collaborators "constructor" (fresh (host [] [])) in
  INSTALL_CACHE (fresh (host [] [])) = JsObject.empty
  /\ fst run <> Err (ResolveBeforeImport "constructor")
  /\ trace (snd run) =
       [EvParse "constructor";
        EvResolveRelative (PrototypeMember "constructor") "constructor"].
Proof. vm_compute. repeat split. discriminate. Qed.

(** C4, where the code departs from it: both packages are installed
    locally, the array is [b] then [1], and the result holds the module of
    [1] first: [Object.values] lists the key [1], an array index, before
    the key [b]. *)
Theorem array_index_name_reorders_results :
  let run := npxImport collaborators (Many ["b"; "1"]) (fresh (host ["b"; "1"] [])) in
  fst run = Ok (Results [Loaded "./node_modules/1"; Loaded "./node_modules/b"])
  /\ probes (trace (snd run)) = ["b"; "1"].
Proof. vm_compute. split; reflexivity. Qed.

(** C7, where the code departs from it: the parent of the segment is
    [/h/.npm/_npx/x/foo_node_modules], whose last component is not named
    [node_modules]; the string ends with these characters, and the
    directory is returned. *)
Theorem suffix_accepted_as_node_modules :
  let w := {| installed := []; npx_version := printed "8.1.2";
              npx_install := printed "/usr/bin:/h/.npm/_npx/x/foo_node_modules/.bin";
              installable := []; cwd := "/project"; env := env (host [] []) |} in
  let packages := [{| name := "left-pad"; packageWithPath := "left-pad";
                      version := "latest"; path := EmptyString;
                      imported := NOT_IMPORTABLE; local := false |}] in
  fst (installAndReturnDir collaborators packages (fresh w))
    = Ok "/h/.npm/_npx/x/foo_node_modules"
  /\ PosixPath.basename "/h/.npm/_npx/x/foo_node_modules" = "foo_node_modules"
  /\ PosixPath.basename "/h/.npm/_npx/x/foo_node_modules" <> "node_modules".
Proof. vm_compute. repeat split. discriminate. Qed.

End Defects.

(** * Runs on the machine *)

Module Runs.
Import Machine.

Lemma installAndReturnDir_first_npx_segment_witness :
  let packages := [absent "left-pad" "latest" EmptyString] in
  let found := printing ("/usr/local/bin:" +:+ npx_bin +:+ ":/usr/bin") in
  let lost := printing "/usr/local/bin:/usr/bin" in
  fst (installAndReturnDir collaborators packages (fresh found)) = Ok npx_dir
  /\ fst (installAndReturnDir collaborators packages (fresh lost))
     = Err (TempDirNotFound ["/usr/local/bin"; "/usr/bin"]).
Proof.
  intros packages found lost. split.
  - apply (proj1 (installAndReturnDir_first_npx_segment collaborators packages
                    (fresh found)
                    {| failed := false;
                       stdout := "/usr/local/bin:" +:+ npx_bin +:+ ":/usr/bin" |}
                    found eq_refl eq_refl)
             ["/usr/local/bin"] npx_bin ["/usr/bin"] eq_refl).
    + intros seg [<- | []] Hin. apply StrFacts.includes_spec in Hin. discriminate Hin.
    + apply StrFacts.includes_spec. reflexivity.
  - apply (proj2 (installAndReturnDir_first_npx_segment collaborators packages
                    (fresh lost)
                    {| failed := false; stdout := "/usr/local/bin:/usr/bin" |}
                    lost eq_refl eq_refl)).
    intros seg [<- | [<- | []]] Hin; apply StrFacts.includes_spec in Hin;
      discriminate Hin.
Defined.

(** The second of three specifiers is a relative path: the first one was
    probed, the third one is not looked at. *)
Lemma rejected_specifier_stops_probing_witness :
  let pkg := Many ["pkg-a"; "./rel"; "pkg-c"] in
  let s := fresh (host ["pkg-a"] []) in
  let s' := snd (checkPackagesAvailableLocally collaborators pkg s) in
  checkPackagesAvailableLocally collaborators pkg s = (Err (InvalidSpecifier "./rel"), s')
  /\ npxImport collaborators pkg s = (Err (InvalidSpecifier "./rel"), s')
  /\ probes (trace s') = ["pkg-a"].
Proof.
  intros pkg s s'.
  assert (H : checkPackagesAvailableLocally collaborators pkg s
              = (Err (InvalidSpecifier "./rel"), s')) by (vm_compute; reflexivity).
  split; [exact H |]. split; [| vm_compute; reflexivity].
  exact (proj1 (rejected_specifier_stops_probing collaborators pkg s _ s' H)).
Defined.


(** Of three packages the first is local, the second is installed and
    imported, and the third cannot be imported from the install directory. *)
Lemma failed_call_leaves_cache_entries_witness :
  let pkg := Many ["pkg-a"; "pkg-b"; "pkg-c"] in
  let w := host ["pkg-a"] ["pkg-b"] in
  let s := fresh w in
  let s4 := snd (npxImport collaborators pkg s) in
  (exists e, fst (npxImport collaborators pkg s) = Err e)
  /\ INSTALL_CACHE s4 = [("pkg-b", InstalledAt npx_dir)]
  /\ fst (npxResolve collaborators "pkg-b" s4) = Ok (npx_dir +:+ "/pkg-b")
  /\ fst (npxResolve collaborators "pkg-a" s4) = Err (ResolveBeforeImport "pkg-a").
Proof.
  intros pkg w s s4.
  set (a := {| name := "pkg-a"; packageWithPath := "pkg-a"; version := "latest";
               path := EmptyString; imported := Loaded "./node_modules/pkg-a";
               local := true |}).
  set (t := {| objects := [a; absent "pkg-b" "latest" EmptyString;
                           absent "pkg-c" "latest" EmptyString];
               packages := [("pkg-a", 0); ("pkg-b", 1); ("pkg-c", 2)] |}).
  set (missing := [absent "pkg-b" "latest" EmptyString;
                   absent "pkg-c" "latest" EmptyString]).
  set (s1 := snd (checkPackagesAvailableLocally collaborators pkg s)).
  set (s2 := snd ((logger (not_available missing) ;; checkNpxVersion collaborators ;;
                   installAndReturnDir collaborators missing)%js s1)).
  set (run3 := import_each collaborators npx_dir t [1] s2).
  set (t3 := match fst run3 with Ok t3 => t3 | Err _ => t end).
  destruct (failed_call_leaves_cache_entries collaborators pkg s s1 s2 (snd run3) t t3
              npx_dir [1] 2 [] "Cannot find module '/Users/glen/.npm/_npx/0123456789ab/node_modules/pkg-c'" w)
    as (Hrun & Hcache & _ & _ & Hresolve); try (vm_compute; reflexivity).
  split; [eexists; rewrite Hrun; reflexivity |].
  unfold s4. rewrite Hrun. cbn [snd].
  split; [vm_compute; reflexivity |]. split; [| vm_compute; reflexivity].
  rewrite (Hresolve 1 "pkg-b" "pkg-b" "latest" EmptyString); try reflexivity.
  now left.
Defined.

End Runs.

(** * The package manager the suggestion is written for *)

Section PackageManager.

Lemma append_not_empty (a b : string) :
  b <> EmptyString -> String.eqb (a +:+ b) EmptyString = false.
Proof.
  intros Hb. destruct a as [|c a]; simpl; [| reflexivity].
  now apply String.eqb_neq.
Qed.

(** The last element of a non-empty list does not depend on the default. *)
Lemma last_default {A} (l : list A) (x d d' : A) :
  List.last (x :: l) d = List.last (x :: l) d'.
Proof.
  revert x. induction l as [|y l IH]; intros x; [reflexivity |].
  change (List.last (y :: l) d = List.last (y :: l) d'). apply IH.
Qed.

(** The last character of a string. *)
Lemma final_of_append (a b : string) (c : ascii) :
  List.last (list_ascii_of_string (a +:+ String c b)) c
  = List.last (list_ascii_of_string (String c b)) c.
Proof.
  induction a as [|x a IH]; [reflexivity |].
  change (list_ascii_of_string (String x a +:+ String c b))
    with (x :: list_ascii_of_string (a +:+ String c b)).
  cbn [List.last]. rewrite IH.
  destruct (list_ascii_of_string (a +:+ String c b)) eqn:E; [| reflexivity].
  destruct a; discriminate E.
Qed.

(** A path that ends with [yarn] does not end with [npm-cli.js] or
    [npx-cli.js]. *)
Lemma yarn_is_no_cli (before : string) :
  Str.endsWith (before +:+ "yarn") "npx-cli.js" = false
  /\ Str.endsWith (before +:+ "yarn") "npm-cli.js" = false.
Proof.
  assert (H : forall suffix, List.last (list_ascii_of_string suffix) "y"%char = "s"%char ->
            Str.endsWith (before +:+ "yarn") suffix = false).
  { intros suffix Hs. apply not_true_is_false. intros E.
    apply StrFacts.endsWith_spec in E as [b E].
    assert (L1 := final_of_append before "arn" "y").
    change (String "y" "arn") with "yarn" in L1. rewrite E in L1.
    destruct suffix as [|c suffix]; [discriminate Hs |].
    assert (L2 := final_of_append b suffix c).
    assert (L3 : List.last (list_ascii_of_string (b +:+ String c suffix)) "y"%char
                 = List.last (list_ascii_of_string (b +:+ String c suffix)) c).
    { destruct (list_ascii_of_string (b +:+ String c suffix)) eqn:El.
      - destruct b; discriminate El.
      - apply last_default. }
    assert (L4 : List.last (list_ascii_of_string (String c suffix)) "y"%char
                 = List.last (list_ascii_of_string (String c suffix)) c)
      by apply last_default.
    rewrite L3, L2, <- L4, Hs in L1. discriminate L1. }
  split; apply H; reflexivity.
Qed.

(** X1: [npm_config_user_agent] decides first.  When it starts with
    [pnpm], [yarn] or [npm], that is the answer of [getPackageManager],
    whatever [npm_execpath] and the path of the main module say. *)
Theorem getPackageManager_user_agent_first
    (rest : string) (execpath mainModulePath : option string) :
  let env ua := {| npm_config_user_agent := Some ua; npm_execpath := execpath;
                   mainModule_path := mainModulePath |} in
  getPackageManager (env ("pnpm" +:+ rest)) = pnpm
  /\ getPackageManager (env ("yarn" +:+ rest)) = yarn
  /\ getPackageManager (env ("npm" +:+ rest)) = npm.
Proof.
  intros env.
  assert (Hown : forall p, Str.startsWith (p +:+ rest) p = true)
    by (intros p; apply StrFacts.prefix_spec; now exists rest).
  assert (Hpnpm := Hown "pnpm"). assert (Hyarn := Hown "yarn").
  assert (Hnpm := Hown "npm").
  assert (T1 : truthy (Some ("pnpm" +:+ rest)) = Some ("pnpm" +:+ rest)) by reflexivity.
  assert (T2 : truthy (Some ("yarn" +:+ rest)) = Some ("yarn" +:+ rest)) by reflexivity.
  assert (T3 : truthy (Some ("npm" +:+ rest)) = Some ("npm" +:+ rest)) by reflexivity.
  assert (N1 : Str.startsWith ("yarn" +:+ rest) "pnpm" = false) by reflexivity.
  assert (N2 : Str.startsWith ("npm" +:+ rest) "pnpm" = false) by reflexivity.
  assert (N3 : Str.startsWith ("npm" +:+ rest) "yarn" = false) by reflexivity.
  unfold env, getPackageManager; cbn [npm_config_user_agent].
  rewrite T1, T2, T3, Hpnpm, N1, Hyarn, N2, N3, Hnpm. repeat split.
Qed.

(** X2: what [getPackageManager] falls back on when the user agent is not
    set, or is the empty string.  With nothing else set the answer is
    [npm].  An [npm_execpath] that ends with [npm-cli.js] or [npx-cli.js]
    gives [npm], and one that ends with [yarn] gives [yarn], whatever the
    path of the main module contains.  And [npm_execpath] alone never gives
    [pnpm]. *)
Theorem getPackageManager_fallbacks (ua : option string) :
  ua = None \/ ua = Some EmptyString ->
  let env execpath mainModulePath :=
    {| npm_config_user_agent := ua; npm_execpath := execpath;
       mainModule_path := mainModulePath |} in
  (forall execpath mainModulePath,
      (execpath = None \/ execpath = Some EmptyString) ->
      (mainModulePath = None \/ mainModulePath = Some EmptyString) ->
      getPackageManager (env execpath mainModulePath) = npm)
  /\ (forall before mainModulePath,
        getPackageManager (env (Some (before +:+ "npm-cli.js")) mainModulePath) = npm
        /\ getPackageManager (env (Some (before +:+ "npx-cli.js")) mainModulePath) = npm
        /\ getPackageManager (env (Some (before +:+ "yarn")) mainModulePath) = yarn)
  /\ (forall execpath mainModulePath,
        (mainModulePath = None \/ mainModulePath = Some EmptyString) ->
        getPackageManager (env execpath mainModulePath) <> pnpm).
Proof.
  intros Hua env.
  assert (Hget : forall e m, getPackageManager (env e m) = by_execpath (env e m)).
  { intros e m. unfold getPackageManager, env. destruct Hua as [-> | ->]; reflexivity. }
  assert (Hmain : forall e m, m = None \/ m = Some EmptyString ->
            by_mainModule (env e m) = npm).
  { intros e m [-> | ->]; reflexivity. }
  split; [| split].
  - intros execpath mainModulePath He Hm. rewrite Hget. unfold by_execpath.
    replace (truthy (npm_execpath (env execpath mainModulePath))) with (@None string)
      by (destruct He as [-> | ->]; reflexivity).
    now apply Hmain.
  - intros before mainModulePath.
    assert (Hends : forall suffix, suffix <> EmptyString ->
              truthy (Some (before +:+ suffix)) = Some (before +:+ suffix)
              /\ Str.endsWith (before +:+ suffix) suffix = true).
    { intros suffix Hs. split.
      - unfold truthy. now rewrite append_not_empty.
      - apply StrFacts.endsWith_spec. now exists before. }
    rewrite !Hget. unfold by_execpath, env; cbn [npm_execpath].
    destruct (Hends "npm-cli.js") as [-> ->]; [discriminate |].
    destruct (Hends "npx-cli.js") as [-> ->]; [discriminate |].
    destruct (Hends "yarn") as [-> ->]; [discriminate |].
    destruct (yarn_is_no_cli before) as [-> ->].
    rewrite orb_true_r. repeat split.
  - intros execpath mainModulePath Hm. rewrite Hget. unfold by_execpath.
    rewrite (Hmain execpath mainModulePath Hm).
    destruct (truthy _) as [e |]; [| discriminate].
    destruct (_ || _); [discriminate |]. destruct (Str.endsWith e "yarn"); discriminate.
Qed.

(** X3: the last resort of [getPackageManager].  With the user agent and
    [npm_execpath] unset or empty, the path of the main module decides: a
    directory [pnpm] or [.pnpm] in it gives [pnpm]; failing that, a directory
    [yarn] or [.yarn] gives [yarn]; failing both, the answer is [npm]. *)
Theorem getPackageManager_main_module
    (ua execpath : option string) (mainModulePath : string) :
  ua = None \/ ua = Some EmptyString ->
  execpath = None \/ execpath = Some EmptyString ->
  let env := {| npm_config_user_agent := ua; npm_execpath := execpath;
                mainModule_path := Some mainModulePath |} in
  let has dir := Str.Contains dir mainModulePath in
  ((has "/pnpm/" \/ has "/.pnpm/") -> getPackageManager env = pnpm)
  /\ (~ (has "/pnpm/" \/ has "/.pnpm/") -> (has "/yarn/" \/ has "/.yarn/") ->
      getPackageManager env = yarn)
  /\ (~ (has "/pnpm/" \/ has "/.pnpm/") -> ~ (has "/yarn/" \/ has "/.yarn/") ->
      getPackageManager env = npm).
Proof.
  intros Hua He env has.
  assert (Hget : getPackageManager env = by_mainModule env).
  { unfold getPackageManager, by_execpath, env.
    destruct Hua as [-> | ->], He as [-> | ->]; reflexivity. }
  rewrite Hget. unfold by_mainModule, env; cbn [mainModule_path].
  assert (Hor : forall a b,
            Str.includes a mainModulePath || Str.includes b mainModulePath = true
            <-> has a \/ has b).
  { intros a b. rewrite orb_true_iff, !StrFacts.includes_spec. reflexivity. }
  assert (Hnot : forall a b, ~ (has a \/ has b) ->
            Str.includes a mainModulePath || Str.includes b mainModulePath = false).
  { intros a b Hn. apply not_true_is_false. intros E. apply Hn. now apply Hor. }
  destruct mainModulePath as [|c m].
  { repeat split; try reflexivity.
    - intros [(a & b & E) | (a & b & E)]; destruct a; discriminate E.
    - intros _ [(a & b & E) | (a & b & E)]; destruct a; discriminate E. }
  change (truthy (Some (String c m))) with (Some (String c m)).
  repeat split.
  - intros H. apply Hor in H. now rewrite H.
  - intros Hn H. rewrite (Hnot _ _ Hn). apply Hor in H. now rewrite H.
  - intros Hn Hn'. now rewrite (Hnot _ _ Hn), (Hnot _ _ Hn').
Qed.

End PackageManager.

(** * What each step adds to the trace *)

Lemma logs_app (a b : list event) : logs (a ++ b) = logs a ++ logs b.
Proof.
  induction a as [|ev a IH]; [reflexivity |].
  destruct ev; simpl; rewrite ?IH; reflexivity.
Qed.

Section Traces.

Context {World JsModule : Type} (C : Collaborators World JsModule).

Lemma parseAndValidate_logs (p : string) (s : state World) :
  logs (trace (snd (parseAndValidate C p s))) = logs (trace s).
Proof.
  unfold parseAndValidate.
  destruct (relative p); [reflexivity |].
  unfold bind, call_pure, call, throw, ret. cbn [world INSTALL_CACHE trace].
  destruct (parse C p) as [msg | [[n v] pa]]; cbn [snd trace].
  { now rewrite logs_app, app_nil_r. }
  cbn [world INSTALL_CACHE trace].
  destruct (validForNewPackages (validateNpmName C n)); cbn [negb];
    [| destruct (core_module_warning (validateNpmName C n))];
    cbn [snd trace]; now rewrite !logs_app, !app_nil_r.
Qed.

(** Probing logs nothing. *)
Lemma probe_each_logs (ps : list string) :
  forall (t : @table JsModule) (s : state World),
    logs (trace (snd (probe_each C ps t s))) = logs (trace s).
Proof.
  induction ps as [|p ps IH]; intros t s; [reflexivity |].
  cbn [probe_each]. unfold bind at 1.
  pose proof (parseAndValidate_logs p s) as Hp.
  destruct (parseAndValidate C p s) as [[[[n v] pa] | e] s1]; cbn [snd] in *;
    [| exact Hp].
  destruct (seen t n); [exact Hp |].
  unfold bind at 1. rewrite tryImport_run. rewrite IH.
  unfold after; cbn [trace]. now rewrite logs_app, app_nil_r.
Qed.

(** The version gate runs one command, [npx --version], without a shell,
    and logs nothing. *)
Lemma checkNpxVersion_trace (s : state World) :
  exists r w tr,
    checkNpxVersion C s = (r, after s w tr)
    /\ commands tr = [("npx --version", false)]
    /\ logs tr = [] /\ probes tr = [] /\ relative_imports tr = [].
Proof.
  unfold checkNpxVersion, bind, call_pure, call, throw, ret, after.
  cbn [world INSTALL_CACHE trace].
  destruct (execaCommand C _ false (world s)) as [[msg | r] w].
  { exists (Err (Thrown msg)), w, [EvExeca "npx --version" false]. repeat split. }
  destruct (failed r).
  { exists (Err (ToolUnavailable "npx --version")), w, [EvExeca "npx --version" false].
    repeat split. }
  cbn [world INSTALL_CACHE trace]. rewrite <- app_assoc.
  destruct (semver_gte C (stdout r) "8.0.0") as [msg | [|]]; cbn [negb];
    eexists _, w, [EvExeca "npx --version" false; EvSemverGte (stdout r) "8.0.0"];
    repeat split.
Qed.

(** The installer runs one command, in a shell; it logs the command before
    it runs it and, when it returns a directory, the directory and the
    suggestion after. *)
Lemma installAndReturnDir_trace (packages : list (Package JsModule)) (s : state World) :
  exists r w tr,
    installAndReturnDir C packages s = (r, after s w tr)
    /\ commands tr = [(installPackage_of packages +:+ " " +:+ emitPath, true)]
    /\ probes tr = [] /\ relative_imports tr = []
    /\ logs tr =
         ("Installing... (" +:+ installPackage_of packages +:+ ")")
         :: match r with
            | Ok installDir =>
                ["Installed into " +:+ installDir +:+ ".";
                 "To skip this step in future, run: "
                 +:+ installInstructions (process_env C w) packages]
            | Err _ => []
            end
    /\ forall installDir, r = Ok installDir ->
         Str.endsWith installDir "node_modules" = true.
Proof.
  unfold installAndReturnDir, bind, logger, call, throw, ret, ask, after.
  cbv zeta. cbn [world INSTALL_CACHE trace].
  set (line := "Installing... (" +:+ installPackage_of packages +:+ ")").
  set (cmd := installPackage_of packages +:+ " " +:+ emitPath).
  destruct (execaCommand C cmd true (world s)) as [[msg | r] w].
  { exists (Err (Thrown msg)), w, [EvLog line; EvExeca cmd true].
    rewrite <- app_assoc. repeat split. discriminate. }
  destruct (failed r).
  { eexists (Err _), w, [EvLog line; EvExeca cmd true].
    rewrite <- app_assoc. repeat split. discriminate. }
  destruct (truthy _) as [tempPath|].
  2:{ eexists (Err _), w, [EvLog line; EvExeca cmd true].
      rewrite <- app_assoc. repeat split. discriminate. }
  cbn [world INSTALL_CACHE trace].
  destruct (Str.endsWith (path_resolve C w tempPath "..") "node_modules") eqn:E;
    cbn [negb].
  - eexists (Ok _), w,
      [EvLog line; EvExeca cmd true; EvPathResolve tempPath "..";
       EvLog _; EvLog _].
    cbn [world INSTALL_CACHE trace]. rewrite <- !app_assoc.
    split; [reflexivity |]. repeat split. intros installDir [= <-]. exact E.
  - eexists (Err _), w, [EvLog line; EvExeca cmd true; EvPathResolve tempPath ".."].
    rewrite <- !app_assoc. repeat split. discriminate.
Qed.

(** The cache after [record_local]. *)
Lemma record_local_cache (objs : list (Package JsModule)) (locals : list nat) :
  forall s : state World,
    record_local objs locals s =
    (Ok tt, {| world := world s;
               INSTALL_CACHE := recorded objs locals (INSTALL_CACHE s);
               trace := trace s |}).
Proof.
  induction locals as [|a l IH]; intros s.
  - destruct s; reflexivity.
  - cbn [record_local]. unfold bind, cache_set. rewrite IH. reflexivity.
Qed.

(** The loop over the missing packages runs no command and logs nothing. *)
Lemma import_each_trace (installDir : string) (missing : list nat) :
  forall (t : @table JsModule) (s : state World),
  exists r s',
    import_each C installDir t missing s = (r, s')
    /\ commands (trace s') = commands (trace s) /\ logs (trace s') = logs (trace s).
Proof.
  induction missing as [|a missing IH]; intros t s.
  { exists (Ok t), s. repeat split. }
  cbn [import_each]. unfold bind at 1. unfold call at 1.
  destruct (_importRelative C installDir _ (world s)) as [[msg | m] w].
  { eexists _, _. split; [reflexivity |]. cbn [trace].
    rewrite commands_app, logs_app. cbn [commands logs].
    rewrite !app_nil_r. split; reflexivity. }
  unfold bind at 1.
  destruct (JsObject.get (packages t) (name (objects t !!! a))) as [| target | k].
  { unfold throw. eexists _, _. split; [reflexivity |]. cbn [trace].
    rewrite commands_app, logs_app. cbn [commands logs].
    rewrite !app_nil_r. split; reflexivity. }
  all: unfold ret at 1; unfold bind at 1; unfold cache_set at 1;
    cbn [world INSTALL_CACHE trace];
    match goal with |- context [import_each _ _ ?t1 _ ?s2] =>
      destruct (IH t1 s2) as (r & s' & Hrun & Hc & Hl) end;
    exists r, s'; rewrite Hrun, Hc, Hl; cbn [trace];
    rewrite commands_app, logs_app; cbn [commands logs]; rewrite !app_nil_r;
    repeat split.
Qed.

End Traces.

(** * The install phase and the call, case by case *)

Section Phases.

Context {World JsModule : Type} (C : Collaborators World JsModule).

Local Open Scope js_scope.

Lemma recorded_identity (l1 l2 : list (Package JsModule))
    (addresses : list nat) (cache : JsObject.t outcome) :
  map name l1 = map name l2 ->
  recorded l1 addresses cache = recorded l2 addresses cache.
Proof.
  intros Hn. revert cache. induction addresses as [|a l IH]; intros cache; [reflexivity |].
  cbn [recorded fold_left]. rewrite (lookup_total_map name l1 l2 a Hn). apply IH.
Qed.

Lemma nonempty_branch {A B} (l : list A) (x y : B) :
  l <> [] -> match l with [] => x | _ :: _ => y end = y.
Proof. destruct l; [congruence | reflexivity]. Qed.

(** The call, by the outcome of the probing and of the install phase. *)
Lemma npxImport_unfold (pkg : specifiers) (s : state World) :
  npxImport C pkg s =
  match checkPackagesAvailableLocally C pkg s with
  | (Err e, s1) => (Err e, s1)
  | (Ok t, s1) =>
      let allPackages := JsObject.values (packages t) in
      let localPackages :=
        List.filter (fun a => negb (is_NOT_IMPORTABLE (imported (objects t !!! a))))
          allPackages in
      let missingPackages :=
        List.filter (fun a => is_NOT_IMPORTABLE (imported (objects t !!! a)))
          allPackages in
      let missing := map (fun a => objects t !!! a) missingPackages in
      let results (t' : @table JsModule) :=
        map (fun a => imported (objects t' !!! a)) allPackages in
      match missingPackages with
      | [] => (Ok (if isArray pkg then Results (results t)
                   else First (head (results t))), s1)
      | _ :: _ =>
          match install_phase C t missingPackages localPackages
                  (snd (logger (not_available missing) s1)) with
          | (Ok t', s2) =>
              (Ok (if isArray pkg then Results (results t')
                   else First (head (results t'))), s2)
          | (Err e, s2) => (Err (failure (process_env C (world s2)) missing e), s2)
          end
      end
  end.
Proof.
  unfold npxImport. unfold bind at 1.
  destruct (checkPackagesAvailableLocally C pkg s) as [[t | e] s1]; [| reflexivity].
  cbv zeta.
  destruct (List.filter (fun a => is_NOT_IMPORTABLE (imported (objects t !!! a))) _)
    as [|a l] eqn:E.
  { reflexivity. }
  cbn [length Nat.ltb Nat.leb]. unfold bind at 1. unfold bind at 1.
  unfold logger at 1. unfold try_catch. cbn [snd].
  destruct (install_phase C t (a :: l) _ _) as [[t' | e] s2]; reflexivity.
Qed.

(** The install phase: what it leaves in the cache and in the trace, by
    the step that ended it. *)
Lemma install_phase_cases (t : @table JsModule) (missing locals : list nat)
    (s : state World) :
  let version := ("npx --version", false) in
  let packages := map (fun a => objects t !!! a) missing in
  let install := (installPackage_of packages +:+ " " +:+ emitPath, true) in
  let installing := "Installing... (" +:+ installPackage_of packages +:+ ")" in
  exists r s',
    install_phase C t missing locals s = (r, s')
    /\ probes (trace s') = probes (trace s)
    /\ match r with
       | Ok t' =>
           exists installDir env,
             same_identity t t'
             /\ Str.endsWith installDir "node_modules" = true
             /\ INSTALL_CACHE s' =
                  recorded (objects t) locals
                    (written installDir (objects t) missing (INSTALL_CACHE s))
             /\ relative_imports (trace s') =
                  relative_imports (trace s)
                  ++ map (fun a => (installDir, packageWithPath (objects t !!! a)))
                       missing
             /\ commands (trace s') = commands (trace s) ++ [version; install]
             /\ logs (trace s') =
                  logs (trace s)
                  ++ [installing; "Installed into " +:+ installDir +:+ ".";
                      "To skip this step in future, run: "
                      +:+ installInstructions env packages]
       | Err e =>
           (INSTALL_CACHE s' = INSTALL_CACHE s
            /\ relative_imports (trace s') = relative_imports (trace s)
            /\ ((checkNpxVersion C s = (Err e, s')
                 /\ commands (trace s') = commands (trace s) ++ [version]
                 /\ logs (trace s') = logs (trace s))
                \/ (commands (trace s') = commands (trace s) ++ [version; install]
                    /\ logs (trace s') = logs (trace s) ++ [installing])))
           \/ exists installDir env done a rest,
                missing = done ++ a :: rest
                /\ Str.endsWith installDir "node_modules" = true
                /\ INSTALL_CACHE s' =
                     written installDir (objects t) done (INSTALL_CACHE s)
                /\ relative_imports (trace s') =
                     relative_imports (trace s)
                     ++ map (fun a => (installDir, packageWithPath (objects t !!! a)))
                          (done ++ [a])
                /\ commands (trace s') = commands (trace s) ++ [version; install]
                /\ logs (trace s') =
                     logs (trace s)
                     ++ [installing; "Installed into " +:+ installDir +:+ ".";
                         "To skip this step in future, run: "
                         +:+ installInstructions env packages]
       end.
Proof.
  intros version packages install installing.
  unfold install_phase. unfold bind at 1.
  destruct (checkNpxVersion_trace C s) as (r0 & w0 & tr0 & H0 & Hc0 & Hl0 & Hp0 & Hr0).
  rewrite H0. destruct r0 as [[] | e].
  2:{ exists (Err e), (after s w0 tr0). split; [reflexivity |].
      unfold after; cbn [trace INSTALL_CACHE].
      rewrite probes_app, relative_imports_app, commands_app, logs_app.
      rewrite Hc0, Hl0, Hp0, Hr0, !app_nil_r.
      split; [reflexivity |]. left. split; [reflexivity |]. split; [reflexivity |].
      left. repeat split. }
  unfold bind at 1. fold packages.
  destruct (installAndReturnDir_trace C packages (after s w0 tr0))
    as (r1 & w1 & tr1 & H1 & Hc1 & Hp1 & Hr1 & Hl1 & Hends).
  rewrite H1. set (s2 := after (after s w0 tr0) w1 tr1).
  assert (T2 : probes (trace s2) = probes (trace s)
               /\ relative_imports (trace s2) = relative_imports (trace s)
               /\ commands (trace s2) = commands (trace s) ++ [version; install]
               /\ logs (trace s2) = logs (trace s) ++ logs tr1
               /\ INSTALL_CACHE s2 = INSTALL_CACHE s).
  { unfold s2, after; cbn [trace INSTALL_CACHE].
    rewrite !probes_app, !relative_imports_app, !commands_app, !logs_app.
    rewrite Hc0, Hl0, Hp0, Hr0, Hc1, Hp1, Hr1, !app_nil_r, <- app_assoc.
    repeat split. }
  destruct T2 as (Tp & Tr & Tc & Tl & Tcache).
  destruct r1 as [installDir | e].
  2:{ exists (Err e), s2. split; [reflexivity |]. split; [exact Tp |].
      left. split; [exact Tcache |]. split; [exact Tr |]. right.
      split; [exact Tc |]. rewrite Tl, Hl1. reflexivity. }
  specialize (Hends installDir eq_refl).
  unfold bind at 1.
  destruct (import_each_run C installDir missing t s2)
    as (r2 & s3 & visited & rest & H2 & Hsplit & Hp2 & Hrel2 & Hshape).
  destruct (import_each_trace C installDir missing t s2) as (r2' & s3' & H2' & Hc2 & Hl2).
  rewrite H2 in H2'. injection H2' as <- <-. rewrite H2.
  destruct r2 as [t' | e].
  - destruct Hshape as (-> & Hid & Hcache). rewrite app_nil_r in Hsplit. subst visited.
    unfold bind at 1. rewrite record_local_cache. unfold ret.
    eexists (Ok t'), _. split; [reflexivity |]. cbn [trace INSTALL_CACHE].
    split; [now rewrite Hp2 |].
    exists installDir, (process_env C w1).
    split; [exact Hid |]. split; [exact Hends |].
    split.
    { rewrite Hcache, Tcache. apply recorded_identity. apply Hid. }
    split; [now rewrite Hrel2, Tr |]. split; [now rewrite Hc2 |].
    rewrite Hl2, Tl, Hl1. reflexivity.
  - destruct Hshape as (done & a & -> & Hcache).
    exists (Err e), s3. split; [reflexivity |]. split; [now rewrite Hp2 |].
    right. exists installDir, (process_env C w1), done, a, rest.
    split; [now rewrite Hsplit, <- app_assoc |]. split; [exact Hends |].
    split; [now rewrite Hcache, Tcache |].
    split; [now rewrite Hrel2, Tr |]. split; [now rewrite Hc2 |].
    rewrite Hl2, Tl, Hl1. reflexivity.
Qed.

End Phases.

(** * The installer, and the calls that install nothing *)

Section Behaviour.

Context {World JsModule : Type} (C : Collaborators World JsModule).

Local Open Scope js_scope.

(** X4: what the installer logs.  [installAndReturnDir] always logs
    [Installing... (npx -y -p ...)] first, the install command without the
    path-printing part.  When it returns a directory it has logged two more
    lines, the directory and the suggestion of a permanent installation,
    written for the package manager of the process; when it throws, for
    whatever reason, it has logged nothing more. *)
Theorem installAndReturnDir_log_lines
    (packages : list (Package JsModule)) (s : state World) :
  let run := installAndReturnDir C packages s in
  let installPackage :=
    "npx -y " +:+ Str.join " " (map (fun p => "-p " +:+ formatForCLI p) packages) in
  logs (trace (snd run)) =
    logs (trace s)
    ++ ("Installing... (" +:+ installPackage +:+ ")")
       :: match fst run with
          | Ok nodeModulesPath =>
              ["Installed into " +:+ nodeModulesPath +:+ ".";
               "To skip this step in future, run: "
               +:+ INSTRUCTIONS (getPackageManager (process_env C (world (snd run))))
                     (Str.join " " (map formatForCLI packages))]
          | Err _ => []
          end.
Proof.
  intros run installPackage. unfold run.
  destruct (installAndReturnDir_trace C packages s)
    as (r & w & tr & H & _ & _ & _ & Hl & _).
  rewrite H. unfold after; cbn [fst snd trace world].
  rewrite logs_app, Hl. reflexivity.
Qed.

(** X5: an installation reported as failed.  When the install command
    returns with [failed] set, [installAndReturnDir] throws an error whose
    message is [Failed installing], the names of the packages joined by
    commas, [using:] and the install command; the message holds the name of
    each package.  Nothing was done after the command: no path was resolved
    and nothing was logged but the first line. *)
Theorem installAndReturnDir_reported_failure
    (packages : list (Package JsModule)) (s : state World)
    (r : exec_result) (w : World) :
  let installPackage := installPackage_of packages in
  let fullCmd := installPackage +:+ " " +:+ emitPath in
  execaCommand C fullCmd true (world s) = (inr r, w) ->
  failed r = true ->
  let e := InstallFailed (map name packages) installPackage in
  installAndReturnDir C packages s =
    (Err e, after s w [EvLog ("Installing... (" +:+ installPackage +:+ ")");
                       EvExeca fullCmd true])
  /\ message e =
       "Failed installing " +:+ Str.join "," (map name packages)
       +:+ " using: " +:+ installPackage +:+ "."
  /\ (forall p, In p packages -> Str.Contains (name p) (message e))
  /\ Str.Contains installPackage (message e).
Proof.
  intros installPackage fullCmd Hrun Hfailed e.
  split; [| split; [reflexivity | split]].
  - unfold installAndReturnDir, bind, logger, call, throw, after.
    cbv zeta. cbn [world INSTALL_CACHE trace].
    fold installPackage. fold fullCmd. rewrite Hrun, Hfailed.
    rewrite <- app_assoc. reflexivity.
  - intros p Hp. cbn [message e].
    apply StrFacts.Contains_prepend, StrFacts.Contains_append.
    apply StrFacts.join_Contains, in_map, Hp.
  - cbn [message e].
    apply StrFacts.Contains_prepend, StrFacts.Contains_prepend.
    apply StrFacts.Contains_prepend, StrFacts.Contains_append.
    apply StrFacts.Contains_refl.
Qed.

(** The state after the line that announces the installation. *)
Lemma after_announcement (line : string) (s s1 : state World) :
  INSTALL_CACHE s1 = INSTALL_CACHE s ->
  commands (trace s1) = commands (trace s) ->
  relative_imports (trace s1) = relative_imports (trace s) ->
  logs (trace s1) = logs (trace s) ->
  let s2 := snd (logger line s1) in
  INSTALL_CACHE s2 = INSTALL_CACHE s
  /\ commands (trace s2) = commands (trace s)
  /\ relative_imports (trace s2) = relative_imports (trace s)
  /\ logs (trace s2) = logs (trace s) ++ [line]
  /\ probes (trace s2) = probes (trace s1).
Proof.
  intros Hcache Hc Hr Hl. unfold logger; cbn [snd INSTALL_CACHE trace].
  rewrite commands_app, relative_imports_app, logs_app, probes_app.
  cbn [commands relative_imports logs probes]. rewrite !app_nil_r, Hl.
  repeat split; assumption.
Qed.

Lemma filter_none {A} (f : A -> bool) (l : list A) :
  (forall x, In x l -> f x = false) -> List.filter f l = [].
Proof.
  induction l as [|x l IH]; intros H; [reflexivity |].
  cbn [List.filter]. rewrite (H x) by now left.
  apply IH. intros y Hy. apply H. now right.
Qed.

(** What a probing that returned a table has done. *)
Lemma probing_returned (pkg : specifiers) (s s1 : state World) (t : @table JsModule) :
  checkPackagesAvailableLocally C pkg s = (Ok t, s1) ->
  linked t /\ Forall2 (built C) (as_list pkg) (objects t)
  /\ INSTALL_CACHE s1 = INSTALL_CACHE s
  /\ commands (trace s1) = commands (trace s)
  /\ relative_imports (trace s1) = relative_imports (trace s)
  /\ logs (trace s1) = logs (trace s).
Proof.
  intros Hcheck. unfold checkPackagesAvailableLocally in Hcheck.
  destruct (probe_each_run C (as_list pkg) _ s linked_empty)
    as (r0 & s1' & H0 & Hcache & Hcmd & Hrel & Hshape).
  pose proof (probe_each_logs C (as_list pkg)
                {| objects := []; packages := JsObject.empty |} s) as Hlogs.
  rewrite Hcheck in H0, Hlogs. injection H0 as <- <-. cbn [snd] in Hlogs.
  destruct Hshape as (new & Hobj & Hall & Hl & _). cbn [objects app] in Hobj.
  subst new. repeat split; try assumption; apply Hl.
Qed.

(** X7: a call that finds every package locally is silent, and does not
    prepare [npxResolve].  When the probing returns a table in which every
    object was imported, [npxImport] returns what was imported, in the
    order of [Object.values], in the state the probing ended in: it ran no
    command, logged nothing, imported nothing from an install directory and
    wrote nothing to the cache.  So [npxResolve] for a name that the cache
    did not own before the call, and that is not inherited from
    [Object.prototype], still throws that [npxImport] must be called
    first. *)
Theorem all_local_call_is_silent
    (pkg : specifiers) (s s1 : state World) (t : @table JsModule) :
  checkPackagesAvailableLocally C pkg s = (Ok t, s1) ->
  Forall (fun o => is_NOT_IMPORTABLE (imported o) = false) (objects t) ->
  let results :=
    map (fun a => imported (objects t !!! a)) (JsObject.values (packages t)) in
  npxImport C pkg s =
    (Ok (if isArray pkg then Results results else First (head results)), s1)
  /\ commands (trace s1) = commands (trace s)
  /\ logs (trace s1) = logs (trace s)
  /\ relative_imports (trace s1) = relative_imports (trace s)
  /\ INSTALL_CACHE s1 = INSTALL_CACHE s
  /\ forall q n v pa,
       parse C q = inr (n, v, pa) ->
       JsObject.own (INSTALL_CACHE s) n = None ->
       JsObject.inherited n = false ->
       fst (npxResolve C q s1) = Err (ResolveBeforeImport q).
Proof.
  intros Hcheck Hall results.
  destruct (probing_returned pkg s s1 t Hcheck) as (Hl & _ & Hcache & Hcmd & Hrel & Hlogs).
  assert (Hnone : List.filter (fun a => is_NOT_IMPORTABLE (imported (objects t !!! a)))
                    (JsObject.values (packages t)) = []).
  { apply filter_none. intros a Ha.
    apply (proj1 (List.Forall_forall _ _) Hall).
    apply lookup_total_In. now apply (values_in_range t a Hl). }
  split; [| repeat split; try assumption].
  - rewrite npxImport_unfold, Hcheck. cbv zeta. rewrite Hnone. reflexivity.
  - intros q n v pa Hparse Hown Hinh.
    apply (npxResolve_before_import C q n v pa s1 Hparse); [| exact Hinh].
    now rewrite Hcache.
Qed.

(** X9: a string in, a module out.  When [npxImport] is called with one
    specifier that is not wrapped in an array and returns, it returns a
    module, whatever the name of the package: never the marker of a failed
    import, and never [undefined]. *)
Theorem npxImport_string_returns_a_module
    (p : string) (s : state World) (r : returned JsModule) (s' : state World) :
  npxImport C (One p) s = (Ok r, s') ->
  exists m, r = First (Some (Loaded m)).
Proof.
  intros Hrun.
  destruct (single_specifier_returns_its_module C p s r s' Hrun) as (m & _ & _ & _ & _ & H).
  now exists m.
Qed.

End Behaviour.

(** * What a call leaves in the cache *)

Section Entries.

Context {World JsModule : Type} (C : Collaborators World JsModule).

Local Open Scope js_scope.

Lemma own_recorded (objs : list (Package JsModule)) (locals : list nat) (k : string) :
  (forall a, In a locals -> String.eqb (name (objs !!! a)) "__proto__" = false) ->
  forall cache,
    JsObject.own (recorded objs locals cache) k =
    if existsb (fun a => String.eqb k (name (objs !!! a))) locals
    then Some INSTALLED_LOCALLY
    else JsObject.own cache k.
Proof.
  induction locals as [|a locals IH]; intros Hok cache; [reflexivity |].
  cbn [recorded fold_left existsb].
  change (fold_left _ locals ?c) with (recorded objs locals c).
  rewrite IH by (intros b Hb; apply Hok; now right).
  rewrite JsObjectFacts.own_set by (apply Hok; now left).
  destruct (String.eqb k (name (objs !!! a))); simpl;
    now destruct (existsb _ locals).
Qed.

(** Whether one of the objects at [addresses] has the name [k]. *)
Lemma named_among (t : @table JsModule) (addresses : list nat) (k : string) :
  existsb (fun a => String.eqb k (name (objects t !!! a))) addresses = true
  <-> exists a, In a addresses /\ name (objects t !!! a) = k.
Proof.
  rewrite existsb_exists. split; intros (a & Ha & H); exists a; split; auto.
  - symmetry. now apply String.eqb_eq.
  - apply String.eqb_eq. now symmetry.
Qed.

Lemma In_lookup_total (l : list (Package JsModule)) (o : Package JsModule) :
  In o l -> exists a, a < length l /\ l !!! a = o.
Proof.
  induction l as [|x l IH]; [intros [] |].
  intros [-> | Hin].
  - exists 0. split; [simpl; lia | reflexivity].
  - destruct (IH Hin) as (a & Ha & E). exists (S a). split; [simpl; lia | exact E].
Qed.

(** Every address of a table is among [Object.values] of its record. *)
Lemma values_all (t : @table JsModule) (a : nat) :
  linked t -> a < length (objects t) -> In a (JsObject.values (packages t)).
Proof.
  intros Hl Ha. apply values_complete. rewrite (linked_addresses t Hl).
  apply in_seq. lia.
Qed.

(** The names of the objects are the names the specifiers were split
    into. *)
Lemma built_requested (s : state World) (qs : list string)
    (objs : list (Package JsModule)) (o : Package JsModule) :
  Forall2 (built C) qs objs -> In o objs ->
  exists q v pa, In q qs /\ parse C q = inr (name o, v, pa).
Proof.
  intros Hall Ho. destruct (Forall2_In_r _ _ _ _ Hall Ho) as (q & Hq & Hb & _).
  exists q, (version o), (path o). split; [exact Hq |].
  apply (accepts_parse C s q _ _ _ (Hb s)).
Qed.

(** The entries of the cache after the two loops that write it. *)
Lemma entries_after_loops (t : @table JsModule) (installDir : string)
    (cache : JsObject.t outcome) :
  linked t ->
  let allPackages := JsObject.values (packages t) in
  let missingPackages :=
    List.filter (fun a => is_NOT_IMPORTABLE (imported (objects t !!! a))) allPackages in
  let localPackages :=
    List.filter (fun a => negb (is_NOT_IMPORTABLE (imported (objects t !!! a))))
      allPackages in
  let cache' :=
    recorded (objects t) localPackages
      (written installDir (objects t) missingPackages cache) in
  (forall o, In o (objects t) ->
     JsObject.own cache' (name o) =
     Some (if is_NOT_IMPORTABLE (imported o) then InstalledAt installDir
           else INSTALLED_LOCALLY))
  /\ (forall k, ~ In k (map name (objects t)) ->
        JsObject.own cache' k = JsObject.own cache k).
Proof.
  intros Hl allPackages missingPackages localPackages cache'.
  assert (Hrange : forall b, In b allPackages -> b < length (objects t))
    by (intros b Hb; now apply (values_in_range t b Hl)).
  assert (Hproto : forall b, In b allPackages ->
            String.eqb (name (objects t !!! b)) "__proto__" = false).
  { intros b Hb. apply JsObjectFacts.not_inherited_not_proto.
    apply (linked_not_inherited t b Hl). now apply Hrange. }
  assert (Hown : forall k,
            JsObject.own cache' k =
            if existsb (fun a => String.eqb k (name (objects t !!! a))) localPackages
            then Some INSTALLED_LOCALLY
            else if existsb (fun a => String.eqb k (name (objects t !!! a)))
                      missingPackages
                 then Some (InstalledAt installDir)
                 else JsObject.own cache k).
  { intros k. unfold cache'.
    rewrite own_recorded
      by (intros b Hb; apply Hproto; now apply filter_In in Hb as [Hb _]).
    rewrite own_written
      by (intros b Hb; apply Hproto; now apply filter_In in Hb as [Hb _]).
    reflexivity. }
  split.
  - intros o Ho. apply In_lookup_total in Ho as (a & Hlt & <-). rewrite Hown.
    assert (Hin : In a allPackages) by now apply values_all.
    destruct (is_NOT_IMPORTABLE (imported (objects t !!! a))) eqn:Em.
    + replace (existsb _ localPackages) with false.
      * replace (existsb _ missingPackages) with true; [reflexivity |].
        symmetry. apply named_among. exists a. split; [| reflexivity].
        apply filter_In. now split.
      * symmetry. apply not_true_is_false. intros E.
        apply named_among in E as (b & Hb & Hname).
        apply filter_In in Hb as [Hb Hloaded].
        assert (b = a) by (apply (linked_names_apart t b a Hl); auto).
        subst b. rewrite Em in Hloaded. discriminate.
    + replace (existsb _ localPackages) with true; [reflexivity |].
      symmetry. apply named_among. exists a. split; [| reflexivity].
      apply filter_In. split; [exact Hin | now rewrite Em].
  - intros k Hk. rewrite Hown.
    assert (Hno : forall l, (forall b, In b l -> In b allPackages) ->
              existsb (fun a => String.eqb k (name (objects t !!! a))) l = false).
    { intros l Hsub. apply not_true_is_false. intros E.
      apply named_among in E as (b & Hb & Hname). apply Hk. rewrite <- Hname.
      apply in_map, lookup_total_In, Hrange, Hsub, Hb. }
    rewrite !Hno; [reflexivity | |]; intros b Hb; now apply filter_In in Hb as [Hb _].
Qed.


Lemma Forall2_In_l {A B} (R : A -> B -> Prop) (l1 : list A) (l2 : list B) (x : A) :
  Forall2 R l1 l2 -> In x l1 -> exists y, In y l2 /\ R x y.
Proof.
  induction 1 as [|a b l1 l2 Hab Hall IH]; [intros [] |].
  intros [<- | Hin]; [exists b; split; [now left | exact Hab] |].
  destruct (IH Hin) as (y & Hy & Hxy). exists y. split; [now right | exact Hxy].
Qed.

(** A call that installed and returned: the install directory, the cache,
    the imports and the commands. *)
Lemma installing_call_run
    (pkg : specifiers) (s s1 s' : state World) (t : @table JsModule)
    (r : returned JsModule) :
  checkPackagesAvailableLocally C pkg s = (Ok t, s1) ->
  (exists o, In o (objects t) /\ imported o = NOT_IMPORTABLE) ->
  npxImport C pkg s = (Ok r, s') ->
  let allPackages := JsObject.values (packages t) in
  let missingPackages :=
    List.filter (fun a => is_NOT_IMPORTABLE (imported (objects t !!! a))) allPackages in
  let localPackages :=
    List.filter (fun a => negb (is_NOT_IMPORTABLE (imported (objects t !!! a))))
      allPackages in
  exists installDir,
    linked t
    /\ Str.endsWith installDir "node_modules" = true
    /\ INSTALL_CACHE s' =
         recorded (objects t) localPackages
           (written installDir (objects t) missingPackages (INSTALL_CACHE s))
    /\ relative_imports (trace s') =
         relative_imports (trace s)
         ++ map (fun a => (installDir, packageWithPath (objects t !!! a)))
              missingPackages.
Proof.
  intros Hcheck (o & Ho & Hmiss) Hrun allPackages missingPackages localPackages.
  destruct (probing_returned C pkg s s1 t Hcheck) as (Hl & _ & Hcache & Hcmd & Hrel & Hlogs).
  apply In_lookup_total in Ho as (a & Ha & <-).
  assert (Hin : In a missingPackages).
  { apply filter_In. split; [now apply values_all | now rewrite Hmiss]. }
  rewrite npxImport_unfold, Hcheck in Hrun. cbv zeta in Hrun.
  fold allPackages in Hrun. fold missingPackages in Hrun. fold localPackages in Hrun.
  destruct missingPackages as [|b l] eqn:E; [destruct Hin |].
  rewrite <- E in *.
  set (missing := map (fun a => objects t !!! a) missingPackages) in *.
  destruct (after_announcement (not_available missing) s s1 Hcache Hcmd Hrel Hlogs)
    as (Acache & Acmd & Arel & Alogs & _).
  destruct (install_phase_cases C t missingPackages localPackages
              (snd (logger (not_available missing) s1)))
    as (r2 & s2 & H & _ & Hshape).
  rewrite H in Hrun. destruct r2 as [t' | e]; [| discriminate Hrun].
  injection Hrun as _ <-. cbv zeta in Hshape.
  destruct Hshape as (installDir & env & _ & Hends & Hc & Hr & _).
  exists installDir. split; [exact Hl |]. split; [exact Hends |].
  split; [now rewrite Hc, Acache | now rewrite Hr, Arel].
Qed.

(** X10: what a call that installed leaves behind.  The probing returned
    the table [t], some package could not be imported locally, and
    [npxImport] returned.  Then there is one install directory, a string
    that ends with [node_modules]; the packages that could not be imported
    locally were imported from it, each once, by name and path, in the
    order of [Object.values], and no other import from an install directory
    took place; the cache owns an entry for every package of the call, the
    install directory for those that were missing and the mark of a local
    installation for the others; and the entries of all other names are
    what they were before the call. *)
Theorem installing_call_fills_cache
    (pkg : specifiers) (s s1 s' : state World) (t : @table JsModule)
    (r : returned JsModule) :
  checkPackagesAvailableLocally C pkg s = (Ok t, s1) ->
  (exists o, In o (objects t) /\ imported o = NOT_IMPORTABLE) ->
  npxImport C pkg s = (Ok r, s') ->
  exists installDir,
    Str.endsWith installDir "node_modules" = true
    /\ relative_imports (trace s') =
         relative_imports (trace s)
         ++ map (fun a => (installDir, packageWithPath (objects t !!! a)))
              (List.filter (fun a => is_NOT_IMPORTABLE (imported (objects t !!! a)))
                 (JsObject.values (packages t)))
    /\ (forall o, In o (objects t) ->
          JsObject.own (INSTALL_CACHE s') (name o) =
          Some (if is_NOT_IMPORTABLE (imported o) then InstalledAt installDir
                else INSTALLED_LOCALLY))
    /\ (forall k, ~ In k (map name (objects t)) ->
          JsObject.own (INSTALL_CACHE s') k = JsObject.own (INSTALL_CACHE s) k).
Proof.
  intros Hcheck Hmiss Hrun.
  destruct (installing_call_run pkg s s1 s' t r Hcheck Hmiss Hrun)
    as (installDir & Hl & Hends & Hcache & Hrel).
  exists installDir. split; [exact Hends |]. split; [exact Hrel |].
  rewrite Hcache. apply (entries_after_loops t installDir (INSTALL_CACHE s) Hl).
Qed.

(** X11: import, then resolve.  After a call of [npxImport] that installed
    and returned, [npxResolve] for a specifier with the name of a package
    of the call goes to the resolver of the install directory when the
    package was missing, and to the plain resolver when it was imported
    locally, with the name and the path of the specifier given to
    [npxResolve]; it returns the path the resolver returns and throws what
    the resolver throws.  So for no specifier of the call does [npxResolve]
    throw that [npxImport] must be called first. *)
Theorem npxResolve_after_installing_call
    (pkg : specifiers) (s s1 s' : state World) (t : @table JsModule)
    (r : returned JsModule) :
  checkPackagesAvailableLocally C pkg s = (Ok t, s1) ->
  (exists o, In o (objects t) /\ imported o = NOT_IMPORTABLE) ->
  npxImport C pkg s = (Ok r, s') ->
  exists installDir,
    (forall q n v pa o,
        parse C q = inr (n, v, pa) -> In o (objects t) -> name o = n ->
        fst (npxResolve C q s') =
        settled (fst (if is_NOT_IMPORTABLE (imported o)
                      then _resolveRelative C (Directory installDir) (n +:+ pa) (world s')
                      else _resolve C (n +:+ pa) (world s'))))
    /\ (forall q, In q (as_list pkg) ->
          fst (npxResolve C q s') <> Err (ResolveBeforeImport q)).
Proof.
  intros Hcheck Hmiss Hrun.
  destruct (installing_call_run pkg s s1 s' t r Hcheck Hmiss Hrun)
    as (installDir & Hl & Hends & Hcache & _).
  destruct (entries_after_loops t installDir (INSTALL_CACHE s) Hl) as [Hown _].
  cbv zeta in Hown. rewrite <- Hcache in Hown.
  assert (Hres : forall q n v pa o,
            parse C q = inr (n, v, pa) -> In o (objects t) -> name o = n ->
            fst (npxResolve C q s') =
            settled (fst (if is_NOT_IMPORTABLE (imported o)
                          then _resolveRelative C (Directory installDir) (n +:+ pa) (world s')
                          else _resolve C (n +:+ pa) (world s')))).
  { intros q n v pa o Hparse Ho <-.
    unfold npxResolve, bind, call_pure, call, cache_get. rewrite Hparse.
    cbn [world INSTALL_CACHE trace]. unfold JsObject.get. rewrite (Hown o Ho).
    destruct (is_NOT_IMPORTABLE (imported o)).
    - rewrite (endsWith_nonempty _ Hends). cbn [world INSTALL_CACHE trace].
      destruct (_resolveRelative C _ _ (world s')) as [[thrown | file] w]; reflexivity.
    - cbn [world INSTALL_CACHE trace].
      destruct (_resolve C _ (world s')) as [[thrown | file] w]; reflexivity. }
  exists installDir. split; [exact Hres |].
  intros q Hq.
  destruct (probing_returned C pkg s s1 t Hcheck) as (_ & Hall & _).
  destruct (Forall2_In_l _ _ _ q Hall Hq) as (o & Ho & Hb & _).
  destruct (accepts_parse C s q _ _ _ (Hb s)) as (_ & Hparse & _).
  rewrite (Hres q _ _ _ o Hparse Ho eq_refl).
  destruct (fst _) as [thrown | file]; discriminate.
Qed.

(** X12: a call never takes an entry away, and touches the entries of its
    own packages only.  Whatever the outcome of [npxImport], a name the
    cache owned before the call is owned after it; and the entry of a name
    that none of the specifiers of the call is split into is the same
    before and after. *)
Theorem npxImport_keeps_other_entries (pkg : specifiers) (s : state World) :
  let s' := snd (npxImport C pkg s) in
  keeps (INSTALL_CACHE s) (INSTALL_CACHE s')
  /\ forall k,
       (forall q n v pa, In q (as_list pkg) -> parse C q = inr (n, v, pa) -> k <> n) ->
       JsObject.own (INSTALL_CACHE s') k = JsObject.own (INSTALL_CACHE s) k.
Proof.
  intros s'. unfold s'. clear s'. rewrite npxImport_unfold.
  assert (Hsame : forall c : JsObject.t outcome,
            c = INSTALL_CACHE s ->
            keeps (INSTALL_CACHE s) c
            /\ forall k,
                 (forall q n v pa, In q (as_list pkg) -> parse C q = inr (n, v, pa) ->
                    k <> n) ->
                 JsObject.own c k = JsObject.own (INSTALL_CACHE s) k).
  { intros c ->. split; [intros k Hk; exact Hk | reflexivity]. }
  destruct (checkPackagesAvailableLocally C pkg s) as [[t | e] s1] eqn:Hcheck.
  2:{ cbn [snd]. apply Hsame.
      pose proof (checkPackagesAvailableLocally_cache C pkg s) as H.
      now rewrite Hcheck in H. }
  destruct (probing_returned C pkg s s1 t Hcheck) as (Hl & Hall & Hcache & Hcmd & Hrel & Hlogs).
  cbv zeta.
  set (allPackages := JsObject.values (packages t)).
  set (missingPackages :=
         List.filter (fun a => is_NOT_IMPORTABLE (imported (objects t !!! a))) allPackages).
  set (localPackages :=
         List.filter (fun a => negb (is_NOT_IMPORTABLE (imported (objects t !!! a))))
           allPackages).
  assert (Hother : forall k,
            (forall q n v pa, In q (as_list pkg) -> parse C q = inr (n, v, pa) -> k <> n) ->
            ~ In k (map name (objects t))).
  { intros k Hk Hin. apply in_map_iff in Hin as (o & <- & Ho).
    destruct (built_requested s _ _ o Hall Ho) as (q & v & pa & Hq & Hparse).
    now apply (Hk q _ v pa Hq Hparse). }
  destruct missingPackages as [|b l] eqn:E; [cbn [snd]; now apply Hsame |].
  rewrite <- E.
  set (missing := map (fun a => objects t !!! a) missingPackages).
  destruct (after_announcement (not_available missing) s s1 Hcache Hcmd Hrel Hlogs)
    as (Acache & _).
  destruct (install_phase_cases C t missingPackages localPackages
              (snd (logger (not_available missing) s1)))
    as (r2 & s2 & H & _ & Hshape).
  rewrite H. cbv zeta in Hshape. destruct r2 as [t' | e]; cbn [snd].
  - destruct Hshape as (installDir & env & _ & _ & Hc & _).
    rewrite Hc, Acache.
    destruct (entries_after_loops t installDir (INSTALL_CACHE s) Hl) as [Hown Hrest].
    cbv zeta in Hown, Hrest. fold allPackages in Hown, Hrest.
    fold missingPackages in Hown, Hrest. fold localPackages in Hown, Hrest.
    split.
    + intros k Hk.
      destruct (in_dec string_dec k (map name (objects t))) as [Hin | Hout].
      * apply in_map_iff in Hin as (o & <- & Ho). rewrite (Hown o Ho). discriminate.
      * now rewrite (Hrest k Hout).
    + intros k Hk. apply Hrest. now apply Hother.
  - destruct Hshape
      as [(Hc & _) | (installDir & env & done & a & rest & Hsplit & _ & Hc & _)];
      [apply Hsame; now rewrite Hc, Acache |].
    rewrite Hc, Acache.
    assert (Hdone : forall d, In d done -> d < length (objects t)).
    { intros d Hd. apply (values_in_range t d Hl).
      assert (Hm : In d missingPackages) by (rewrite Hsplit; apply in_or_app; now left).
      now apply filter_In in Hm as [Hm _]. }
    assert (Hown : forall k,
              JsObject.own (written installDir (objects t) done (INSTALL_CACHE s)) k =
              if existsb (fun a => String.eqb k (name (objects t !!! a))) done
              then Some (InstalledAt installDir)
              else JsObject.own (INSTALL_CACHE s) k).
    { intros k. apply own_written. intros d Hd.
      apply JsObjectFacts.not_inherited_not_proto.
      apply (linked_not_inherited t d Hl). now apply Hdone. }
    split.
    + intros k Hk. rewrite Hown. destruct (existsb _ done); [discriminate | exact Hk].
    + intros k Hk. rewrite Hown.
      replace (existsb _ done) with false; [reflexivity |].
      symmetry. apply not_true_is_false. intros Ex.
      apply named_among in Ex as (d & Hd & Hname).
      apply (Hother k Hk). rewrite <- Hname.
      apply in_map, lookup_total_In, Hdone, Hd.
Qed.

(** X13: the line that announces the installation.  When the probing
    returns a table in which some package could not be imported,
    [npxImport] logs one line before anything else: the name and path of
    the missing package when there is one, and [Packages] followed by the
    names and paths, separated by a comma and a space, when there are
    several, followed by the same sentence.  The line holds the name and
    path of every missing package.  If the call logs anything more, the
    next line is the one of the installer. *)
Theorem npxImport_announces_the_installation
    (pkg : specifiers) (s s1 : state World) (t : @table JsModule) :
  checkPackagesAvailableLocally C pkg s = (Ok t, s1) ->
  let missing :=
    map (fun a => objects t !!! a)
      (List.filter (fun a => is_NOT_IMPORTABLE (imported (objects t !!! a)))
         (JsObject.values (packages t))) in
  missing <> [] ->
  let line :=
    match missing with
    | [p] => packageWithPath p
    | _ => "Packages " +:+ Str.join ", " (map packageWithPath missing)
    end +:+ " not available locally. Attempting to use npx to install temporarily." in
  exists more,
    logs (trace (snd (npxImport C pkg s))) = logs (trace s) ++ line :: more
    /\ (forall p, In p missing -> Str.Contains (packageWithPath p) line)
    /\ (more = []
        \/ exists rest,
             more = ("Installing... (" +:+ installPackage_of missing +:+ ")") :: rest).
Proof.
  intros Hcheck missing Hsome line.
  destruct (probing_returned C pkg s s1 t Hcheck) as (Hl & Hall & Hcache & Hcmd & Hrel & Hlogs).
  assert (Hline : not_available missing = line).
  { unfold not_available, line. destruct missing as [|p [|p' l]]; [congruence | |];
      reflexivity. }
  rewrite npxImport_unfold, Hcheck. cbv zeta.
  set (missingPackages :=
         List.filter (fun a => is_NOT_IMPORTABLE (imported (objects t !!! a)))
           (JsObject.values (packages t))) in *.
  assert (Hm : missingPackages <> [])
    by (intros E; apply Hsome; unfold missing; now rewrite E).
  rewrite (nonempty_branch missingPackages _ _ Hm). fold missing. rewrite Hline.
  destruct (after_announcement line s s1 Hcache Hcmd Hrel Hlogs) as (_ & _ & _ & Alogs & _).
  destruct (install_phase_cases C t missingPackages
              (List.filter (fun a => negb (is_NOT_IMPORTABLE (imported (objects t !!! a))))
                 (JsObject.values (packages t)))
              (snd (logger line s1)))
    as (r2 & s2 & H & _ & Hshape).
  rewrite H. cbv zeta in Hshape. fold missing in Hshape.
  assert (Hholds : forall p, In p missing -> Str.Contains (packageWithPath p) line).
  { intros p Hp. unfold line. apply StrFacts.Contains_append.
    destruct missing as [|p0 [|p1 l0]]; [destruct Hp | |].
    - destruct Hp as [<- | []]. apply StrFacts.Contains_refl.
    - apply StrFacts.Contains_prepend, StrFacts.join_Contains, in_map, Hp. }
  destruct r2 as [t' | e]; cbn [snd].
  - destruct Hshape as (installDir & env & _ & _ & _ & _ & _ & Hlg).
    eexists. split; [rewrite Hlg, Alogs, <- app_assoc; reflexivity |].
    split; [exact Hholds |]. right. eexists. reflexivity.
  - destruct Hshape
      as [(_ & _ & [(_ & _ & Hlg) | (_ & Hlg)])
         | (installDir & env & done & a & rest & _ & _ & _ & _ & _ & Hlg)].
    + exists []. split; [now rewrite Hlg, Alogs |]. split; [exact Hholds | now left].
    + eexists. split; [rewrite Hlg, Alogs, <- app_assoc; reflexivity |].
      split; [exact Hholds |]. right. eexists. reflexivity.
    + eexists. split; [rewrite Hlg, Alogs, <- app_assoc; reflexivity |].
      split; [exact Hholds |]. right. eexists. reflexivity.
Qed.

End Entries.

(** * The requests that can and cannot be probed *)

Section Requests.

Context {World JsModule : Type} (C : Collaborators World JsModule).

(** A specifier is split in one way. *)
Lemma accepts_one_name (s : state World) (q n v pa n' v' pa' : string) :
  accepts C q n v pa -> accepts C q n' v' pa' -> n = n'.
Proof.
  intros H H'. specialize (H s). specialize (H' s). rewrite H in H'. congruence.
Qed.

Lemma built_names (s : state World) (qs : list string)
    (objs : list (Package JsModule)) (names : list string) :
  Forall2 (built C) qs objs ->
  Forall2 (fun q n => exists v pa, accepts C q n v pa) qs names ->
  map name objs = names.
Proof.
  intros Hall. revert names.
  induction Hall as [|q o qs objs [Hacc _] Hall IH]; intros names Hn;
    inversion Hn as [|? n ? ns (v & pa & Hq) Hns]; subst; [reflexivity |].
  cbn [map]. f_equal; [| now apply IH].
  apply (accepts_one_name s q _ _ _ _ _ _ Hacc Hq).
Qed.

(** X14: the loader cannot make the probing fail.  When every specifier of
    the call passes [parseAndValidate], and the names they are split into
    are distinct and none is a member of [Object.prototype],
    [checkPackagesAvailableLocally] returns a table, whatever the loader
    does: one object for each specifier, in the order of the call, kept
    under its name; and it has asked the loader once for each, with the
    name and path. *)
Theorem probing_succeeds_whatever_the_loader
    (pkg : specifiers) (s : state World) (names : list string) :
  Forall2 (fun q n => exists v pa, accepts C q n v pa) (as_list pkg) names ->
  NoDup names ->
  Forall (fun n => JsObject.inherited n = false) names ->
  exists t,
    fst (checkPackagesAvailableLocally C pkg s) = Ok t
    /\ Forall2 (built C) (as_list pkg) (objects t)
    /\ map name (objects t) = names
    /\ packages t = combine names (seq 0 (length names))
    /\ probes (trace (snd (checkPackagesAvailableLocally C pkg s))) =
         probes (trace s) ++ map packageWithPath (objects t).
Proof.
  intros Hacc Hnd Hinh. unfold checkPackagesAvailableLocally.
  destruct (probe_each_run C (as_list pkg) _ s linked_empty)
    as (r & s1 & Hrun & _ & _ & _ & Hshape).
  rewrite Hrun. cbn [fst snd]. destruct r as [t | e].
  - destruct Hshape as (new & Hobj & Hall & (Hpk & _) & Hprobes).
    cbn [objects app] in Hobj. subst new.
    pose proof (built_names s _ _ _ Hall Hacc) as Hnames.
    exists t. repeat split; try assumption.
    rewrite Hpk. rewrite <- Hnames. now rewrite length_map.
  - exfalso.
    destruct Hshape as (before & new & p & rest & Hsplit & Hall & _ & Hwhy).
    rewrite Hsplit in Hacc.
    apply Forall2_app_inv_l in Hacc as (names1 & names2 & Hacc1 & Hacc2 & ->).
    inversion Hacc2 as [|? n ? names3 (v & pa & Hp) _]; subst.
    pose proof (built_names s _ _ _ Hall Hacc1) as Hnames.
    destruct Hwhy as [Hrej | (n' & v' & pa' & Hp' & _ & Hdup)].
    + specialize (Hrej s). specialize (Hp s). rewrite Hp in Hrej. discriminate.
    + assert (n' = n) by (apply (accepts_one_name s p _ _ _ _ _ _ Hp' Hp)). subst n'.
      cbn [objects app] in Hdup. rewrite Hnames in Hdup.
      destruct Hdup as [Hin | Hproto].
      * apply NoDup_app in Hnd as (_ & Hapart & _).
        apply (Hapart n); apply list_elem_of_In; [exact Hin | now left].
      * apply (proj1 (List.Forall_forall _ _)) with (x := n) in Hinh;
          [congruence | apply in_or_app; right; now left].
Qed.

(** X15: a name asked for twice.  When two specifiers of the call are
    split into the same name, whatever their versions and paths, the call
    of [npxImport] fails with the error the probing ended with, at the
    second of them at the latest: it ran no command, imported nothing from
    an install directory and wrote nothing to the cache. *)
Theorem same_name_twice_never_succeeds
    (pkg : specifiers) (s : state World)
    (l1 l2 l3 : list string) (q1 q2 n v1 pa1 v2 pa2 : string) :
  as_list pkg = l1 ++ q1 :: l2 ++ q2 :: l3 ->
  accepts C q1 n v1 pa1 ->
  accepts C q2 n v2 pa2 ->
  exists e s1,
    checkPackagesAvailableLocally C pkg s = (Err e, s1)
    /\ npxImport C pkg s = (Err e, s1)
    /\ commands (trace s1) = commands (trace s)
    /\ relative_imports (trace s1) = relative_imports (trace s)
    /\ INSTALL_CACHE s1 = INSTALL_CACHE s.
Proof.
  intros Hsplit H1 H2.
  destruct (probe_each_run C (as_list pkg) _ s linked_empty)
    as (r & s1 & Hrun & Hcache & Hcmd & Hrel & Hshape).
  destruct r as [t | e].
  - exfalso. destruct Hshape as (new & Hobj & Hall & (_ & Hnd & _) & _).
    cbn [objects app] in Hobj. subst new. rewrite Hsplit in Hall.
    apply Forall2_app_inv_l in Hall as (o1 & rest1 & _ & Hall & E).
    inversion Hall as [|? a ? rest2 [Ha _] Hall2]; subst.
    apply Forall2_app_inv_l in Hall2 as (o2 & rest3 & _ & Hall3 & ->).
    inversion Hall3 as [|? b ? rest4 [Hb _] _]; subst.
    assert (Ea : name a = n) by (apply (accepts_one_name s q1 _ _ _ _ _ _ Ha H1)).
    assert (Eb : name b = n) by (apply (accepts_one_name s q2 _ _ _ _ _ _ Hb H2)).
    rewrite E, map_app in Hnd. apply NoDup_app in Hnd as (_ & _ & Hnd).
    cbn [map] in Hnd. apply NoDup_cons in Hnd as [Hnot _].
    apply Hnot. apply list_elem_of_In. rewrite map_app. apply in_or_app. right.
    cbn [map]. left. congruence.
  - exists e, s1. unfold checkPackagesAvailableLocally.
    split; [exact Hrun |]. split; [| repeat split; assumption].
    rewrite npxImport_unfold. unfold checkPackagesAvailableLocally. now rewrite Hrun.
Qed.

End Requests.

(** * The cache is written by [npxImport], never read *)

Section Blind.

Context {World : Type}.

Lemma blind_ret {A} (a : A) : cache_blind (@ret World A a).
Proof. intros s s' H. split; [reflexivity | exact H]. Qed.

Lemma blind_throw {A} (e : error) : cache_blind (@throw World A e).
Proof. intros s s' H. split; [reflexivity | exact H]. Qed.

Lemma blind_bind {A B} (m : M World A) (k : A -> M World B) :
  cache_blind m -> (forall a, cache_blind (k a)) -> cache_blind (bind m k).
Proof.
  intros Hm Hk s s' H. unfold bind. destruct (Hm s s' H) as [Hr Hs].
  destruct (m s) as [[a | e] s1], (m s') as [[a' | e'] s1']; cbn [fst snd] in *;
    try discriminate.
  - injection Hr as ->. now apply Hk.
  - injection Hr as ->. split; [reflexivity | exact Hs].
Qed.

Lemma blind_try_catch {A} (m : M World A) (handler : error -> M World A) :
  cache_blind m -> (forall e, cache_blind (handler e)) ->
  cache_blind (try_catch m handler).
Proof.
  intros Hm Hh s s' H. unfold try_catch. destruct (Hm s s' H) as [Hr Hs].
  destruct (m s) as [[a | e] s1], (m s') as [[a' | e'] s1']; cbn [fst snd] in *;
    try discriminate.
  - injection Hr as ->. split; [reflexivity | exact Hs].
  - injection Hr as ->. now apply Hh.
Qed.

Lemma blind_call {A} (ev : event) (f : World -> (string + A) * World) :
  cache_blind (call ev f).
Proof.
  intros s s' [Hw Ht]. unfold call. rewrite Hw, Ht.
  destruct (f (world s')) as [[msg | a] w]; split; try reflexivity; split; reflexivity.
Qed.

Lemma blind_call_pure {A} (ev : event) (r : string + A) :
  cache_blind (@call_pure World A ev r).
Proof. apply blind_call. Qed.

Lemma blind_ask {A} (f : World -> A) : cache_blind (ask f).
Proof.
  intros s s' [Hw Ht]. unfold ask. rewrite Hw. split; [reflexivity | now split].
Qed.

Lemma blind_logger (line : string) : cache_blind (@logger World line).
Proof.
  intros s s' [Hw Ht]. unfold logger. cbn [fst snd]. split; [reflexivity |].
  split; cbn [world trace]; congruence.
Qed.

Lemma blind_cache_set (k : string) (v : outcome) : cache_blind (@cache_set World k v).
Proof.
  intros s s' [Hw Ht]. unfold cache_set. cbn [fst snd]. split; [reflexivity |].
  split; cbn [world trace]; congruence.
Qed.

End Blind.

Create HintDb blind.
#[export] Hint Resolve blind_ret blind_throw blind_call blind_call_pure blind_ask
  blind_logger blind_cache_set : blind.

(** One step of a proof that a computation does not read the cache. *)
Ltac blind_step :=
  match goal with
  | |- cache_blind (bind _ _) => apply blind_bind; [| intros ?]
  | |- cache_blind (try_catch _ _) => apply blind_try_catch; [| intros ?]
  | |- cache_blind (if ?b then _ else _) => destruct b
  | |- cache_blind (let '(_, _) := ?p in _) => destruct p
  | |- cache_blind (match ?x with _ => _ end) => destruct x
  | |- cache_blind _ => solve [auto with blind]
  end.

Section BlindEngine.

Context {World JsModule : Type} (C : Collaborators World JsModule).

Lemma blind_parseAndValidate (p : string) : cache_blind (parseAndValidate C p).
Proof. unfold parseAndValidate. repeat blind_step. Qed.

Lemma blind_tryImport (x : string) : cache_blind (tryImport C x).
Proof. unfold tryImport. repeat blind_step. Qed.

Lemma blind_probe_each (ps : list string) :
  forall t : @table JsModule, cache_blind (probe_each C ps t).
Proof.
  induction ps as [|p ps IH]; intros t; cbn [probe_each]; [apply blind_ret |].
  apply blind_bind; [apply blind_parseAndValidate |]. intros [[n v] pa].
  destruct (seen t n); [apply blind_throw |].
  apply blind_bind; [apply blind_tryImport |]. intros i. apply IH.
Qed.

Lemma blind_checkNpxVersion : cache_blind (checkNpxVersion C).
Proof. unfold checkNpxVersion. cbv zeta. repeat blind_step. Qed.

Lemma blind_installAndReturnDir (packages : list (Package JsModule)) :
  cache_blind (installAndReturnDir C packages).
Proof. unfold installAndReturnDir. cbv zeta. repeat blind_step. Qed.

Lemma blind_import_each (installDir : string) (missing : list nat) :
  forall t : @table JsModule, cache_blind (import_each C installDir t missing).
Proof.
  induction missing as [|a missing IH]; intros t; cbn [import_each]; [apply blind_ret |].
  apply blind_bind; [apply blind_call |]. intros m.
  apply blind_bind; [repeat blind_step |]. intros t'.
  apply blind_bind; [apply blind_cache_set |]. intros _. apply IH.
Qed.

Lemma blind_record_local (objs : list (Package JsModule)) (locals : list nat) :
  cache_blind (@record_local World JsModule objs locals).
Proof.
  induction locals as [|a locals IH]; cbn [record_local]; [apply blind_ret |].
  apply blind_bind; [apply blind_cache_set | intros _; exact IH].
Qed.

Lemma blind_install_phase (t : @table JsModule) (missing locals : list nat) :
  cache_blind (install_phase C t missing locals).
Proof.
  unfold install_phase.
  apply blind_bind; [apply blind_checkNpxVersion |]. intros _.
  apply blind_bind; [apply blind_installAndReturnDir |]. intros installDir.
  apply blind_bind; [apply blind_import_each |]. intros t'.
  apply blind_bind; [apply blind_record_local |]. intros _. apply blind_ret.
Qed.

Lemma blind_npxImport (pkg : specifiers) : cache_blind (npxImport C pkg).
Proof.
  unfold npxImport, checkPackagesAvailableLocally.
  apply blind_bind; [apply blind_probe_each |]. intros t. cbv zeta.
  apply blind_bind; [| intros t'; apply blind_ret].
  destruct (0 <? _); [| apply blind_ret].
  apply blind_bind; [apply blind_logger |]. intros _.
  apply blind_try_catch; [apply blind_install_phase |]. intros e.
  repeat blind_step.
Qed.

(** X16: [npxImport] writes the cache and never reads it.  What a call
    returns or throws, what it does to the world and every call it makes,
    to the parser, the validator, the loaders, the commands and the logger,
    are the same whatever the cache holds when it starts.  So an entry the
    cache holds for a package spares nothing: a package that cannot be
    imported locally is probed and installed by every call that asks for
    it. *)
Theorem npxImport_never_reads_cache
    (pkg : specifiers) (s : state World) (cache : JsObject.t outcome) :
  let s0 := {| world := world s; INSTALL_CACHE := cache; trace := trace s |} in
  fst (npxImport C pkg s0) = fst (npxImport C pkg s)
  /\ world (snd (npxImport C pkg s0)) = world (snd (npxImport C pkg s))
  /\ trace (snd (npxImport C pkg s0)) = trace (snd (npxImport C pkg s)).
Proof.
  intros s0. apply (blind_npxImport pkg s0 s). split; reflexivity.
Qed.

End BlindEngine.

(** * [Object.values] lists every value once *)

Section Rearrangement.

Context {World JsModule : Type} (C : Collaborators World JsModule).



End Rearrangement.

(** * Each load and its specifier, and how far a call goes *)

Section Loads.

Context {World JsModule : Type} (C : Collaborators World JsModule).

Local Open Scope js_scope.




Lemma Forall2_lookup_total {A} (R : A -> Package JsModule -> Prop)
    (l : list A) (objs : list (Package JsModule)) (a : nat) :
  Forall2 R l objs -> a < length objs ->
  exists x, l !! a = Some x /\ R x (objs !!! a).
Proof.
  intros Hall. revert a. induction Hall as [|x o l objs Hxo Hall IH]; intros a Ha.
  { simpl in Ha. lia. }
  destruct a as [|a]; [exists x; split; [reflexivity | exact Hxo] |].
  simpl in Ha. destruct (IH a) as (y & Hy & Hr); [lia |].
  exists y. split; [exact Hy | exact Hr].
Qed.




(** X6: how far a call goes.  A call of [npxImport] ends in one of three
    ways.  Either it ran no command: then it logged nothing, imported
    nothing from an install directory and left the cache as it was.  Or it
    ran [npx --version] alone, without a shell: then it failed with the
    composite error, having imported nothing from an install directory and
    written nothing to the cache.  Or the probing returned a table, some of
    its objects could not be imported locally, and the call ran
    [npx --version] and then one install command, in a shell: the command
    built for exactly the objects of the table that could not be imported
    locally, in the order of [Object.values]. *)
Theorem npxImport_stages (pkg : specifiers) (s : state World) :
  let run := npxImport C pkg s in
  let s' := snd run in
  let version := ("npx --version", false) in
  (commands (trace s') = commands (trace s)
   /\ logs (trace s') = logs (trace s)
   /\ relative_imports (trace s') = relative_imports (trace s)
   /\ INSTALL_CACHE s' = INSTALL_CACHE s)
  \/ (commands (trace s') = commands (trace s) ++ [version]
      /\ relative_imports (trace s') = relative_imports (trace s)
      /\ INSTALL_CACHE s' = INSTALL_CACHE s
      /\ exists withPaths cause names instructions,
           fst run = Err (OrchestrationFailed withPaths cause names instructions))
  \/ (exists (t : @table JsModule) (s1 : state World),
        checkPackagesAvailableLocally C pkg s = (Ok t, s1)
        /\ let missing :=
             map (fun a => objects t !!! a)
               (List.filter (fun a => is_NOT_IMPORTABLE (imported (objects t !!! a)))
                  (JsObject.values (packages t))) in
           missing <> []
           /\ (forall o, In o missing <-> In o (objects t) /\ imported o = NOT_IMPORTABLE)
           /\ commands (trace s') =
                commands (trace s)
                ++ [version; (installPackage_of missing +:+ " " +:+ emitPath, true)]).
Proof.
  intros run s' version. unfold s', run. rewrite npxImport_unfold.
  destruct (checkPackagesAvailableLocally C pkg s) as [[t | e] s1] eqn:Hcheck.
  2:{ left. cbn [snd].
      destruct (probe_each_run C (as_list pkg) _ s linked_empty)
        as (r0 & s1' & H0 & Hcache & Hcmd & Hrel & _).
      pose proof (probe_each_logs C (as_list pkg)
                    {| objects := []; packages := JsObject.empty |} s) as Hlogs.
      unfold checkPackagesAvailableLocally in Hcheck.
      rewrite Hcheck in H0, Hlogs. injection H0 as _ <-. cbn [snd] in Hlogs.
      repeat split; assumption. }
  destruct (probing_returned C pkg s s1 t Hcheck) as (Hl & _ & Hcache & Hcmd & Hrel & Hlogs).
  cbv zeta.
  set (missingPackages :=
         List.filter (fun a => is_NOT_IMPORTABLE (imported (objects t !!! a)))
           (JsObject.values (packages t))).
  destruct missingPackages as [|a l] eqn:E;
    [left; cbn [snd]; repeat split; assumption |].
  rewrite <- E.
  set (missing := map (fun a => objects t !!! a) missingPackages).
  destruct (after_announcement (not_available missing) s s1 Hcache Hcmd Hrel Hlogs)
    as (Acache & Acmd & Arel & Alogs & _).
  destruct (install_phase_cases C t missingPackages
              (List.filter (fun a => negb (is_NOT_IMPORTABLE (imported (objects t !!! a))))
                 (JsObject.values (packages t)))
              (snd (logger (not_available missing) s1)))
    as (r & s2 & H & _ & Hshape).
  rewrite H. cbv zeta in Hshape. fold missing in Hshape.
  assert (Hthird : commands (trace s2) =
                   commands (trace s)
                   ++ [version; (installPackage_of missing +:+ " " +:+ emitPath, true)] ->
          exists (t0 : @table JsModule) (s0 : state World),
            (Ok t, s1) = (Ok t0, s0)
            /\ let missing0 :=
                 map (fun a => objects t0 !!! a)
                   (List.filter (fun a => is_NOT_IMPORTABLE (imported (objects t0 !!! a)))
                      (JsObject.values (packages t0))) in
               missing0 <> []
               /\ (forall o, In o missing0 <->
                             In o (objects t0) /\ imported o = NOT_IMPORTABLE)
               /\ commands (trace s2) =
                    commands (trace s)
                    ++ [version; (installPackage_of missing0 +:+ " " +:+ emitPath, true)]).
  { intros Hc. exists t, s1. split; [reflexivity |]. cbv zeta.
    fold missingPackages. fold missing.
    split; [unfold missing; rewrite E; discriminate |]. split; [| exact Hc].
    intros o. split.
    - intros Ho. unfold missing in Ho. apply in_map_iff in Ho as (b & <- & Hb).
      unfold missingPackages in Hb. apply filter_In in Hb as [Hb Hmiss]. split.
      + apply lookup_total_In. now apply (values_in_range t b Hl).
      + destruct (imported (objects t !!! b)); [reflexivity | discriminate Hmiss].
    - intros [Ho Hmiss]. apply In_lookup_total in Ho as (b & Hb & <-).
      unfold missing. apply (in_map (fun a => objects t !!! a)).
      unfold missingPackages. apply filter_In. split; [now apply values_all |].
      now rewrite Hmiss. }
  destruct r as [t' | e].
  - destruct Hshape as (installDir & env & _ & _ & _ & _ & Hc & _).
    right; right. cbn [snd]. apply Hthird. now rewrite Hc, Acmd.
  - destruct Hshape
      as [(Hcache2 & Hrel2 & [(_ & Hc & _) | (Hc & _)])
         | (installDir & env & done & b & rest & _ & _ & _ & _ & Hc & _)].
    + right; left. cbn [snd fst]. rewrite Hc, Hrel2, Hcache2, Acmd, Arel, Acache.
      repeat split. unfold failure. eexists _, _, _, _. reflexivity.
    + right; right. cbn [snd]. apply Hthird. now rewrite Hc, Acmd.
    + right; right. cbn [snd]. apply Hthird. now rewrite Hc, Acmd.
Qed.

(** C8: the version or tag of a specifier has no part in probing, and the
    path is kept.  First, two lists of specifiers that validate to the
    same names and paths, whatever their versions, are probed alike from
    the same state: same requests to the loader, same world after, same
    objects but for [version], or the same duplicate refused.  Second,
    when the probing of a call returns a table: each object of the table
    is the one of the specifier at its place in the call; the local loader
    was asked once for each specifier, in the order of the call, for the
    name followed by the path the specifier was split into, and for
    nothing else; the loader of the install directory was asked, from one
    directory, for the name followed by the path of the packages that could
    not be imported locally, one after the other in the order of
    [Object.values], up to the first that failed if any, each of them the
    package of the specifier at its place in the call, and for nothing
    else; and when the call returns, it was asked for every one of them.
    Third, when the probing fails, the local loader was asked for the name
    and path of each specifier before the refused one, in order, and the
    loader of the install directory for nothing.  The version is part of
    no request. *)
Theorem version_ignored_subpath_kept :
  (forall (pkg1 pkg2 : specifiers) (s : state World),
      Forall2 (same_target C) (as_list pkg1) (as_list pkg2) ->
      let run1 := checkPackagesAvailableLocally C pkg1 s in
      let run2 := checkPackagesAvailableLocally C pkg2 s in
      world (snd run1) = world (snd run2)
      /\ probes (trace (snd run1)) = probes (trace (snd run2))
      /\ same_outcome (fst run1) (fst run2))
  /\ (forall (pkg : specifiers) (s s1 : state World) (t : @table JsModule),
        checkPackagesAvailableLocally C pkg s = (Ok t, s1) ->
        let s' := snd (npxImport C pkg s) in
        let missingPackages :=
          List.filter (fun a => is_NOT_IMPORTABLE (imported (objects t !!! a)))
            (JsObject.values (packages t)) in
        Forall2 (fun q o => exists n v pa,
                              accepts C q n v pa /\ name o = n
                              /\ packageWithPath o = n +:+ pa)
          (as_list pkg) (objects t)
        /\ probes (trace s') = probes (trace s) ++ map packageWithPath (objects t)
        /\ exists installDir visited rest,
             missingPackages = visited ++ rest
             /\ relative_imports (trace s') =
                  relative_imports (trace s)
                  ++ map (fun a => (installDir, packageWithPath (objects t !!! a)))
                       visited
             /\ (forall a, In a visited ->
                   exists q n v pa,
                     as_list pkg !! a = Some q /\ accepts C q n v pa
                     /\ imported (objects t !!! a) = NOT_IMPORTABLE
                     /\ packageWithPath (objects t !!! a) = n +:+ pa)
             /\ ((exists r, fst (npxImport C pkg s) = Ok r) -> rest = []))
  /\ (forall (pkg : specifiers) (s s1 : state World) (e : error),
        checkPackagesAvailableLocally C pkg s = (Err e, s1) ->
        let s' := snd (npxImport C pkg s) in
        exists before targets p rest,
          as_list pkg = before ++ p :: rest
          /\ Forall2 (fun q x => exists n v pa, accepts C q n v pa /\ x = n +:+ pa)
               before targets
          /\ probes (trace s') = probes (trace s) ++ targets
          /\ relative_imports (trace s') = relative_imports (trace s)).
Proof.
  split; [| split].
  - intros pkg1 pkg2 s Hsame. unfold checkPackagesAvailableLocally.
    apply (probe_each_same_targets C _ _ Hsame); try reflexivity. constructor.
  - intros pkg s s1 t Hcheck s' missingPackages.
    destruct (probing_returned C pkg s s1 t Hcheck)
      as (Hl & Hall & Hcache & Hcmd & Hrel & Hlogs).
    assert (Hprobes : probes (trace s1) = probes (trace s) ++ map packageWithPath (objects t)).
    { destruct (probe_each_run C (as_list pkg) _ s linked_empty)
        as (r0 & s1' & H0 & _ & _ & _ & Hshape).
      unfold checkPackagesAvailableLocally in Hcheck. rewrite Hcheck in H0.
      injection H0 as <- <-. destruct Hshape as (new & Hobj & _ & _ & Hp).
      cbn [objects app] in Hobj. now subst new. }
    assert (Hspec : Forall2 (fun q o => exists n v pa,
                                accepts C q n v pa /\ name o = n
                                /\ packageWithPath o = n +:+ pa)
                      (as_list pkg) (objects t)).
    { clear - Hall. induction Hall as [|q o qs os (Hacc & Hpwp & _) _ IH];
        constructor; [| exact IH].
      exists (name o), (version o), (path o). repeat split; assumption. }
    split; [exact Hspec |].
    assert (Hown : forall a, In a missingPackages ->
              exists q n v pa,
                as_list pkg !! a = Some q /\ accepts C q n v pa
                /\ imported (objects t !!! a) = NOT_IMPORTABLE
                /\ packageWithPath (objects t !!! a) = n +:+ pa).
    { intros a Ha. apply filter_In in Ha as [Ha Hmiss].
      pose proof (values_in_range t a Hl Ha) as Hlt.
      destruct (Forall2_lookup_total _ _ _ a Hspec Hlt)
        as (q & Hq & n & v & pa & Hacc & _ & Hpwp).
      exists q, n, v, pa. repeat split; try assumption.
      destruct (imported (objects t !!! a)); [reflexivity | discriminate Hmiss]. }
    unfold s'. rewrite npxImport_unfold, Hcheck. cbv zeta. fold missingPackages.
    destruct missingPackages as [|b l] eqn:E.
    { cbn [snd]. split; [exact Hprobes |]. exists EmptyString, [], [].
      split; [reflexivity |]. cbn [map]. rewrite app_nil_r.
      split; [exact Hrel |]. split; [intros a [] | reflexivity]. }
    rewrite <- E in *.
    set (missing := map (fun a => objects t !!! a) missingPackages).
    destruct (after_announcement (not_available missing) s s1 Hcache Hcmd Hrel Hlogs)
      as (_ & _ & Arel & _ & Aprobes).
    destruct (install_phase_cases C t missingPackages
                (List.filter (fun a => negb (is_NOT_IMPORTABLE (imported (objects t !!! a))))
                   (JsObject.values (packages t)))
                (snd (logger (not_available missing) s1)))
      as (r & s2 & H & Hp2 & Hshape).
    rewrite H. cbv zeta in Hshape, Aprobes, Arel.
    assert (Hp : probes (trace s2) = probes (trace s) ++ map packageWithPath (objects t))
      by (now rewrite Hp2, Aprobes).
    destruct r as [t' | e]; cbn [snd fst].
    + destruct Hshape as (installDir & env & _ & _ & _ & Hr & _).
      split; [exact Hp |]. exists installDir, missingPackages, [].
      rewrite app_nil_r. split; [reflexivity |].
      split; [now rewrite Hr, Arel |]. split; [exact Hown | reflexivity].
    + split; [exact Hp |].
      destruct Hshape
        as [(_ & Hr & _)
           | (installDir & env & done & a & rest & Hsplit & _ & _ & Hr & _)].
      * exists EmptyString, [], missingPackages.
        split; [reflexivity |]. cbn [map]. rewrite app_nil_r.
        split; [now rewrite Hr, Arel |].
        split; [intros a [] |]. intros (r & Hr'). discriminate Hr'.
      * exists installDir, (done ++ [a]), rest.
        split; [now rewrite Hsplit, <- app_assoc |].
        split; [now rewrite Hr, Arel |]. split.
        -- intros c Hc. apply Hown. rewrite Hsplit.
           apply in_app_or in Hc as [Hc | [<- | []]]; apply in_or_app;
             [now left | right; now left].
        -- intros (r & Hr'). discriminate Hr'.
  - intros pkg s s1 e Hcheck s'. unfold s'. rewrite npxImport_unfold, Hcheck. cbn [snd].
    destruct (probe_each_run C (as_list pkg) _ s linked_empty)
      as (r0 & s1' & H0 & _ & _ & Hrel & Hshape).
    unfold checkPackagesAvailableLocally in Hcheck. rewrite Hcheck in H0.
    injection H0 as <- <-.
    destruct Hshape as (before & new & p & rest & Hsplit & Hall & Hp & _).
    exists before, (map packageWithPath new), p, rest.
    split; [exact Hsplit |]. split; [| split; [exact Hp | exact Hrel]].
    clear - Hall. induction Hall as [|q o qs os (Hacc & Hpwp & _) _ IH];
      cbn [map]; constructor; [| exact IH].
    exists (name o), (version o), (path o). split; assumption.
Qed.

End Loads.

(** * More runs on the machine *)

Module MoreRuns.
Import Machine.

(** npm and yarn started from their own scripts, with no user agent. *)
Lemma getPackageManager_fallbacks_witness :
  let started_by execpath :=
    {| npm_config_user_agent := None; npm_execpath := Some execpath;
       mainModule_path := None |} in
  getPackageManager (started_by "/usr/local/lib/node_modules/npm/bin/npm-cli.js") = npm
  /\ getPackageManager (started_by "/usr/local/lib/node_modules/npm/bin/npx-cli.js") = npm
  /\ getPackageManager (started_by "/usr/share/yarn/bin/yarn") = yarn.
Proof.
  intros started_by.
  destruct (getPackageManager_fallbacks None (or_introl eq_refl)) as (_ & H & _).
  destruct (H "/usr/local/lib/node_modules/npm/bin/" None) as (H1 & H2 & _).
  destruct (H "/usr/share/yarn/bin/" None) as (_ & _ & H3).
  split; [exact H1 |]. split; [exact H2 | exact H3].
Defined.

(** A script in the global store of pnpm, and one in the one of yarn. *)
Lemma getPackageManager_main_module_witness :
  let main mainModulePath :=
    {| npm_config_user_agent := None; npm_execpath := Some EmptyString;
       mainModule_path := Some mainModulePath |} in
  getPackageManager (main "/home/u/.local/share/pnpm/global/5/node_modules/tool/lib") = pnpm
  /\ getPackageManager (main "/home/u/.config/yarn/global/node_modules/tool/lib") = yarn.
Proof.
  intros main. split.
  - apply (getPackageManager_main_module None (Some EmptyString)
             "/home/u/.local/share/pnpm/global/5/node_modules/tool/lib"
             (or_introl eq_refl) (or_intror eq_refl)).
    left. apply StrFacts.includes_spec. reflexivity.
  - apply (getPackageManager_main_module None (Some EmptyString)
             "/home/u/.config/yarn/global/node_modules/tool/lib"
             (or_introl eq_refl) (or_intror eq_refl)).
    + intros [H | H]; apply StrFacts.includes_spec in H; discriminate H.
    + left. apply StrFacts.includes_spec. reflexivity.
Defined.

(** A host on which the install command returns with [failed] set. *)
Lemma installAndReturnDir_reported_failure_witness :
  let refused := {| failed := true; stdout := EmptyString |} in
  let w := {| installed := []; npx_version := printed "8.1.2";
              npx_install := inr refused; installable := []; cwd := "/project";
              env := env (host [] []) |} in
  let packages := [absent "left-pad" "latest" EmptyString;
                   absent "is-odd" "3.0.1" EmptyString] in
  let e := InstallFailed ["left-pad"; "is-odd"]
             "npx -y -p left-pad@latest -p is-odd@3.0.1" in
  fst (installAndReturnDir collaborators packages (fresh w)) = Err e
  /\ message e =
       "Failed installing left-pad,is-odd using: npx -y -p left-pad@latest -p is-odd@3.0.1."
  /\ Str.Contains "is-odd" (message e).
Proof.
  intros refused w packages e.
  destruct (installAndReturnDir_reported_failure collaborators packages (fresh w)
              refused w eq_refl eq_refl)
    as (Hrun & Hmessage & Hnames & _).
  split; [now rewrite Hrun |]. split; [exact Hmessage |].
  apply (Hnames (absent "is-odd" "3.0.1" EmptyString)). right. now left.
Defined.

(** Two packages, both installed locally. *)
Lemma all_local_call_is_silent_witness :
  let pkg := Many ["pkg-a"; "pkg-b"] in
  let s := fresh (host ["pkg-a"; "pkg-b"] []) in
  let s' := snd (npxImport collaborators pkg s) in
  fst (npxImport collaborators pkg s) =
    Ok (Results [Loaded "./node_modules/pkg-a"; Loaded "./node_modules/pkg-b"])
  /\ commands (trace s') = [] /\ logs (trace s') = []
  /\ INSTALL_CACHE s' = JsObject.empty
  /\ fst (npxResolve collaborators "pkg-a" s') = Err (ResolveBeforeImport "pkg-a").
Proof.
  intros pkg s s'.
  set (t := {| objects :=
                 [{| name := "pkg-a"; packageWithPath := "pkg-a"; version := "latest";
                     path := EmptyString; imported := Loaded "./node_modules/pkg-a";
                     local := true |};
                  {| name := "pkg-b"; packageWithPath := "pkg-b"; version := "latest";
                     path := EmptyString; imported := Loaded "./node_modules/pkg-b";
                     local := true |}];
               packages := [("pkg-a", 0); ("pkg-b", 1)] |}).
  set (s1 := snd (checkPackagesAvailableLocally collaborators pkg s)).
  assert (Hcheck : checkPackagesAvailableLocally collaborators pkg s = (Ok t, s1))
    by (vm_compute; reflexivity).
  destruct (all_local_call_is_silent collaborators pkg s s1 t Hcheck)
    as (Hrun & Hcmd & Hlogs & _ & Hcache & Hresolve).
  { repeat constructor. }
  unfold s'. rewrite Hrun. cbn [fst snd].
  split; [reflexivity |]. split; [exact Hcmd |]. split; [exact Hlogs |].
  split; [exact Hcache |].
  apply (Hresolve "pkg-a" "pkg-a" "latest" EmptyString); reflexivity.
Defined.

(** A scoped package with a version and a path, fetched. *)
Lemma npxImport_string_returns_a_module_witness :
  let s := fresh (host [] ["@org/pkg/lib/x.js"]) in
  exists m,
    fst (npxImport collaborators (One "@org/pkg@1.2.3/lib/x.js") s)
    = Ok (First (Some (Loaded m))).
Proof.
  intros s.
  set (run := npxImport collaborators (One "@org/pkg@1.2.3/lib/x.js") s).
  set (r := First (Some (Loaded (npx_dir +:+ "/@org/pkg/lib/x.js")))).
  assert (Hrun : run = (Ok r, snd run)) by (vm_compute; reflexivity).
  destruct (npxImport_string_returns_a_module collaborators _ s r (snd run) Hrun)
    as (m & Hm).
  exists m. fold run. rewrite Hrun. cbn [fst]. now rewrite Hm.
Defined.

(** One package is installed locally, the other one is fetched. *)
Lemma installing_call_fills_cache_witness :
  let pkg := Many ["pkg-a"; "pkg-b"] in
  let s := fresh (host ["pkg-a"] ["pkg-b"]) in
  let s' := snd (npxImport collaborators pkg s) in
  exists installDir,
    Str.endsWith installDir "node_modules" = true
    /\ relative_imports (trace s') = [(installDir, "pkg-b")]
    /\ JsObject.own (INSTALL_CACHE s') "pkg-a" = Some INSTALLED_LOCALLY
    /\ JsObject.own (INSTALL_CACHE s') "pkg-b" = Some (InstalledAt installDir)
    /\ JsObject.own (INSTALL_CACHE s') "pkg-c" = None.
Proof.
  intros pkg s s'.
  set (a := {| name := "pkg-a"; packageWithPath := "pkg-a"; version := "latest";
               path := EmptyString; imported := Loaded "./node_modules/pkg-a";
               local := true |}).
  set (b := absent "pkg-b" "latest" EmptyString).
  set (t := {| objects := [a; b]; packages := [("pkg-a", 0); ("pkg-b", 1)] |}).
  set (s1 := snd (checkPackagesAvailableLocally collaborators pkg s)).
  set (r := Results [Loaded "./node_modules/pkg-a"; Loaded (npx_dir +:+ "/pkg-b")]).
  assert (Hcheck : checkPackagesAvailableLocally collaborators pkg s = (Ok t, s1))
    by (vm_compute; reflexivity).
  assert (Hrun : npxImport collaborators pkg s = (Ok r, s')) by (vm_compute; reflexivity).
  destruct (installing_call_fills_cache collaborators pkg s s1 s' t r Hcheck)
    as (installDir & Hends & Hrel & Hown & Hrest); [| exact Hrun |].
  { exists b. split; [right; now left | reflexivity]. }
  exists installDir. split; [exact Hends |]. split; [exact Hrel |].
  split; [apply (Hown a); now left |].
  split; [apply (Hown b); right; now left |].
  apply (Hrest "pkg-c"). intros [H | [H | []]]; discriminate H.
Defined.

(** One package is installed locally, the other one is fetched; both are
    resolved afterwards. *)
Lemma npxResolve_after_installing_call_witness :
  let pkg := Many ["pkg-a"; "pkg-b"] in
  let s := fresh (host ["pkg-a"] ["pkg-b"]) in
  let s' := snd (npxImport collaborators pkg s) in
  fst (npxResolve collaborators "pkg-a" s') <> Err (ResolveBeforeImport "pkg-a")
  /\ fst (npxResolve collaborators "pkg-b" s') <> Err (ResolveBeforeImport "pkg-b")
  /\ fst (npxResolve collaborators "pkg-a" s') = Ok "./node_modules/pkg-a".
Proof.
  intros pkg s s'.
  set (a := {| name := "pkg-a"; packageWithPath := "pkg-a"; version := "latest";
               path := EmptyString; imported := Loaded "./node_modules/pkg-a";
               local := true |}).
  set (b := absent "pkg-b" "latest" EmptyString).
  set (t := {| objects := [a; b]; packages := [("pkg-a", 0); ("pkg-b", 1)] |}).
  set (s1 := snd (checkPackagesAvailableLocally collaborators pkg s)).
  set (r := Results [Loaded "./node_modules/pkg-a"; Loaded (npx_dir +:+ "/pkg-b")]).
  assert (Hcheck : checkPackagesAvailableLocally collaborators pkg s = (Ok t, s1))
    by (vm_compute; reflexivity).
  assert (Hrun : npxImport collaborators pkg s = (Ok r, s')) by (vm_compute; reflexivity).
  destruct (npxResolve_after_installing_call collaborators pkg s s1 s' t r Hcheck)
    as (installDir & Hres & Hnever); [| exact Hrun |].
  { exists b. split; [right; now left | reflexivity]. }
  split; [apply Hnever; now left |]. split; [apply Hnever; right; now left |].
  rewrite (Hres "pkg-a" "pkg-a" "latest" EmptyString a eq_refl (or_introl eq_refl) eq_refl).
  reflexivity.
Defined.

(** Two packages that are not installed: the probing returns all the
    same. *)
Lemma probing_succeeds_whatever_the_loader_witness :
  let pkg := Many ["pkg-a"; "@org/pkg-b@1.0.0/lib"] in
  let s := fresh (host [] []) in
  exists t,
    fst (checkPackagesAvailableLocally collaborators pkg s) = Ok t
    /\ map name (objects t) = ["pkg-a"; "@org/pkg-b"]
    /\ probes (trace (snd (checkPackagesAvailableLocally collaborators pkg s)))
       = map packageWithPath (objects t).
Proof.
  intros pkg s.
  destruct (probing_succeeds_whatever_the_loader collaborators pkg s
              ["pkg-a"; "@org/pkg-b"])
    as (t & Hrun & _ & Hnames & _ & Hprobes).
  { constructor; [exists "latest", EmptyString; intros s0; reflexivity |].
    constructor; [exists "1.0.0", "/lib"; intros s0; reflexivity | constructor]. }
  { apply NoDup_cons. split; [| apply NoDup_singleton].
    intros H. apply list_elem_of_In in H. destruct H as [H | []]. discriminate H. }
  { repeat constructor. }
  exists t. split; [exact Hrun |]. split; [exact Hnames | exact Hprobes].
Defined.

(** Two versions of one package in one call. *)
Lemma same_name_twice_never_succeeds_witness :
  let pkg := Many ["pkg-a@1.0.0"; "pkg-b"; "pkg-a@2.0.0/lib"] in
  let s := fresh (host [] ["pkg-a"; "pkg-b"; "pkg-a/lib"]) in
  exists e s1,
    npxImport collaborators pkg s = (Err e, s1)
    /\ commands (trace s1) = [] /\ INSTALL_CACHE s1 = JsObject.empty.
Proof.
  intros pkg s.
  destruct (same_name_twice_never_succeeds collaborators pkg s
              [] ["pkg-b"] [] "pkg-a@1.0.0" "pkg-a@2.0.0/lib" "pkg-a"
              "1.0.0" EmptyString "2.0.0" "/lib" eq_refl)
    as (e & s1 & _ & Hrun & Hcmd & _ & Hcache).
  { intros s0. reflexivity. }
  { intros s0. reflexivity. }
  exists e, s1. split; [exact Hrun |]. split; [exact Hcmd | exact Hcache].
Defined.

(** Two packages to fetch: the line names both. *)
Lemma npxImport_announces_the_installation_witness :
  let pkg := Many ["pkg-a"; "pkg-b"] in
  let s := fresh (host [] ["pkg-a"; "pkg-b"]) in
  exists more,
    logs (trace (snd (npxImport collaborators pkg s))) =
    "Packages pkg-a, pkg-b not available locally. Attempting to use npx to install temporarily."
    :: more.
Proof.
  intros pkg s.
  set (t := {| objects := [absent "pkg-a" "latest" EmptyString;
                           absent "pkg-b" "latest" EmptyString];
               packages := [("pkg-a", 0); ("pkg-b", 1)] |}).
  set (s1 := snd (checkPackagesAvailableLocally collaborators pkg s)).
  assert (Hcheck : checkPackagesAvailableLocally collaborators pkg s = (Ok t, s1))
    by (vm_compute; reflexivity).
  destruct (npxImport_announces_the_installation collaborators pkg s s1 t Hcheck)
    as (more & Hlogs & _).
  { discriminate. }
  exists more. exact Hlogs.
Defined.

(** One package asked for with a version, with a tag and with neither,
    installed locally; and the same with a version and a path, fetched. *)
Lemma version_ignored_subpath_kept_witness :
  let s := fresh (host ["pkg/lib/x.js"] []) in
  let run1 := checkPackagesAvailableLocally collaborators (One "pkg@1.2.3/lib/x.js") s in
  let run2 := checkPackagesAvailableLocally collaborators (One "pkg@beta/lib/x.js") s in
  let run3 := checkPackagesAvailableLocally collaborators (One "pkg/lib/x.js") s in
  let fetched :=
    snd (npxImport collaborators (One "pkg@1.2.3/lib/x.js")
           (fresh (host [] ["pkg/lib/x.js"]))) in
  probes (trace (snd run1)) = ["pkg/lib/x.js"]
  /\ probes (trace (snd run1)) = probes (trace (snd run2))
  /\ probes (trace (snd run2)) = probes (trace (snd run3))
  /\ same_outcome (fst run1) (fst run2)
  /\ same_outcome (fst run2) (fst run3)
  /\ probes (trace fetched) = ["pkg/lib/x.js"]
  /\ exists installDir, relative_imports (trace fetched) = [(installDir, "pkg/lib/x.js")].
Proof.
  intros s run1 run2 run3 fetched.
  assert (A1 : accepts collaborators "pkg@1.2.3/lib/x.js" "pkg" "1.2.3" "/lib/x.js")
    by (intros s0; reflexivity).
  assert (A2 : accepts collaborators "pkg@beta/lib/x.js" "pkg" "beta" "/lib/x.js")
    by (intros s0; reflexivity).
  assert (A3 : accepts collaborators "pkg/lib/x.js" "pkg" "latest" "/lib/x.js")
    by (intros s0; reflexivity).
  destruct (proj1 (version_ignored_subpath_kept collaborators)
              (One "pkg@1.2.3/lib/x.js") (One "pkg@beta/lib/x.js") s)
    as (_ & P12 & O12).
  { repeat constructor. exists "pkg", "1.2.3", "beta", "/lib/x.js". now split. }
  destruct (proj1 (version_ignored_subpath_kept collaborators)
              (One "pkg@beta/lib/x.js") (One "pkg/lib/x.js") s)
    as (_ & P23 & O23).
  { repeat constructor. exists "pkg", "beta", "latest", "/lib/x.js". now split. }
  split; [vm_compute; reflexivity |].
  split; [exact P12 |]. split; [exact P23 |]. split; [exact O12 |].
  split; [exact O23 |].
  set (pkg := One "pkg@1.2.3/lib/x.js").
  set (s0 := fresh (host [] ["pkg/lib/x.js"])).
  set (t := {| objects := [absent "pkg" "1.2.3" "/lib/x.js"];
               packages := [("pkg", 0)] |}).
  set (s1 := snd (checkPackagesAvailableLocally collaborators pkg s0)).
  assert (Hcheck : checkPackagesAvailableLocally collaborators pkg s0 = (Ok t, s1))
    by (vm_compute; reflexivity).
  destruct (proj1 (proj2 (version_ignored_subpath_kept collaborators)) pkg s0 s1 t Hcheck)
    as (_ & Hprobes & installDir & visited & rest & Hsplit & Hrel & _ & Hall).
  split; [exact Hprobes |]. exists installDir.
  assert (Hrest : rest = []) by (apply Hall; eexists; vm_compute; reflexivity).
  subst rest. rewrite app_nil_r in Hsplit.
  change ([0] = visited) in Hsplit. subst visited. exact Hrel.
Defined.



End MoreRuns.
